(** * IHC attribution pipeline: journeys, heuristic scoring, batched scoring

    A shallow embedding of [attribution_processing.py] and of the part of
    [pipeline_runner.py] / [database_operations.py] that decides what is
    persisted, followed by the properties proved about them.

    Modelling conventions.
    - A Python [dict] is an insertion-ordered association list ([Dict.t]):
      assignment to a present key updates the value in place, assignment to
      an absent key appends at the end, iteration is in list order.
    - Python floats are exact rationals ([Q], compared with [==]), which
      leaves rounding out.  Float division raises [ZeroDivisionError] on a
      zero divisor, which is kept explicit ([py_div]).  Where rounding
      decides, the heuristic engine is taken once more over binary64
      floats ([Binary64]).
    - A pandas [Timestamp] is an integer count of nanoseconds.  The text
      ['%Y-%m-%d %H:%M:%S'] written by [strftime] is represented by the
      [datetime] it denotes, an integer count of whole seconds, so
      [strftime] drops the sub-second part and [strptime] reads the value
      back.
    - Identifiers (user, session, conversion) are strings.
    - Exceptions are values of [exn]; a computation that may raise returns
      a [result].
    - The scoring service is a function from the number and content of a
      request to what comes back.  The requests sent, the errors and
      warnings logged and the tables saved are appended to a trace, which
      the computations of [M] thread along with their result. *)

From Stdlib Require Import List String Ascii Bool ZArith QArith Lia Lqa.
From Stdlib Require Import Permutation Sorted.
From Stdlib Require Import Floats.
Import ListNotations.

Local Open Scope string_scope.
Local Open Scope list_scope.
Local Open Scope Z_scope.

(** ** Exceptions and results *)

Inductive request_error : Type :=
| ConnectionError            (* connection refused, DNS failure *)
| Timeout                    (* the 60 second timeout elapsed *)
| HTTPError (status : Z)     (* raised by [raise_for_status] *)
| JSONDecodeError.           (* raised by [response.json()] *)

Inductive exn : Type :=
| ZeroDivisionError
| ValueError
| RequestException (e : request_error)
| DatabaseError.

Inductive result (A : Type) : Type :=
| Ok (a : A)
| Raise (e : exn).
Arguments Ok {A} a.
Arguments Raise {A} e.

Definition bind {A B : Type} (m : result A) (f : A -> result B) : result B :=
  match m with
  | Ok a => f a
  | Raise e => Raise e
  end.

Declare Scope result_scope.
Delimit Scope result_scope with result.
Notation "x <- m ;; k" := (bind m (fun x => k))
  (at level 61, m at next level, right associativity) : result_scope.

(** ** Python dictionaries *)

Module Dict.
Section WithValue.
Context {V : Type}.

Definition t : Type := list (string * V).

Definition empty : t := [].

(** [d.get(k)] / [d[k]] *)
Fixpoint get (d : t) (k : string) : option V :=
  match d with
  | [] => None
  | (k', v) :: rest => if String.eqb k' k then Some v else get rest k
  end.

(** [k in d] *)
Definition mem (d : t) (k : string) : bool :=
  match get d k with
  | Some _ => true
  | None => false
  end.

(** [d[k] = v] *)
Fixpoint set (d : t) (k : string) (v : V) : t :=
  match d with
  | [] => [(k, v)]
  | (k', v') :: rest =>
      if String.eqb k' k then (k', v) :: rest else (k', v') :: set rest k v
  end.

(** [if k not in d: d[k] = v] *)
Definition ensure (d : t) (k : string) (v : V) : t :=
  if mem d k then d else set d k v.

(** [list(d.keys())], [list(d.values())] *)
Definition keys (d : t) : list string := map fst d.
Definition values (d : t) : list V := map snd d.

(** A list of pairs is a dictionary when no key occurs twice. *)
Definition wf (d : t) : Prop := NoDup (keys d).
End WithValue.
Arguments t V : clear implicits.
End Dict.

(** ** Data model *)

Definition Timestamp : Type := Z.       (* pandas Timestamp, nanoseconds *)
Definition datetime : Type := Z.        (* whole seconds *)

Definition strftime (t : Timestamp) : datetime := t / 1000000000.
Definition strptime (s : datetime) : datetime := s.

(** One row of [sessions_df]. *)
Record session_row : Type := {
  row_session_id : string;
  row_user_id : string;
  row_timestamp : Timestamp;
  row_channel_name : string;
  row_holder_engagement : bool;
  row_closer_engagement : bool;
  row_impression_interaction : bool;
  row_cost : option Q                    (* [None] is NaN *)
}.

(** One row of [conversions_df]. *)
Record conversion_row : Type := {
  crow_conv_id : string;
  crow_user_id : string;
  crow_timestamp : Timestamp;
  crow_revenue : Q
}.

(** The [session_dict] and [conversion_dict] of a journey. *)
Record session : Type := {
  session_id : string;
  timestamp : datetime;
  channel : string;
  holder_engagement : bool;
  closer_engagement : bool;
  impression_interaction : bool;
  cost : Q
}.

Record conversion : Type := {
  conv_id : string;
  conv_timestamp : datetime;
  revenue : Q
}.

(** [{'sessions': ..., 'conversions': ...}]; a missing key is [None]. *)
Record user_data : Type := {
  sessions : option (list session);
  conversions : option (list conversion)
}.

(** [{'users': ...}]; a missing key is [None]. *)
Record journey_payload : Type := {
  users : option (Dict.t user_data)
}.

(** [d.get(key, default)] on an optional field. *)
Definition get_default {A : Type} (o : option A) (default : A) : A :=
  match o with
  | Some a => a
  | None => default
  end.

(** The attribution table [conv_id -> session_id -> weight]. *)
Definition attribution_table : Type := Dict.t (Dict.t Q).

(** ** Python helpers *)

(** Truthiness of a list: [not l]. *)
Definition py_not {A : Type} (l : list A) : bool :=
  match l with
  | [] => true
  | _ :: _ => false
  end.

(** [needle in hay] on strings. *)
Fixpoint str_contains (needle hay : string) : bool :=
  if prefix needle hay then true
  else match hay with
       | EmptyString => false
       | String _ rest => str_contains needle rest
       end.

(** [sum(values)]: starts from 0 and adds from the left. *)
Definition py_sum (l : list Q) : Q := fold_left Qplus l 0%Q.

(** [x / y] on floats. *)
Definition py_div (x y : Q) : result Q :=
  if Qeq_bool y 0 then Raise ZeroDivisionError else Ok (x / y)%Q.

(** ** [build_customer_journeys] *)

Definition session_dict (r : session_row) : session := {|
  session_id := row_session_id r;
  timestamp := strftime (row_timestamp r);
  channel := row_channel_name r;
  holder_engagement := row_holder_engagement r;
  closer_engagement := row_closer_engagement r;
  impression_interaction := row_impression_interaction r;
  cost := match row_cost r with Some c => c | None => 0%Q end
|}.

Definition conversion_dict (c : conversion_row) : conversion := {|
  conv_id := crow_conv_id c;
  conv_timestamp := strftime (crow_timestamp c);
  revenue := crow_revenue c
|}.

(** [sessions_df[sessions_df['user_id'] == user_id]] *)
Definition user_sessions_of (sessions_df : list session_row) (user_id : string)
  : list session_row :=
  filter (fun r => String.eqb (row_user_id r) user_id) sessions_df.

Definition user_conversions_of (conversions_df : list conversion_row)
  (user_id : string) : list conversion_row :=
  filter (fun c => String.eqb (crow_user_id c) user_id) conversions_df.

(** [len(user_sessions[user_sessions['timestamp'] < conv_time]) > 0] *)
Definition has_session_before (user_sessions : list session_row)
  (conv_time : Timestamp) : bool :=
  Nat.ltb 0
    (List.length
       (filter (fun r => Z.ltb (row_timestamp r) conv_time) user_sessions)).

(** The body of the loop over [all_users].  The key [str(user_id)] is the
    identifier itself. *)
Definition build_user (sessions_df : list session_row)
  (conversions_df : list conversion_row)
  (users_data : Dict.t user_data) (user_id : string) : Dict.t user_data :=
  let user_sessions := user_sessions_of sessions_df user_id in
  let user_conversions := user_conversions_of conversions_df user_id in
  if (Nat.eqb (List.length user_sessions) 0
      || Nat.eqb (List.length user_conversions) 0)%bool
  then users_data
  else
    let sessions_list := map session_dict user_sessions in
    let conversions_list :=
      map conversion_dict
        (filter (fun c => has_session_before user_sessions (crow_timestamp c))
           user_conversions) in
    if (negb (py_not sessions_list) && negb (py_not conversions_list))%bool
    then Dict.set users_data user_id
           {| sessions := Some sessions_list;
              conversions := Some conversions_list |}
    else users_data.

(** [all_users] is a Python set: the order in which the loop visits it is
    not fixed by the language, so the enumeration is an argument. *)
Definition build_customer_journeys (all_users : list string)
  (sessions_df : list session_row) (conversions_df : list conversion_row)
  : journey_payload :=
  {| users := Some (fold_left (build_user sessions_df conversions_df)
                      all_users Dict.empty) |}.

(** [all_users] enumerates
    [set(sessions_df['user_id'].unique()) & set(conversions_df['user_id'].unique())]. *)
Definition enumerates_all_users (all_users : list string)
  (sessions_df : list session_row) (conversions_df : list conversion_row)
  : Prop :=
  NoDup all_users /\
  forall u, In u all_users <->
            In u (map row_user_id sessions_df) /\
            In u (map crow_user_id conversions_df).

(** ** [call_ihc_api_test] *)

(** [eligible_sessions]: the sessions whose parsed timestamp is below the
    parsed timestamp of the conversion, in their original order. *)
Fixpoint eligible_sessions (sessions : list session) (conv_timestamp : datetime)
  : list session :=
  match sessions with
  | [] => []
  | s :: rest =>
      let session_timestamp := strptime (timestamp s) in
      if session_timestamp <? conv_timestamp
      then s :: eligible_sessions rest conv_timestamp
      else eligible_sessions rest conv_timestamp
  end.

Definition channel_weight (channel : string) : Q :=
  if str_contains "Email" channel then 1.2
  else if str_contains "Social" channel then 1.1
  else if str_contains "Search" channel then 1.3
  else if str_contains "Direct" channel then 0.8
  else 1.0.

Definition engagement_weight (s : session) : Q :=
  let w := 1.0%Q in
  let w := if holder_engagement s then (w + 0.5)%Q else w in
  let w := if closer_engagement s then (w + 0.7)%Q else w in
  w.

Definition recency_weight (i total_sessions : nat) : Q :=
  (inject_Z (Z.of_nat i + 1) / inject_Z (Z.of_nat total_sessions))%Q.

Definition raw_weight (i total_sessions : nat) (s : session) : Q :=
  (recency_weight i total_sessions * channel_weight (channel s)
   * engagement_weight s)%Q.

(** [for i, session in enumerate(eligible_sessions)]: [i] is the running
    index, [d] is [attribution_results[conv_id]]. *)
Fixpoint raw_loop (total_sessions i : nat) (eligible_sessions : list session)
  (d : Dict.t Q) : Dict.t Q :=
  match eligible_sessions with
  | [] => d
  | s :: rest =>
      raw_loop total_sessions (S i) rest
        (Dict.set d (session_id s) (raw_weight i total_sessions s))
  end.

(** [for session_id in d: d[session_id] /= total_weight] *)
Fixpoint normalize (total_weight : Q) (d : Dict.t Q) : result (Dict.t Q) :=
  match d with
  | [] => Ok []
  | (k, w) :: rest =>
      (w' <- py_div w total_weight ;;
       rest' <- normalize total_weight rest ;;
       Ok ((k, w') :: rest'))%result
  end.

(** [attribution_results[conv_id]] after the loop over the eligible
    sessions and before normalization. *)
Definition raw_scores (sessions : list session)
  (attribution_results : attribution_table) (c : conversion) : Dict.t Q :=
  let eligible_sessions :=
    eligible_sessions sessions (strptime (conv_timestamp c)) in
  let total_sessions := List.length eligible_sessions in
  raw_loop total_sessions 0 eligible_sessions
    (get_default (Dict.get attribution_results (conv_id c)) Dict.empty).

(** The body of [for conversion in conversions]. *)
Definition score_conversion (sessions : list session)
  (attribution_results : attribution_table) (c : conversion)
  : result attribution_table :=
  let conv_timestamp := strptime (conv_timestamp c) in
  let attribution_results :=
    Dict.ensure attribution_results (conv_id c) Dict.empty in
  let eligible_sessions := eligible_sessions sessions conv_timestamp in
  if py_not eligible_sessions then Ok attribution_results
  else
    let d := raw_scores sessions attribution_results c in
    let total_weight := py_sum (Dict.values d) in
    (d' <- normalize total_weight d ;;
     Ok (Dict.set attribution_results (conv_id c) d'))%result.

(** A loop whose body may raise: the first exception ends it. *)
Fixpoint for_each {S A : Type} (body : S -> A -> result S) (l : list A) (s : S)
  : result S :=
  match l with
  | [] => Ok s
  | a :: rest => (s' <- body s a ;; for_each body rest s')%result
  end.

(** The body of [for user_id, user_data in ....items()]. *)
Definition score_user (attribution_results : attribution_table)
  (item : string * user_data) : result attribution_table :=
  let sessions := get_default (sessions (snd item)) [] in
  let conversions := get_default (conversions (snd item)) [] in
  if (py_not sessions || py_not conversions)%bool then Ok attribution_results
  else for_each (score_conversion sessions) conversions attribution_results.

Definition call_ihc_api_test (payload : journey_payload)
  : result attribution_table :=
  for_each score_user (get_default (users payload) Dict.empty) Dict.empty.

(** ** [call_ihc_api_batched]: flattening and batching *)

(** A flattened journey record, the unit sent to the scoring service. *)
Record flattened_journey : Type := {
  fj_conversion_id : string;
  fj_session_id : string;
  fj_timestamp : datetime;
  fj_channel_label : string;
  fj_holder_engagement : Z;
  fj_closer_engagement : Z;
  fj_conversion : Z;
  fj_impression_interaction : Z
}.

Definition flag (b : bool) : Z := if b then 1 else 0.

(** The record built for a session that precedes the conversion. *)
Definition flattened_session (conv_id : string) (s : session)
  : flattened_journey := {|
  fj_conversion_id := conv_id;
  fj_session_id := session_id s;
  fj_timestamp := timestamp s;
  fj_channel_label := channel s;
  fj_holder_engagement := flag (holder_engagement s);
  fj_closer_engagement := flag (closer_engagement s);
  fj_conversion := 0;
  fj_impression_interaction := flag (impression_interaction s)
|}.

(** The synthetic record of the conversion itself. *)
Definition conversion_session (c : conversion) : flattened_journey := {|
  fj_conversion_id := conv_id c;
  fj_session_id := ("conversion_" ++ conv_id c)%string;
  fj_timestamp := conv_timestamp c;
  fj_channel_label := "Conversion";
  fj_holder_engagement := 0;
  fj_closer_engagement := 0;
  fj_conversion := 1;
  fj_impression_interaction := 0
|}.

(** [for session in sessions], appending to [flattened_journeys]. *)
Fixpoint flatten_sessions (conv_id : string) (conv_timestamp : datetime)
  (sessions : list session) (flattened_journeys : list flattened_journey)
  : list flattened_journey :=
  match sessions with
  | [] => flattened_journeys
  | s :: rest =>
      let session_timestamp := strptime (timestamp s) in
      if session_timestamp <? conv_timestamp
      then flatten_sessions conv_id conv_timestamp rest
             (flattened_journeys ++ [flattened_session conv_id s])
      else flatten_sessions conv_id conv_timestamp rest flattened_journeys
  end.

(** The body of [for conversion in conversions]. *)
Definition flatten_conversion (sessions : list session)
  (flattened_journeys : list flattened_journey) (c : conversion)
  : list flattened_journey :=
  let conv_timestamp := strptime (conv_timestamp c) in
  flatten_sessions (conv_id c) conv_timestamp sessions flattened_journeys
    ++ [conversion_session c].

(** The body of [for user_id, user_data in ....items()]. *)
Definition flatten_user (flattened_journeys : list flattened_journey)
  (item : string * user_data) : list flattened_journey :=
  let sessions := get_default (sessions (snd item)) [] in
  let conversions := get_default (conversions (snd item)) [] in
  if (py_not sessions || py_not conversions)%bool then flattened_journeys
  else fold_left (flatten_conversion sessions) conversions flattened_journeys.

Definition flatten_journeys (payload : journey_payload)
  : list flattened_journey :=
  fold_left flatten_user (get_default (users payload) Dict.empty) [].

(** Grouping by [conversion_id]. *)
Definition group_journey (journeys_by_conversion : Dict.t (list flattened_journey))
  (journey : flattened_journey) : Dict.t (list flattened_journey) :=
  let conv_id := fj_conversion_id journey in
  let journeys_by_conversion := Dict.ensure journeys_by_conversion conv_id [] in
  Dict.set journeys_by_conversion conv_id
    (get_default (Dict.get journeys_by_conversion conv_id) [] ++ [journey]).

Definition group_by_conversion (flattened_journeys : list flattened_journey)
  : Dict.t (list flattened_journey) :=
  fold_left group_journey flattened_journeys Dict.empty.

(** [range(start, stop, step)] as the list of its values. *)
Definition py_range (start stop step : Z) : result (list Z) :=
  if step =? 0 then Raise ValueError
  else
    let n := if 0 <? step then (stop - start + step - 1) / step
             else (start - stop - step - 1) / (- step) in
    Ok (map (fun k => start + Z.of_nat k * step) (seq 0 (Z.to_nat n))).

(** A slice bound, clamped as Python does. *)
Definition slice_bound (len i : Z) : Z :=
  if i <? 0 then Z.max 0 (i + len) else Z.min i len.

(** [l[i:j]] *)
Definition py_slice {A : Type} (l : list A) (i j : Z) : list A :=
  let len := Z.of_nat (List.length l) in
  let a := slice_bound len i in
  let b := slice_bound len j in
  firstn (Z.to_nat (b - a)) (skipn (Z.to_nat a) l).

(** [batch_journeys]: the records of the conversions of one batch.
    Every identifier of a batch is a key of [journeys_by_conversion], so
    the lookup finds it; an absent key contributes nothing. *)
Definition batch_journeys_of
  (journeys_by_conversion : Dict.t (list flattened_journey))
  (batch_conversion_ids : list string) : list flattened_journey :=
  flat_map (fun conv_id =>
              get_default (Dict.get journeys_by_conversion conv_id) [])
    batch_conversion_ids.

(** The identifiers of the batch that starts at index [i]. *)
Definition batch_conversion_ids_at (conversion_ids : list string)
  (batch_size i : Z) : list string :=
  py_slice conversion_ids i (i + batch_size).

(** The batches of a run, in processing order: for each [i] of
    [range(0, total_conversions, batch_size)] the identifiers
    [conversion_ids[i:i + batch_size]]. *)
Definition batches (payload : journey_payload) (max_journeys : Z)
  : result (list (list string)) :=
  let conversion_ids := Dict.keys (group_by_conversion (flatten_journeys payload)) in
  let total_conversions := Z.of_nat (List.length conversion_ids) in
  let batch_size := max_journeys in
  (starts <- py_range 0 total_conversions batch_size ;;
   Ok (map (batch_conversion_ids_at conversion_ids batch_size) starts))%result.

(** ** The scoring service and the trace of a run *)

(** One role of the redistribution policy. *)
Record redistribution_role : Type := {
  direction : string;
  receive_threshold : Z;
  redistribution_channel_labels : list string
}.

Record redistribution : Type := {
  initializer : redistribution_role;
  holder : redistribution_role;
  closer : redistribution_role
}.

Definition redistribution_parameter : redistribution := {|
  initializer := {| direction := "earlier_sessions_only"; receive_threshold := 0;
                    redistribution_channel_labels := [] |};
  holder := {| direction := "any_session"; receive_threshold := 0;
               redistribution_channel_labels := [] |};
  closer := {| direction := "later_sessions_only"; receive_threshold := 0;
               redistribution_channel_labels := [] |}
|}.

Record batch_payload : Type := {
  customer_journeys : list flattened_journey;
  redistribution_parameter_of : redistribution
}.

(** The arguments of [requests.post]. *)
Record api_request : Type := {
  api_url : string;
  data : batch_payload;
  x_api_key : string;
  timeout : Z
}.

(** The JSON body of a response.  An absent key is [None]. *)
Record session_entry : Type := {
  se_session_id : option string;
  se_ihc : option Q
}.

Record conversion_entry : Type := {
  ce_conversion_id : option string;
  ce_sessions : option (list session_entry)
}.

Record api_results : Type := {
  statusCode : option Z;
  partialFailureErrors : option (list string);
  value : option (list conversion_entry)
}.

(** What came back over HTTP: a status line and a body, which is [None]
    when it does not parse as JSON. *)
Record response : Type := {
  status_code : Z;
  json : option api_results
}.

(** A transport-level failure: [requests.post] itself raises. *)
Inductive transport_failure : Type :=
| NoConnection
| TimedOut.

Inductive post_outcome : Type :=
| PostFails (f : transport_failure)
| PostReturns (r : response).

(** The service: what the [k]-th request of a run (counting from 0)
    meets. *)
Definition service : Type := nat -> api_request -> post_outcome.

Inductive log_message : Type :=
| ApiError (results : api_results)              (* "API error: ..." *)
| PartialFailures (errors : list string)        (* "Partial failures: ..." *)
| UnexpectedFormat (results : api_results)      (* "Unexpected API response format" *)
| BatchCallError (e : request_error)            (* "Error in API batch call: ..." *)
| PipelineError (e : exn).                      (* "Error in attribution pipeline" *)

(** The observable steps of a run.  Of the log only errors and warnings
    are recorded. *)
Inductive event : Type :=
| Posted (k : nat) (request : api_request)
| LogError (m : log_message)
| LogWarning (m : log_message)
| SavedAttribution (rows : list (string * string * Q))
| GeneratedReport
| ExportedReport.

(** A computation that appends to the trace and may raise. *)
Definition M (A : Type) : Type := list event -> result A * list event.

Definition ret {A : Type} (a : A) : M A := fun tr => (Ok a, tr).

Definition raise {A : Type} (e : exn) : M A := fun tr => (Raise e, tr).

Definition mbind {A B : Type} (m : M A) (f : A -> M B) : M B :=
  fun tr =>
    match m tr with
    | (Ok a, tr') => f a tr'
    | (Raise e, tr') => (Raise e, tr')
    end.

Definition emit (e : event) : M unit := fun tr => (Ok tt, tr ++ [e]).

Definition lift {A : Type} (r : result A) : M A := fun tr => (r, tr).

(** [try: m except ...: handler] *)
Definition try_except {A : Type} (m : M A) (handler : exn -> M A) : M A :=
  fun tr =>
    match m tr with
    | (Ok a, tr') => (Ok a, tr')
    | (Raise e, tr') => handler e tr'
    end.

Declare Scope M_scope.
Delimit Scope M_scope with M.
Notation "x <- m ;; k" := (mbind m (fun x => k))
  (at level 61, m at next level, right associativity) : M_scope.
Notation "m ;;; k" := (mbind m (fun _ => k))
  (at level 61, right associativity) : M_scope.

(** ** [call_ihc_api_batched]: dispatch and reconciliation *)

(** The exception [requests.post] raises for a transport failure. *)
Definition transport_error (f : transport_failure) : request_error :=
  match f with
  | NoConnection => ConnectionError
  | TimedOut => Timeout
  end.

Definition do_post (post : service) (k : nat) (request : api_request)
  : M response :=
  (emit (Posted k request) ;;;
   match post k request with
   | PostFails f => raise (RequestException (transport_error f))
   | PostReturns r => ret r
   end)%M.

(** [response.raise_for_status()]: statuses 400 to 599 raise. *)
Definition raise_for_status (r : response) : M unit :=
  if ((400 <=? status_code r) && (status_code r <? 600))%bool
  then raise (RequestException (HTTPError (status_code r)))
  else ret tt.

(** [response.json()] *)
Definition response_json (r : response) : M api_results :=
  match json r with
  | Some results => ret results
  | None => raise (RequestException JSONDecodeError)
  end.

(** ['statusCode' in results and results['statusCode'] != 200] *)
Definition status_error (results : api_results) : bool :=
  match statusCode results with
  | Some code => negb (code =? 200)
  | None => false
  end.

(** Truthiness of an optional string: [None] and [""] are false. *)
Definition truthy (o : option string) : bool :=
  match o with
  | Some s => negb (String.eqb s "")
  | None => false
  end.

(** The body of [for session_data in conv_data.get('sessions', [])]. *)
Definition reconcile_session (conv_id : string)
  (combined_results : attribution_table) (session_data : session_entry)
  : attribution_table :=
  let ihc_value := get_default (se_ihc session_data) 0%Q in
  match se_session_id session_data with
  | Some session_id =>
      if (truthy (Some session_id) && negb (prefix "conversion_" session_id))%bool
      then Dict.set combined_results conv_id
             (Dict.set (get_default (Dict.get combined_results conv_id) Dict.empty)
                session_id ihc_value)
      else combined_results
  | None => combined_results
  end.

(** The body of [for conv_data in attribution_values]. *)
Definition reconcile_conversion (combined_results : attribution_table)
  (conv_data : conversion_entry) : attribution_table :=
  match ce_conversion_id conv_data with
  | Some conv_id =>
      if negb (truthy (Some conv_id)) then combined_results
      else
        let combined_results :=
          Dict.ensure combined_results conv_id Dict.empty in
        fold_left (reconcile_session conv_id)
          (get_default (ce_sessions conv_data) []) combined_results
  | None => combined_results
  end.

Definition reconcile (combined_results : attribution_table)
  (attribution_values : list conversion_entry) : attribution_table :=
  fold_left reconcile_conversion attribution_values combined_results.

Definition batch_request (api_token : string)
  (batch_journeys : list flattened_journey) : api_request := {|
  api_url := "https://api.ihc-attribution.com/v1/compute_ihc?conv_type_id=default";
  data := {| customer_journeys := batch_journeys;
             redistribution_parameter_of := redistribution_parameter |};
  x_api_key := api_token;
  timeout := 60
|}.

(** The [try] block of one batch.  A skipped batch ([continue]) returns
    [combined_results] as it was. *)
Definition try_batch (post : service) (api_token : string) (k : nat)
  (batch_journeys : list flattened_journey)
  (combined_results : attribution_table) : M attribution_table :=
  (response <- do_post post k (batch_request api_token batch_journeys) ;;
   raise_for_status response ;;;
   results <- response_json response ;;
   if status_error results then
     emit (LogError (ApiError results)) ;;;
     match partialFailureErrors results with
     | Some errors => emit (LogError (PartialFailures errors))
     | None => ret tt
     end ;;;
     ret combined_results
   else
     match value results with
     | Some attribution_values => ret (reconcile combined_results attribution_values)
     | None => emit (LogWarning (UnexpectedFormat results)) ;;; ret combined_results
     end)%M.

(** [except requests.exceptions.RequestException as e: ...; raise] *)
Definition batch_handler (e : exn) : M attribution_table :=
  match e with
  | RequestException r => (emit (LogError (BatchCallError r)) ;;; raise e)%M
  | _ => raise e
  end.

(** One iteration of the loop over batches. *)
Definition process_batch (post : service) (api_token : string)
  (journeys_by_conversion : Dict.t (list flattened_journey)) (k : nat)
  (batch_conversion_ids : list string) (combined_results : attribution_table)
  : M attribution_table :=
  let batch_journeys :=
    batch_journeys_of journeys_by_conversion batch_conversion_ids in
  try_except (try_batch post api_token k batch_journeys combined_results)
    batch_handler.

(** The loop over batches; [k] counts the batches already sent. *)
Fixpoint batch_loop (post : service) (api_token : string)
  (journeys_by_conversion : Dict.t (list flattened_journey)) (k : nat)
  (bs : list (list string)) (combined_results : attribution_table)
  : M attribution_table :=
  match bs with
  | [] => ret combined_results
  | b :: rest =>
      (combined_results' <-
         process_batch post api_token journeys_by_conversion k b combined_results ;;
       batch_loop post api_token journeys_by_conversion (S k) rest
         combined_results')%M
  end.

Definition call_ihc_api_batched (post : service) (payload : journey_payload)
  (api_token : string) (max_journeys : Z) : M attribution_table :=
  let journeys_by_conversion := group_by_conversion (flatten_journeys payload) in
  (bs <- lift (batches payload max_journeys) ;;
   batch_loop post api_token journeys_by_conversion 0 bs Dict.empty)%M.

(** ** [save_attribution_results] and [run_pipeline] *)

(** The rows written to [attribution_customer_journey]. *)
Definition attribution_rows (attribution_results : attribution_table)
  : list (string * string * Q) :=
  flat_map (fun item =>
              map (fun entry => (fst item, fst entry, snd entry)) (snd item))
    attribution_results.

(** What a run meets outside the core: the storage and the service. *)
Record environment : Type := {
  env_sessions : result (list session_row);        (* [get_sessions_data] *)
  env_conversions : result (list conversion_row);  (* [get_conversions_data] *)
  env_all_users : list string;                     (* iteration order of the set *)
  env_post : service;
  env_commit : list (string * string * Q) -> result unit;
                                                   (* delete, insert, commit *)
  env_generate : result unit;                      (* [generate_channel_reporting] *)
  env_export : result string                       (* [export_channel_reporting] *)
}.

Definition save_attribution_results (env : environment)
  (attribution_results : attribution_table) : M nat :=
  let rows := attribution_rows attribution_results in
  (lift (env_commit env rows) ;;;
   emit (SavedAttribution rows) ;;;
   ret (List.length rows))%M.

(** Steps 2 to 7 of the pipeline.  Step 1, [create_database_tables],
    handles its own exceptions and its return value is not looked at, so
    it cannot end the run; it is left out. *)
Definition run_pipeline (env : environment) (api_token : string)
  (test_mode : bool) : M bool :=
  try_except
    (sessions_df <- lift (env_sessions env) ;;
     conversions_df <- lift (env_conversions env) ;;
     let journey_payload :=
       build_customer_journeys (env_all_users env) sessions_df conversions_df in
     attribution_results <-
       (if test_mode then lift (call_ihc_api_test journey_payload)
        else call_ihc_api_batched (env_post env) journey_payload api_token 100) ;;
     save_attribution_results env attribution_results ;;;
     lift (env_generate env) ;;;
     emit GeneratedReport ;;;
     lift (env_export env) ;;;
     emit ExportedReport ;;;
     ret true)%M
    (fun e => (emit (LogError (PipelineError e)) ;;; ret false)%M).

(** The contents of [attribution_customer_journey] after a run that
    started from [before]: each save replaces the whole table. *)
Definition persisted (before : list (string * string * Q)) (tr : list event)
  : list (string * string * Q) :=
  fold_left (fun rows e => match e with
                           | SavedAttribution rows' => rows'
                           | _ => rows
                           end) tr before.

(** The requests sent during a run. *)
Definition posts (tr : list event) : list (nat * api_request) :=
  flat_map (fun e => match e with
                     | Posted k request => [(k, request)]
                     | _ => []
                     end) tr.

(** * Vocabulary of the statements *)

(** [needle] occurs in [hay]. *)
Definition substring_of (needle hay : string) : Prop :=
  exists pre post, hay = (pre ++ needle ++ post)%string.

(** Every stored weight is positive. *)
Definition all_pos (d : Dict.t Q) : Prop := Forall (fun e => (0 < snd e)%Q) d.

(** The dictionary with every weight divided by [total]. *)
Definition scaled (total : Q) (d : Dict.t Q) : Dict.t Q :=
  map (fun e => (fst e, (snd e / total)%Q)) d.

(** An entry of the table is empty, or holds positive weights that sum
    to one. *)
Definition inner_ok (d : Dict.t Q) : Prop :=
  all_pos d /\ (d = [] \/ (py_sum (Dict.values d) == 1)%Q).

Definition table_ok (t : attribution_table) : Prop :=
  Forall (fun e => inner_ok (snd e)) t.

(** The eligibility contract: a session may be credited toward a
    conversion when its timestamp is strictly below the conversion's. *)
Definition spec_eligible (session_ts conversion_ts : datetime) : bool :=
  session_ts <? conversion_ts.

(** Some user of the payload has a conversion [cid] and a session [sid]
    that strictly precedes it. *)
Definition creditable (payload : journey_payload) (cid sid : string) : Prop :=
  exists item c s,
    In item (get_default (users payload) Dict.empty) /\
    In c (get_default (conversions (snd item)) []) /\
    In s (get_default (sessions (snd item)) []) /\
    conv_id c = cid /\ session_id s = sid /\
    spec_eligible (timestamp s) (conv_timestamp c) = true.

(** The table holds a weight for session [sid] under conversion [cid]. *)
Definition credited (table : attribution_table) (cid sid : string) : Prop :=
  exists d, Dict.get table cid = Some d /\ In sid (Dict.keys d).

(** The flattened records hold a session record (not the synthetic
    conversion record) for [sid] under [cid]. *)
Definition flattened_for (fl : list flattened_journey) (cid sid : string)
  : Prop :=
  exists r, In r fl /\ fj_conversion_id r = cid /\ fj_session_id r = sid /\
            fj_conversion r = 0.

(** The sessions a conversion newly credits. *)
Definition conversion_credits (sessions : list session) (c : conversion)
  (x : string * string) : Prop :=
  fst x = conv_id c /\
  exists s, In s sessions /\ session_id s = snd x /\
            spec_eligible (timestamp s) (conv_timestamp c) = true.

Definition user_credits (item : string * user_data) (x : string * string)
  : Prop :=
  exists c, In c (get_default (conversions (snd item)) []) /\
            conversion_credits (get_default (sessions (snd item)) []) c x.

(** The records one conversion contributes. *)
Definition conversion_records (sessions : list session) (c : conversion)
  : list flattened_journey :=
  map (flattened_session (conv_id c))
    (eligible_sessions sessions (strptime (conv_timestamp c)))
  ++ [conversion_session c].

(** The records one user contributes. *)
Definition user_records (item : string * user_data) : list flattened_journey :=
  let sessions := get_default (sessions (snd item)) [] in
  let conversions := get_default (conversions (snd item)) [] in
  if (py_not sessions || py_not conversions)%bool then []
  else flat_map (conversion_records sessions) conversions.

Definition user_keys (item : string * user_data) (x : string) : Prop :=
  get_default (sessions (snd item)) [] <> [] /\
  exists c, In c (get_default (conversions (snd item)) []) /\ x = conv_id c.

(** The conversions of a user that the builder retains. *)
Definition retained_conversions (sessions_df : list session_row)
  (conversions_df : list conversion_row) (user_id : string)
  : list conversion_row :=
  filter (fun c => has_session_before (user_sessions_of sessions_df user_id)
                     (crow_timestamp c))
    (user_conversions_of conversions_df user_id).

(** The journey the builder stores for a user, if it stores one. *)
Definition journey_of (sessions_df : list session_row)
  (conversions_df : list conversion_row) (user_id : string)
  : option user_data :=
  match user_sessions_of sessions_df user_id,
        retained_conversions sessions_df conversions_df user_id with
  | _ :: _, _ :: _ =>
      Some {| sessions :=
                Some (map session_dict (user_sessions_of sessions_df user_id));
              conversions :=
                Some (map conversion_dict
                        (retained_conversions sessions_df conversions_df
                           user_id)) |}
  | _, _ => None
  end.

(** The distinct elements of a list, in the order of their first
    occurrence. *)
Fixpoint first_occurrences (l : list string) : list string :=
  match l with
  | [] => []
  | x :: rest =>
      x :: filter (fun y => negb (String.eqb y x)) (first_occurrences rest)
  end.

Definition not_in (ks : list string) (y : string) : bool :=
  negb (existsb (String.eqb y) ks).

(** The records of one conversion, in their order. *)
Definition records_of (fl : list flattened_journey) (cid : string)
  : list flattened_journey :=
  filter (fun r => String.eqb (fj_conversion_id r) cid) fl.

(** The [k]-th run of [b] consecutive elements of [l]. *)
Definition chunk {A : Type} (b : nat) (l : list A) (k : nat) : list A :=
  firstn b (skipn (k * b) l).

(** The number of batches for [n] conversions: [n / max] rounded up. *)
Definition batch_count (n : nat) (max : Z) : nat :=
  Z.to_nat ((Z.of_nat n + max - 1) / max).

(** How the orchestrator treats what the service returns for a batch. *)
Inductive batch_verdict : Type :=
| Fatal (e : request_error)           (* logged and raised again *)
| Skipped (results : api_results)     (* statusCode other than 200 *)
| Unexpected (results : api_results)  (* neither an error nor a 'value' *)
| Scored (attribution_values : list conversion_entry).

Definition verdict (o : post_outcome) : batch_verdict :=
  match o with
  | PostFails f => Fatal (transport_error f)
  | PostReturns r =>
      if ((400 <=? status_code r) && (status_code r <? 600))%bool
      then Fatal (HTTPError (status_code r))
      else match json r with
           | None => Fatal JSONDecodeError
           | Some results =>
               if status_error results then Skipped results
               else match value results with
                    | Some attribution_values => Scored attribution_values
                    | None => Unexpected results
                    end
           end
  end.

(** The events of one batch, after the request itself. *)
Definition verdict_events (v : batch_verdict) : list event :=
  match v with
  | Fatal e => [LogError (BatchCallError e)]
  | Skipped results =>
      LogError (ApiError results) ::
      match partialFailureErrors results with
      | Some errors => [LogError (PartialFailures errors)]
      | None => []
      end
  | Unexpected results => [LogWarning (UnexpectedFormat results)]
  | Scored _ => []
  end.

(** The result of one batch. *)
Definition verdict_result (v : batch_verdict)
  (combined_results : attribution_table) : result attribution_table :=
  match v with
  | Fatal e => Raise (RequestException e)
  | Skipped _ | Unexpected _ => Ok combined_results
  | Scored attribution_values =>
      Ok (reconcile combined_results attribution_values)
  end.

(** The request sent for a batch. *)
Definition request_of (api_token : string)
  (journeys_by_conversion : Dict.t (list flattened_journey))
  (b : list string) : api_request :=
  batch_request api_token (batch_journeys_of journeys_by_conversion b).

Definition is_save (e : event) : bool :=
  match e with
  | SavedAttribution _ => true
  | _ => false
  end.

(** No event of the list writes the attribution table. *)
Definition no_save (evs : list event) : Prop :=
  forallb (fun e => negb (is_save e)) evs = true.

(** No batch among the first [j] of [bs], numbered from [k], is fatal. *)
Definition none_fatal_before (post : service) (api_token : string)
  (jbc : Dict.t (list flattened_journey)) (k j : nat)
  (bs : list (list string)) : Prop :=
  forall j' b', (j' < j)%nat -> nth_error bs j' = Some b' ->
                forall e', verdict (post (k + j')%nat
                                      (request_of api_token jbc b'))
                           <> Fatal e'.

(** The requests of the batches [bs], numbered from [k]. *)
Fixpoint requests_from (api_token : string)
  (jbc : Dict.t (list flattened_journey)) (k : nat) (bs : list (list string))
  : list (nat * api_request) :=
  match bs with
  | [] => []
  | b :: rest =>
      (k, request_of api_token jbc b) :: requests_from api_token jbc (S k) rest
  end.

(** * Sample data *)

Definition sample_session (sid : string) (ts : datetime) (ch : string)
  (h c : bool) : session := {|
  session_id := sid; timestamp := ts; channel := ch;
  holder_engagement := h; closer_engagement := c;
  impression_interaction := false; cost := 0%Q
|}.

Definition sample_conversion (cid : string) (ts : datetime) : conversion :=
  {| conv_id := cid; conv_timestamp := ts; revenue := 100%Q |}.

(** Sessions at 09:00, 10:00 and 11:00, given in seconds of the day. *)
Definition sample_s1 : session :=
  sample_session "s1" 32400 "Paid Search" false false.
Definition sample_s2 : session := sample_session "s2" 36000 "Email" true false.
Definition sample_s3 : session := sample_session "s3" 39600 "Direct" false true.
Definition sample_sessions : list session := [sample_s1; sample_s2; sample_s3].

Definition sample_c1 : conversion := sample_conversion "c1" 43200.

(** One user, three sessions, one conversion at 12:00. *)
Definition sample_payload : journey_payload :=
  {| users := Some [("u1", {| sessions := Some sample_sessions;
                              conversions := Some [sample_c1] |})] |}.


(** Sample rows: user u1 has two sessions and two conversions, one of
    them before any session; u2 has a session at the instant of its
    conversion; u3 has only a session; u4 has only a conversion.
    Timestamps are nanoseconds of the day. *)
Definition sample_row (sid uid : string) (ts : Timestamp) : session_row := {|
  row_session_id := sid; row_user_id := uid; row_timestamp := ts;
  row_channel_name := "Email"; row_holder_engagement := false;
  row_closer_engagement := false; row_impression_interaction := false;
  row_cost := None
|}.

Definition sample_crow (cid uid : string) (ts : Timestamp) : conversion_row :=
  {| crow_conv_id := cid; crow_user_id := uid; crow_timestamp := ts;
     crow_revenue := 50%Q |}.

Definition sample_sessions_df : list session_row :=
  [ sample_row "s1" "u1" 32400000000000;
    sample_row "s3" "u2" 36000000000000;
    sample_row "s2" "u1" 46800000000000;
    sample_row "s4" "u3" 36000000000000 ].

Definition sample_conversions_df : list conversion_row :=
  [ sample_crow "c0" "u1" 28800000000000;
    sample_crow "c1" "u1" 43200000000000;
    sample_crow "c2" "u2" 36000000000000;
    sample_crow "c4" "u4" 43200000000000 ].

(** A payload with 250 conversions of one user, each after the user's
    only session. *)
Definition numbered_id (n : nat) : string :=
  String (ascii_of_nat (65 + n / 16))
    (String (ascii_of_nat (65 + n mod 16)) EmptyString).

Definition payload_250 : journey_payload :=
  {| users :=
       Some [("u1",
              {| sessions := Some [sample_s1];
                 conversions :=
                   Some (map (fun n => sample_conversion (numbered_id n) 43200)
                           (seq 0 250)) |})] |}.

(** One user with the three sample sessions and two conversions, so that
    batch size 1 gives two batches. *)
Definition sample_c2 : conversion := sample_conversion "c2" 36500.

Definition two_conversion_payload : journey_payload :=
  {| users := Some [("u1", {| sessions := Some sample_sessions;
                              conversions := Some [sample_c1; sample_c2] |})] |}.

Definition sample_value (cid sid : string) : list conversion_entry :=
  [ {| ce_conversion_id := Some cid;
       ce_sessions :=
         Some [ {| se_session_id := Some sid; se_ihc := Some 1%Q |};
                {| se_session_id := Some ("conversion_" ++ cid)%string;
                   se_ihc := Some 0%Q |} ] |} ].

Definition success_response (cid sid : string) : response :=
  {| status_code := 200;
     json := Some {| statusCode := None; partialFailureErrors := None;
                     value := Some (sample_value cid sid) |} |}.

(** Batch 0 meets HTTP status 500; batch 1 would succeed. *)
Definition http_500_first : service :=
  fun k _ =>
    match k with
    | O => PostReturns {| status_code := 500; json := None |}
    | _ => PostReturns (success_response "c2" "s1")
    end.

(** Batch 0 succeeds; batch 1 times out. *)
Definition timeout_second : service :=
  fun k _ =>
    match k with
    | O => PostReturns (success_response "c1" "s1")
    | _ => PostFails TimedOut
    end.

(** Batch 0 succeeds; batch 1 is answered with HTTP status 200 and a
    body whose statusCode is 400. *)
Definition status_error_body : api_results :=
  {| statusCode := Some 400;
     partialFailureErrors := Some ["conversion c2 failed"%string];
     value := Some (sample_value "c2" "s1") |}.

Definition status_error_second : service :=
  fun k _ =>
    match k with
    | O => PostReturns (success_response "c1" "s1")
    | _ => PostReturns {| status_code := 200; json := Some status_error_body |}
    end.

(** An environment over the sample rows whose service times out. *)
Definition timeout_environment : environment := {|
  env_sessions := Ok sample_sessions_df;
  env_conversions := Ok sample_conversions_df;
  env_all_users := ["u2"; "u1"]%string;
  env_post := fun _ _ => PostFails TimedOut;
  env_commit := fun _ => Ok tt;
  env_generate := Ok tt;
  env_export := Ok "channel_report.csv"%string
|}.

(** * Further code *)

(** ** [call_ihc_api] *)

(** A parsed JSON document. *)
#[warnings="-register-all"]
Inductive json_value : Type :=
| JNull
| JBool (b : bool)
| JNumber (q : Q)
| JString (s : string)
| JArray (items : list json_value)
| JObject (members : list (string * json_value)).

(** The arguments of the single [requests.post] of [call_ihc_api]; the
    token travels as [Authorization: Bearer ...]. *)
Record journey_request : Type := {
  jr_url : string;
  jr_data : journey_payload;
  jr_bearer : string
}.

Record journey_response : Type := {
  jr_status_code : Z;
  jr_json : option json_value
}.

Inductive journey_outcome : Type :=
| JourneyPostFails (f : transport_failure)
| JourneyPostReturns (r : journey_response).

(** What [call_ihc_api] can end with besides a value. *)
Inductive call_exn : Type :=
| CallTypeError                         (* [len] of a value without length *)
| CallRequestException (e : request_error).

Inductive call_result (A : Type) : Type :=
| Returned (a : A)
| Raised (e : call_exn).
Arguments Returned {A} a.
Arguments Raised {A} e.

(** The observable steps of [call_ihc_api]; of the log only errors. *)
Inductive call_event : Type :=
| CallPosted (request : journey_request)
| CallLogError (e : request_error).       (* "Error calling IHC API: ..." *)

(** [len(v)]: defined for strings, arrays and objects. *)
Definition py_len (v : json_value) : option nat :=
  match v with
  | JString s => Some (String.length s)
  | JArray items => Some (List.length items)
  | JObject members => Some (List.length members)
  | JNull | JBool _ | JNumber _ => None
  end.

(** A computation of [call_ihc_api]: it appends to the trace of the call
    and may raise. *)
Definition CallM (A : Type) : Type :=
  list call_event -> call_result A * list call_event.

Definition call_ret {A : Type} (a : A) : CallM A := fun tr => (Returned a, tr).

Definition call_raise {A : Type} (e : call_exn) : CallM A :=
  fun tr => (Raised e, tr).

Definition call_bind {A B : Type} (m : CallM A) (f : A -> CallM B) : CallM B :=
  fun tr =>
    match m tr with
    | (Returned a, tr') => f a tr'
    | (Raised e, tr') => (Raised e, tr')
    end.

Definition call_emit (e : call_event) : CallM unit :=
  fun tr => (Returned tt, tr ++ [e]).

(** [try: m except ...: handler] *)
Definition call_try {A : Type} (m : CallM A) (handler : call_exn -> CallM A)
  : CallM A :=
  fun tr =>
    match m tr with
    | (Returned a, tr') => (Returned a, tr')
    | (Raised e, tr') => handler e tr'
    end.

Declare Scope CallM_scope.
Delimit Scope CallM_scope with CallM.
Notation "x <- m ;; k" := (call_bind m (fun x => k))
  (at level 61, m at next level, right associativity) : CallM_scope.
Notation "m ;;; k" := (call_bind m (fun _ => k))
  (at level 61, right associativity) : CallM_scope.

(** [requests.post(api_url, headers=headers, data=payload_json)] *)
Definition journey_post (post : journey_request -> journey_outcome)
  (request : journey_request) : CallM journey_response :=
  (call_emit (CallPosted request) ;;;
   match post request with
   | JourneyPostFails f =>
       call_raise (CallRequestException (transport_error f))
   | JourneyPostReturns r => call_ret r
   end)%CallM.

(** [response.raise_for_status()]: statuses 400 to 599 raise. *)
Definition journey_raise_for_status (r : journey_response) : CallM unit :=
  if ((400 <=? jr_status_code r) && (jr_status_code r <? 600))%bool
  then call_raise (CallRequestException (HTTPError (jr_status_code r)))
  else call_ret tt.

(** [response.json()]; its error is a [RequestException], as in the
    current versions of the library. *)
Definition journey_json (r : journey_response) : CallM json_value :=
  match jr_json r with
  | Some v => call_ret v
  | None => call_raise (CallRequestException JSONDecodeError)
  end.

(** [len(attribution_results)], evaluated for the log line. *)
Definition call_len (v : json_value) : CallM nat :=
  match py_len v with
  | Some n => call_ret n
  | None => call_raise CallTypeError
  end.

(** [except requests.exceptions.RequestException as e: ...; raise]: the
    clause catches [RequestException] only, so the [TypeError] of [len]
    passes it unlogged. *)
Definition call_handler (e : call_exn) : CallM json_value :=
  match e with
  | CallRequestException r =>
      (call_emit (CallLogError r) ;;; call_raise e)%CallM
  | CallTypeError => call_raise e
  end.

Definition call_ihc_api (post : journey_request -> journey_outcome)
  (payload : journey_payload) (api_url api_token : string)
  : CallM json_value :=
  call_try
    (let request :=
       {| jr_url := api_url; jr_data := payload; jr_bearer := api_token |} in
     response <- journey_post post request ;;
     journey_raise_for_status response ;;;
     attribution_results <- journey_json response ;;
     call_len attribution_results ;;;
     call_ret attribution_results)%CallM
    call_handler.

(** ** [export_channel_reporting]: the derived columns *)

(** One row of [channel_reporting]. *)
Record report_row : Type := {
  rr_channel_name : string;
  rr_date : string;
  rr_cost : Q;
  rr_ihc : Q;
  rr_ihc_revenue : Q
}.

(** [x > 0] on floats. *)
Definition Qpositive (x : Q) : bool := negb (Qle_bool x 0).

(** [row['cost'] / row['ihc'] if row['ihc'] > 0 else 0] *)
Definition CPO (row : report_row) : result Q :=
  if Qpositive (rr_ihc row) then py_div (rr_cost row) (rr_ihc row)
  else Ok 0%Q.

(** [row['ihc_revenue'] / row['cost'] if row['cost'] > 0 else 0] *)
Definition ROAS (row : report_row) : result Q :=
  if Qpositive (rr_cost row) then py_div (rr_ihc_revenue row) (rr_cost row)
  else Ok 0%Q.

(** * Further vocabulary *)

(** The conversions that are scored, each with the sessions of its user:
    those of the users that have both a session and a conversion, in the
    order of the payload. *)
Definition scoring_pairs (payload : journey_payload)
  : list (list session * conversion) :=
  flat_map (fun item : string * user_data =>
              let sessions := get_default (sessions (snd item)) [] in
              let conversions := get_default (conversions (snd item)) [] in
              if (py_not sessions || py_not conversions)%bool then []
              else map (fun c => (sessions, c)) conversions)
    (get_default (users payload) Dict.empty).

(** The sessions of [l], numbered from [i], each with its raw weight. *)
Definition raw_entries (total_sessions i : nat) (l : list session)
  : Dict.t Q :=
  map (fun p => (session_id (snd p), raw_weight (fst p) total_sessions (snd p)))
    (combine (seq i (List.length l)) l).

(** The values of the batches that are scored, in batch order; [k] is the
    number of the first batch. *)
Fixpoint scored_values (post : service) (api_token : string)
  (jbc : Dict.t (list flattened_journey)) (k : nat) (bs : list (list string))
  : list conversion_entry :=
  match bs with
  | [] => []
  | b :: rest =>
      match verdict (post k (request_of api_token jbc b)) with
      | Scored attribution_values => attribution_values
      | _ => []
      end ++ scored_values post api_token jbc (S k) rest
  end.

(** No key of the table is empty, and no session key is empty or the
    name of a synthetic conversion record. *)
Definition no_pseudo_sessions (t : attribution_table) : Prop :=
  forall cid d, In (cid, d) t ->
    cid <> ""%string /\
    forall sid, In sid (Dict.keys d) ->
                sid <> ""%string /\ prefix "conversion_" sid = false.

(** Every timestamp of the rows is a whole number of seconds. *)
Definition whole_seconds (sessions_df : list session_row)
  (conversions_df : list conversion_row) : Prop :=
  (forall r, In r sessions_df -> row_timestamp r mod 1000000000 = 0) /\
  (forall c, In c conversions_df -> crow_timestamp c mod 1000000000 = 0).

(** The scoring step of the pipeline. *)
Definition scoring_step (env : environment) (api_token : string)
  (test_mode : bool) (payload : journey_payload) : M attribution_table :=
  if test_mode then lift (call_ihc_api_test payload)
  else call_ihc_api_batched (env_post env) payload api_token 100.

(** The weights of the rows of one conversion. *)
Definition row_weights (cid : string) (rows : list (string * string * Q))
  : list Q :=
  map snd (filter (fun row => String.eqb (fst (fst row)) cid) rows).

(** ** Sample environments *)

(** An environment over the sample rows whose service answers every
    batch with a statusCode error. *)
Definition skipping_environment : environment := {|
  env_sessions := Ok sample_sessions_df;
  env_conversions := Ok sample_conversions_df;
  env_all_users := ["u2"; "u1"]%string;
  env_post := fun _ _ =>
    PostReturns {| status_code := 200; json := Some status_error_body |};
  env_commit := fun _ => Ok tt;
  env_generate := Ok tt;
  env_export := Ok "channel_report.csv"%string
|}.

(** An environment over the sample rows whose report generation fails. *)
Definition failing_report_environment : environment := {|
  env_sessions := Ok sample_sessions_df;
  env_conversions := Ok sample_conversions_df;
  env_all_users := ["u2"; "u1"]%string;
  env_post := fun _ _ => PostFails NoConnection;
  env_commit := fun _ => Ok tt;
  env_generate := Raise DatabaseError;
  env_export := Ok "channel_report.csv"%string
|}.


(** * The heuristic engine in double precision *)

(** [call_ihc_api_test] once more, with the weights as binary64 floats,
    the numbers Python computes with: every operation rounds to the
    nearest float, and a quotient too small to be represented becomes
    [0.0].  Decimal constants denote the nearest float, as in Python.
    [sum] adds from the left; an interpreter that compensates the
    rounding error of [sum] gives a total that differs in its last bits
    at most. *)
Module Binary64.

Definition py_sum (l : list float) : float :=
  fold_left PrimFloat.add l 0%float.

(** [x / y]: a divisor equal to zero raises. *)
Definition py_div (x y : float) : result float :=
  if PrimFloat.eqb y 0%float then Raise ZeroDivisionError
  else Ok (PrimFloat.div x y).

#[warnings="-inexact-float"]
Definition channel_weight (channel : string) : float :=
  if str_contains "Email" channel then 1.2%float
  else if str_contains "Social" channel then 1.1%float
  else if str_contains "Search" channel then 1.3%float
  else if str_contains "Direct" channel then 0.8%float
  else 1.0%float.

#[warnings="-inexact-float"]
Definition engagement_weight (s : session) : float :=
  let w := 1.0%float in
  let w := if holder_engagement s then PrimFloat.add w 0.5%float else w in
  let w := if closer_engagement s then PrimFloat.add w 0.7%float else w in
  w.

(** The float of a count. *)
Definition of_nat (n : nat) : float :=
  PrimFloat.of_uint63 (Uint63.of_Z (Z.of_nat n)).

(** [(i + 1) / total_sessions], the true division of two integers. *)
Definition recency_weight (i total_sessions : nat) : float :=
  PrimFloat.div (of_nat (i + 1)) (of_nat total_sessions).

Definition raw_weight (i total_sessions : nat) (s : session) : float :=
  PrimFloat.mul
    (PrimFloat.mul (recency_weight i total_sessions)
       (channel_weight (channel s)))
    (engagement_weight s).

Fixpoint raw_loop (total_sessions i : nat) (eligible_sessions : list session)
  (d : Dict.t float) : Dict.t float :=
  match eligible_sessions with
  | [] => d
  | s :: rest =>
      raw_loop total_sessions (S i) rest
        (Dict.set d (session_id s) (raw_weight i total_sessions s))
  end.

Fixpoint normalize (total_weight : float) (d : Dict.t float)
  : result (Dict.t float) :=
  match d with
  | [] => Ok []
  | (k, w) :: rest =>
      (w' <- py_div w total_weight ;;
       rest' <- normalize total_weight rest ;;
       Ok ((k, w') :: rest'))%result
  end.

Definition score_conversion (sessions : list session)
  (attribution_results : Dict.t (Dict.t float)) (c : conversion)
  : result (Dict.t (Dict.t float)) :=
  let conv_timestamp := strptime (conv_timestamp c) in
  let attribution_results :=
    Dict.ensure attribution_results (conv_id c) Dict.empty in
  let eligible_sessions := eligible_sessions sessions conv_timestamp in
  if py_not eligible_sessions then Ok attribution_results
  else
    let total_sessions := List.length eligible_sessions in
    let d :=
      raw_loop total_sessions 0 eligible_sessions
        (get_default (Dict.get attribution_results (conv_id c)) Dict.empty) in
    let total_weight := py_sum (Dict.values d) in
    (d' <- normalize total_weight d ;;
     Ok (Dict.set attribution_results (conv_id c) d'))%result.

Definition score_user (attribution_results : Dict.t (Dict.t float))
  (item : string * user_data) : result (Dict.t (Dict.t float)) :=
  let sessions := get_default (sessions (snd item)) [] in
  let conversions := get_default (conversions (snd item)) [] in
  if (py_not sessions || py_not conversions)%bool then Ok attribution_results
  else for_each (score_conversion sessions) conversions attribution_results.

Definition call_ihc_api_test (payload : journey_payload)
  : result (Dict.t (Dict.t float)) :=
  for_each score_user (get_default (users payload) Dict.empty) Dict.empty.

End Binary64.

(** * Vocabulary: order, copies, signs, traces *)

(** The weight the engine returns for a session under a conversion. *)
Definition weight_of {W : Type} (r : result (Dict.t (Dict.t W)))
  (cid sid : string) : option W :=
  match r with
  | Ok table =>
      match Dict.get table cid with
      | Some d => Dict.get d sid
      | None => None
      end
  | Raise _ => None
  end.

(** Session [a] is strictly earlier than session [b]. *)
Definition earlier (a b : session) : Prop := timestamp a < timestamp b.

(** The number of sessions of [l] that are strictly earlier than [s]:
    the chronological rank of [s] among them. *)
Definition earlier_among (l : list session) (s : session) : nat :=
  List.length (filter (fun s' => timestamp s' <? timestamp s) l).

(** Every stored weight is non-negative. *)
Definition nonneg (d : Dict.t Q) : Prop := Forall (fun e => (0 <= snd e)%Q) d.

(** What a journey holds of a session row: every field as it is, except
    the timestamp, of which the whole seconds are kept, and a missing
    cost, which becomes 0. *)
Definition copies_session (r : session_row) (s : session) : Prop :=
  session_id s = row_session_id r /\
  timestamp s = row_timestamp r / 1000000000 /\
  channel s = row_channel_name r /\
  holder_engagement s = row_holder_engagement r /\
  closer_engagement s = row_closer_engagement r /\
  impression_interaction s = row_impression_interaction r /\
  cost s = match row_cost r with Some c => c | None => 0%Q end.

(** What a journey holds of a conversion row. *)
Definition copies_conversion (c : conversion_row) (cv : conversion) : Prop :=
  conv_id cv = crow_conv_id c /\
  conv_timestamp cv = crow_timestamp c / 1000000000 /\
  revenue cv = crow_revenue c.

(** What a run without a fatal batch appends to the trace: for each
    batch, in order, the request and then what is logged about the
    answer.  [k] is the number of the first batch. *)
Fixpoint batch_events (post : service) (api_token : string)
  (jbc : Dict.t (list flattened_journey)) (k : nat) (bs : list (list string))
  : list event :=
  match bs with
  | [] => []
  | b :: rest =>
      Posted k (request_of api_token jbc b)
      :: verdict_events (verdict (post k (request_of api_token jbc b)))
      ++ batch_events post api_token jbc (S k) rest
  end.

(** No string occurs twice in the list. *)
Fixpoint all_distinct (l : list string) : bool :=
  match l with
  | [] => true
  | x :: rest => negb (existsb (String.eqb x) rest) && all_distinct rest
  end.

(** ** Further sample data *)

(** A journey that lists the later of two sessions first. *)
Definition late_session : session :=
  sample_session "late" 39600 "Email" false false.
Definition early_session : session :=
  sample_session "early" 32400 "Email" false false.

Definition unsorted_payload : journey_payload :=
  {| users := Some [("u1", {| sessions := Some [late_session; early_session];
                              conversions := Some [sample_c1] |})] |}.

(** Rows of one user, a session and a conversion 800 milliseconds
    later. *)
Definition sub_second_sessions_df : list session_row :=
  [sample_row "s1" "u1" 43200100000000].
Definition sub_second_conversions_df : list conversion_row :=
  [sample_crow "c1" "u1" 43200900000000].

(** Batch 0 is answered with a scored body that names the conversion of
    batch 1; batch 1 is answered with a statusCode error. *)
Definition misnaming_service : service :=
  fun k _ =>
    match k with
    | O => PostReturns (success_response "c2" "s1")
    | _ => PostReturns {| status_code := 200; json := Some status_error_body |}
    end.

(** Batch 0 is answered with a statusCode error; batch 1 is scored. *)
Definition status_error_first : service :=
  fun k _ =>
    match k with
    | O => PostReturns {| status_code := 200; json := Some status_error_body |}
    | _ => PostReturns (success_response "c2" "s1")
    end.

(** [n] users, each with one session of its own at 09:00 and one
    conversion at 12:00; all the conversions carry the conv_id "c1". *)
Definition visitor_id (n : nat) : string :=
  String (ascii_of_nat (65 + n / 256)) (numbered_id (n mod 256)).

Definition visitor_session (n : nat) : session :=
  sample_session (visitor_id n) 32400 "Paid Search" true true.

Definition visitor (n : nat) : string * user_data :=
  (visitor_id n,
   {| sessions := Some [visitor_session n];
      conversions := Some [sample_c1] |}).

Definition shared_conv_id_payload (n : nat) : journey_payload :=
  {| users := Some (map visitor (seq 0 n)) |}.

(** * Properties *)

(** ** Dictionaries *)

Module DictFacts.
Section WithValue.
Context {V : Type}.
Implicit Types (d : Dict.t V) (k : string) (v : V).

Lemma get_set_same d k v : Dict.get (Dict.set d k v) k = Some v.
Proof.
  induction d as [|[k' v'] d IH]; simpl.
  - now rewrite String.eqb_refl.
  - destruct (String.eqb k' k) eqn:E; simpl; rewrite E; auto.
Qed.

Lemma get_set_other d k k' v :
  k <> k' -> Dict.get (Dict.set d k v) k' = Dict.get d k'.
Proof.
  intros Hne. induction d as [|[k0 v0] d IH]; simpl.
  - destruct (String.eqb_spec k k'); congruence.
  - destruct (String.eqb_spec k0 k) as [->|Hk]; simpl.
    + destruct (String.eqb_spec k k'); congruence.
    + now rewrite IH.
Qed.

Lemma get_set d k k' v :
  Dict.get (Dict.set d k v) k' =
  if String.eqb k k' then Some v else Dict.get d k'.
Proof.
  destruct (String.eqb_spec k k') as [->|Hne].
  - apply get_set_same.
  - now apply get_set_other.
Qed.

Lemma mem_true_iff d k : Dict.mem d k = true <-> In k (Dict.keys d).
Proof.
  unfold Dict.mem. induction d as [|[k' v'] d IH]; simpl.
  - split; [discriminate | tauto].
  - destruct (String.eqb_spec k' k) as [->|Hk].
    + split; auto.
    + rewrite IH. split; [tauto | intros [?|?]; congruence].
Qed.

Lemma get_none_iff d k : Dict.get d k = None <-> ~ In k (Dict.keys d).
Proof.
  rewrite <- mem_true_iff. unfold Dict.mem.
  destruct (Dict.get d k); split; congruence.
Qed.

Lemma get_some_in d k v : Dict.get d k = Some v -> In (k, v) d.
Proof.
  induction d as [|[k' v'] d IH]; simpl; [discriminate|].
  destruct (String.eqb_spec k' k) as [->|Hk].
  - intros [= ->]. now left.
  - intros H. right. auto.
Qed.

Lemma in_get_some d k v : Dict.wf d -> In (k, v) d -> Dict.get d k = Some v.
Proof.
  unfold Dict.wf.
  induction d as [|[k' v'] d IH]; simpl; [tauto|].
  intros Hnd [[= -> ->]|Hin].
  - now rewrite String.eqb_refl.
  - inversion Hnd as [|? ? Hnotin Hnd']; subst.
    destruct (String.eqb_spec k' k) as [->|Hk].
    + exfalso. apply Hnotin. change k with (fst (k, v)). now apply in_map.
    + auto.
Qed.

Lemma keys_set d k v :
  Dict.keys (Dict.set d k v) =
  if Dict.mem d k then Dict.keys d else Dict.keys d ++ [k].
Proof.
  unfold Dict.mem. induction d as [|[k' v'] d IH]; simpl; [reflexivity|].
  destruct (String.eqb_spec k' k) as [->|Hk]; simpl; [reflexivity|].
  rewrite IH. now destruct (Dict.get d k).
Qed.

Lemma wf_empty : Dict.wf (@Dict.empty V).
Proof. constructor. Qed.

Lemma wf_set d k v : Dict.wf d -> Dict.wf (Dict.set d k v).
Proof.
  unfold Dict.wf. intros Hwf. rewrite keys_set.
  destruct (Dict.mem d k) eqn:E; [assumption|].
  apply NoDup_app; [assumption | repeat constructor; simpl; tauto |].
  intros x Hx [<-|[]].
  apply mem_true_iff in Hx. congruence.
Qed.

(** Every property that holds for the old values and for the new one
    holds for all values after an assignment. *)
Lemma Forall_set (P : string * V -> Prop) d k v :
  Forall P d -> (forall k', P (k', v)) -> Forall P (Dict.set d k v).
Proof.
  intros Hd Hv. induction Hd as [|[k' v'] d Hx Hd IH]; simpl.
  - constructor; auto.
  - destruct (String.eqb k' k); constructor; auto.
Qed.
End WithValue.
End DictFacts.

(** ** Substring test *)

Lemma prefix_iff (s1 s2 : string) :
  prefix s1 s2 = true <-> exists post, s2 = (s1 ++ post)%string.
Proof.
  revert s2. induction s1 as [|a s1 IH]; intros s2; simpl.
  - destruct s2; split; eauto.
  - destruct s2 as [|b s2]; simpl.
    + split; [discriminate | intros [post H]; discriminate].
    + destruct (ascii_dec a b) as [->|Hab].
      * rewrite IH. split; intros [post H]; exists post; congruence.
      * split; [discriminate | intros [post [= ? ?]]; congruence].
Qed.

Lemma str_contains_unfold (needle hay : string) :
  str_contains needle hay =
  if prefix needle hay then true
  else match hay with
       | EmptyString => false
       | String _ rest => str_contains needle rest
       end.
Proof. destruct hay; reflexivity. Qed.

Lemma str_contains_iff (needle hay : string) :
  str_contains needle hay = true <-> substring_of needle hay.
Proof.
  unfold substring_of. induction hay as [|b hay IH];
    rewrite str_contains_unfold.
  - destruct (prefix needle "") eqn:E.
    + apply prefix_iff in E as [post E]. split; [|reflexivity].
      intros _. exists EmptyString, post. exact E.
    + split; [discriminate|]. intros [pre [post H]].
      destruct pre; simpl in H.
      * assert (prefix needle "" = true) by (apply prefix_iff; eauto).
        congruence.
      * discriminate.
  - destruct (prefix needle (String b hay)) eqn:E.
    + apply prefix_iff in E as [post E]. split; [|reflexivity].
      intros _. exists EmptyString, post. exact E.
    + rewrite IH. split.
      * intros [pre [post H]]. exists (String b pre), post. simpl. now f_equal.
      * intros [pre [post H]]. destruct pre as [|c pre]; simpl in H.
        -- assert (prefix needle (String b hay) = true)
             by (apply prefix_iff; eauto).
           congruence.
        -- injection H as _ H. eauto.
Qed.

(** ** Weights *)

Lemma channel_weight_bounds (ch : string) :
  (0.8 <= channel_weight ch /\ channel_weight ch <= 1.3)%Q.
Proof.
  unfold channel_weight.
  repeat match goal with |- context [if ?b then _ else _] => destruct b end;
    split; lra.
Qed.

Lemma engagement_weight_eq (s : session) :
  (engagement_weight s ==
   1 + (if holder_engagement s then 0.5 else 0)
     + (if closer_engagement s then 0.7 else 0))%Q.
Proof.
  unfold engagement_weight.
  destruct (holder_engagement s), (closer_engagement s); lra.
Qed.

Lemma engagement_weight_bounds (s : session) :
  (1 <= engagement_weight s /\ engagement_weight s <= 2.2)%Q.
Proof.
  rewrite engagement_weight_eq.
  destruct (holder_engagement s), (closer_engagement s); split; lra.
Qed.

Lemma inject_Z_of_nat_pos (n : nat) : (0 < n)%nat -> (0 < inject_Z (Z.of_nat n))%Q.
Proof.
  intros H. change 0%Q with (inject_Z 0). rewrite <- Zlt_Qlt. lia.
Qed.

Lemma recency_weight_bounds (i total_sessions : nat) :
  (0 < total_sessions)%nat ->
  (1 / inject_Z (Z.of_nat total_sessions) <= recency_weight i total_sessions)%Q.
Proof.
  intros HN. unfold recency_weight.
  pose proof (inject_Z_of_nat_pos _ HN) as Hpos.
  unfold Qdiv. apply Qmult_le_compat_r.
  - change 1%Q with (inject_Z 1). rewrite <- Zle_Qle. lia.
  - apply Qlt_le_weak, Qinv_lt_0_compat, Hpos.
Qed.

Lemma recency_weight_pos (i total_sessions : nat) :
  (0 < total_sessions)%nat -> (0 < recency_weight i total_sessions)%Q.
Proof.
  intros HN.
  eapply Qlt_le_trans; [| apply recency_weight_bounds, HN].
  unfold Qdiv. rewrite Qmult_1_l.
  apply Qinv_lt_0_compat, inject_Z_of_nat_pos, HN.
Qed.

Lemma raw_weight_pos (i total_sessions : nat) (s : session) :
  (0 < total_sessions)%nat -> (0 < raw_weight i total_sessions s)%Q.
Proof.
  intros HN. unfold raw_weight.
  pose proof (recency_weight_pos i _ HN).
  pose proof (channel_weight_bounds (channel s)) as [? _].
  pose proof (engagement_weight_bounds s) as [? _].
  apply Qmult_lt_0_compat; [apply Qmult_lt_0_compat|]; lra.
Qed.

(** ** Sums and normalization *)

Lemma fold_left_Qplus (l : list Q) (a : Q) :
  (fold_left Qplus l a == a + py_sum l)%Q.
Proof.
  unfold py_sum. revert a. induction l as [|x l IH]; intros a; simpl.
  - lra.
  - rewrite (IH (a + x)%Q), (IH (0 + x)%Q). lra.
Qed.

Lemma py_sum_cons (x : Q) (l : list Q) : (py_sum (x :: l) == x + py_sum l)%Q.
Proof.
  unfold py_sum at 1. simpl. rewrite fold_left_Qplus. lra.
Qed.

Lemma all_pos_sum_nonneg (d : Dict.t Q) :
  all_pos d -> (0 <= py_sum (Dict.values d))%Q.
Proof.
  induction 1 as [|[k w] d Hw Hd IH]; simpl.
  - unfold py_sum. simpl. lra.
  - rewrite py_sum_cons. simpl in Hw. lra.
Qed.

Lemma all_pos_sum_pos (d : Dict.t Q) :
  all_pos d -> d <> [] -> (0 < py_sum (Dict.values d))%Q.
Proof.
  intros Hd Hne. destruct Hd as [|[k w] d Hw Hd]; [congruence|].
  simpl. rewrite py_sum_cons. simpl in Hw.
  pose proof (all_pos_sum_nonneg d Hd). lra.
Qed.

Lemma all_pos_get (d : Dict.t Q) (k : string) (w : Q) :
  all_pos d -> Dict.get d k = Some w -> (0 < w)%Q.
Proof.
  intros Hd Hget. apply DictFacts.get_some_in in Hget.
  unfold all_pos in Hd. rewrite Forall_forall in Hd. exact (Hd _ Hget).
Qed.

Lemma set_nonempty {V : Type} (d : Dict.t V) (k : string) (v : V) :
  Dict.set d k v <> [].
Proof.
  destruct d as [|[k' v'] d]; simpl; [discriminate|].
  destruct (String.eqb k' k); discriminate.
Qed.

Lemma raw_loop_all_pos (total_sessions : nat) (l : list session) :
  (0 < total_sessions)%nat ->
  forall i d, all_pos d -> all_pos (raw_loop total_sessions i l d).
Proof.
  intros HN. induction l as [|s l IH]; intros i d Hd; simpl; [assumption|].
  apply IH. apply DictFacts.Forall_set; [assumption|].
  intros k'. simpl. now apply raw_weight_pos.
Qed.

Lemma raw_loop_nonempty (total_sessions : nat) (l : list session) :
  forall i d, l <> [] \/ d <> [] -> raw_loop total_sessions i l d <> [].
Proof.
  induction l as [|s l IH]; intros i d H; simpl.
  - destruct H; congruence.
  - apply IH. right. apply set_nonempty.
Qed.

Lemma normalize_nonzero (total : Q) (d : Dict.t Q) :
  ~ (total == 0)%Q -> normalize total d = Ok (scaled total d).
Proof.
  intros Hnz. induction d as [|[k w] d IH]; simpl; [reflexivity|].
  unfold py_div. destruct (Qeq_bool total 0) eqn:E.
  - apply Qeq_bool_iff in E. contradiction.
  - simpl. rewrite IH. reflexivity.
Qed.

Lemma scaled_sum (total : Q) (d : Dict.t Q) :
  (py_sum (Dict.values (scaled total d)) == py_sum (Dict.values d) / total)%Q.
Proof.
  induction d as [|[k w] d IH]; simpl.
  - unfold py_sum. simpl. unfold Qdiv. lra.
  - rewrite !py_sum_cons, IH. simpl. unfold Qdiv. lra.
Qed.

Lemma scaled_all_pos (total : Q) (d : Dict.t Q) :
  (0 < total)%Q -> all_pos d -> all_pos (scaled total d).
Proof.
  intros Ht Hd. unfold all_pos, scaled. rewrite Forall_map.
  eapply Forall_impl; [|exact Hd]. intros [k w] Hw. simpl in *.
  unfold Qdiv. apply Qmult_lt_0_compat; [assumption|].
  now apply Qinv_lt_0_compat.
Qed.

Lemma scaled_get (total : Q) (d : Dict.t Q) (k : string) :
  Dict.get (scaled total d) k =
  option_map (fun w => (w / total)%Q) (Dict.get d k).
Proof.
  induction d as [|[k' w] d IH]; simpl; [reflexivity|].
  destruct (String.eqb k' k); [reflexivity | exact IH].
Qed.

(** ** The invariant of the attribution table *)

Lemma inner_ok_empty : inner_ok [].
Proof. split; [constructor | now left]. Qed.

Lemma table_ok_get (t : attribution_table) (k : string) (d : Dict.t Q) :
  table_ok t -> Dict.get t k = Some d -> inner_ok d.
Proof.
  intros Ht Hget. apply DictFacts.get_some_in in Hget.
  unfold table_ok in Ht. rewrite Forall_forall in Ht. exact (Ht _ Hget).
Qed.

Lemma table_ok_ensure (t : attribution_table) (k : string) :
  table_ok t -> table_ok (Dict.ensure t k Dict.empty).
Proof.
  intros Ht. unfold Dict.ensure. destruct (Dict.mem t k); [assumption|].
  apply DictFacts.Forall_set; [assumption|]. intros ?. apply inner_ok_empty.
Qed.

Lemma get_ensure {V : Type} (t : Dict.t V) (k k' : string) (v : V) :
  Dict.get (Dict.ensure t k v) k' =
  match Dict.get t k' with
  | Some x => Some x
  | None => if String.eqb k k' then Some v else None
  end.
Proof.
  unfold Dict.ensure, Dict.mem.
  destruct (Dict.get t k) eqn:Ek.
  - destruct (Dict.get t k') eqn:Ek'; [reflexivity|].
    destruct (String.eqb_spec k k'); congruence.
  - rewrite DictFacts.get_set.
    destruct (String.eqb_spec k k') as [->|Hne].
    + now rewrite Ek.
    + now destruct (Dict.get t k').
Qed.

Lemma eligible_sessions_filter (sessions : list session) (ts : datetime) :
  eligible_sessions sessions ts =
  filter (fun s => strptime (timestamp s) <? ts) sessions.
Proof.
  induction sessions as [|s l IH]; simpl; [reflexivity|].
  rewrite IH. reflexivity.
Qed.

Lemma py_not_false_iff {A : Type} (l : list A) : py_not l = false <-> l <> [].
Proof. destruct l; simpl; split; congruence. Qed.

Lemma get_default_all_pos (t : attribution_table) (k : string) :
  (forall d, Dict.get t k = Some d -> all_pos d) ->
  all_pos (get_default (Dict.get t k) Dict.empty).
Proof.
  intros H. destruct (Dict.get t k) as [d|]; simpl.
  - now apply H.
  - constructor.
Qed.

Lemma raw_scores_all_pos (sessions : list session) (t : attribution_table)
  (c : conversion) :
  (forall d, Dict.get t (conv_id c) = Some d -> all_pos d) ->
  all_pos (raw_scores sessions t c).
Proof.
  intros Hd. apply get_default_all_pos in Hd. unfold raw_scores.
  destruct (eligible_sessions sessions (strptime (conv_timestamp c)))
    as [|s l] eqn:E.
  - exact Hd.
  - apply raw_loop_all_pos; [simpl; lia | exact Hd].
Qed.

Lemma raw_scores_total_pos (sessions : list session) (t : attribution_table)
  (c : conversion) :
  eligible_sessions sessions (strptime (conv_timestamp c)) <> [] ->
  (forall d, Dict.get t (conv_id c) = Some d -> all_pos d) ->
  (0 < py_sum (Dict.values (raw_scores sessions t c)))%Q.
Proof.
  intros Hne Hd. apply all_pos_sum_pos.
  - now apply raw_scores_all_pos.
  - unfold raw_scores. apply raw_loop_nonempty. now left.
Qed.

Lemma score_conversion_ok (sessions : list session) (t : attribution_table)
  (c : conversion) :
  table_ok t ->
  exists t', score_conversion sessions t c = Ok t' /\ table_ok t'.
Proof.
  intros Ht. unfold score_conversion.
  pose proof (table_ok_ensure t (conv_id c) Ht) as Ht1.
  set (t1 := Dict.ensure t (conv_id c) Dict.empty) in *.
  destruct (py_not (eligible_sessions sessions (strptime (conv_timestamp c))))
    eqn:E.
  - eauto.
  - apply py_not_false_iff in E.
    assert (Hpos : forall d, Dict.get t1 (conv_id c) = Some d -> all_pos d).
    { intros d Hget. exact (proj1 (table_ok_get _ _ _ Ht1 Hget)). }
    pose proof (raw_scores_total_pos sessions t1 c E Hpos) as Htot.
    pose proof (raw_scores_all_pos sessions t1 c Hpos) as Hall.
    set (d := raw_scores sessions t1 c) in *.
    rewrite normalize_nonzero by lra. simpl.
    eexists. split; [reflexivity|].
    apply DictFacts.Forall_set; [assumption|]. intros ?. simpl. split.
    + now apply scaled_all_pos.
    + right. rewrite scaled_sum. field. lra.
Qed.

Lemma for_each_invariant {S A : Type} (P : S -> Prop)
  (body : S -> A -> result S) :
  (forall s a, P s -> exists s', body s a = Ok s' /\ P s') ->
  forall l s, P s -> exists s', for_each body l s = Ok s' /\ P s'.
Proof.
  intros Hbody. induction l as [|a l IH]; intros s Hs; simpl.
  - eauto.
  - destruct (Hbody s a Hs) as [s' [Hb Hs']]. rewrite Hb. simpl. auto.
Qed.

Lemma score_user_ok (t : attribution_table) (item : string * user_data) :
  table_ok t -> exists t', score_user t item = Ok t' /\ table_ok t'.
Proof.
  intros Ht. unfold score_user.
  destruct (py_not _ || py_not _)%bool; [eauto|].
  apply for_each_invariant; [|assumption].
  intros s a Hs. now apply score_conversion_ok.
Qed.

Lemma call_ihc_api_test_ok (payload : journey_payload) :
  exists table, call_ihc_api_test payload = Ok table /\ table_ok table.
Proof.
  unfold call_ihc_api_test.
  apply for_each_invariant; [apply score_user_ok | constructor].
Qed.

(** ** Which sessions are credited *)

Lemma in_eligible_sessions (sessions : list session) (ts : datetime)
  (s : session) :
  In s (eligible_sessions sessions ts) <->
  In s sessions /\ spec_eligible (timestamp s) ts = true.
Proof.
  rewrite eligible_sessions_filter, filter_In. reflexivity.
Qed.

Lemma in_keys_set {V : Type} (d : Dict.t V) (k x : string) (v : V) :
  In x (Dict.keys (Dict.set d k v)) <-> In x (Dict.keys d) \/ x = k.
Proof.
  rewrite DictFacts.keys_set. destruct (Dict.mem d k) eqn:E.
  - apply DictFacts.mem_true_iff in E. split; [tauto|].
    intros [?| ->]; assumption.
  - rewrite in_app_iff. simpl. split; intros [?|?]; auto.
    + destruct H; [auto | contradiction].
Qed.

Lemma in_keys_raw_loop (total_sessions : nat) (l : list session) (x : string) :
  forall i d,
    In x (Dict.keys (raw_loop total_sessions i l d)) <->
    In x (Dict.keys d) \/ In x (map session_id l).
Proof.
  induction l as [|s l IH]; intros i d; simpl.
  - tauto.
  - rewrite IH, in_keys_set. split; intros H; intuition auto.
Qed.

Lemma normalize_keys (total : Q) (d d' : Dict.t Q) :
  normalize total d = Ok d' -> Dict.keys d' = Dict.keys d.
Proof.
  revert d'. induction d as [|[k w] d IH]; intros d'; simpl.
  - now intros [= <-].
  - destruct (py_div w total); simpl; [|discriminate].
    destruct (normalize total d) as [rest|]; simpl; [|discriminate].
    intros [= <-]. simpl. f_equal. now apply IH.
Qed.

Lemma credited_ensure (t : attribution_table) (k cid sid : string) :
  credited (Dict.ensure t k Dict.empty) cid sid <-> credited t cid sid.
Proof.
  unfold credited. split; intros [d [Hget Hin]]; exists d; split; auto.
  - rewrite get_ensure in Hget. destruct (Dict.get t cid); [assumption|].
    destruct (String.eqb k cid); [|discriminate].
    injection Hget as <-. destruct Hin.
  - rewrite get_ensure, Hget. reflexivity.
Qed.

Lemma score_conversion_credited (sessions : list session)
  (t t' : attribution_table) (c : conversion) :
  score_conversion sessions t c = Ok t' ->
  forall x, credited t' (fst x) (snd x) <->
            credited t (fst x) (snd x) \/ conversion_credits sessions c x.
Proof.
  unfold score_conversion, conversion_credits. intros H [cid sid]. simpl.
  set (t1 := Dict.ensure t (conv_id c) Dict.empty) in *.
  rewrite <- (credited_ensure t (conv_id c) cid sid). fold t1.
  destruct (eligible_sessions sessions (strptime (conv_timestamp c)))
    as [|s0 l] eqn:E.
  - simpl in H. injection H as <-. split; [tauto|].
    intros [?|[_ [s [Hin [_ Hel]]]]]; [assumption|].
    assert (Hs : In s (eligible_sessions sessions (strptime (conv_timestamp c))))
      by (apply in_eligible_sessions; auto).
    rewrite E in Hs. destruct Hs.
  - simpl py_not in H. cbv iota in H.
    destruct (normalize _ _) as [d'|] eqn:En; simpl in H; [|discriminate].
    injection H as <-. apply normalize_keys in En.
    unfold raw_scores in En. rewrite E in En. rewrite <- E in En.
    unfold credited.
    split.
    + intros [d [Hget Hin]]. rewrite DictFacts.get_set in Hget.
      destruct (String.eqb_spec (conv_id c) cid) as [<-|Hne].
      * injection Hget as <-. rewrite En in Hin.
        apply in_keys_raw_loop in Hin as [Hin|Hin].
        -- left. destruct (Dict.get t1 (conv_id c)) as [d0|] eqn:E0;
             [eauto | destruct Hin].
        -- right. split; [reflexivity|].
           apply in_map_iff in Hin as [s [Hid Hs]].
           apply in_eligible_sessions in Hs as [Hs Hel]. eauto.
      * eauto.
    + intros [[d [Hget Hin]]|[-> [s [Hs [Hid Hel]]]]].
      * destruct (String.eqb_spec (conv_id c) cid) as [<-|Hne].
        -- exists d'. rewrite DictFacts.get_set_same. split; [reflexivity|].
           rewrite En. apply in_keys_raw_loop. left. now rewrite Hget.
        -- exists d. rewrite DictFacts.get_set_other by assumption. auto.
      * exists d'. rewrite DictFacts.get_set_same. split; [reflexivity|].
        rewrite En. apply in_keys_raw_loop. right.
        apply in_map_iff. exists s. split; [assumption|].
        apply in_eligible_sessions. auto.
Qed.

(** A loop whose body only adds: what holds afterwards is what held
    before or was added by some element. *)
Lemma for_each_accumulates {S A X : Type} (P : S -> X -> Prop)
  (new : A -> X -> Prop) (body : S -> A -> result S) :
  (forall s a s', body s a = Ok s' -> forall x, P s' x <-> P s x \/ new a x) ->
  forall l s s', for_each body l s = Ok s' ->
                 forall x, P s' x <-> P s x \/ exists a, In a l /\ new a x.
Proof.
  intros Hbody. induction l as [|a l IH]; intros s s' H x; simpl in *.
  - injection H as <-. split; [tauto | intros [?|[? [[] _]]]; assumption].
  - destruct (body s a) as [s1|] eqn:Eb; simpl in H; [|discriminate].
    rewrite (IH _ _ H x), (Hbody _ _ _ Eb x).
    split.
    + intros [[?|?]|[a' [? ?]]]; eauto 6.
    + intros [?|[a' [[<-|?] ?]]]; eauto 6.
Qed.

Lemma score_user_credited (t t' : attribution_table)
  (item : string * user_data) :
  score_user t item = Ok t' ->
  forall x, credited t' (fst x) (snd x) <->
            credited t (fst x) (snd x) \/ user_credits item x.
Proof.
  unfold score_user, user_credits. intros H x.
  destruct (py_not (get_default (sessions (snd item)) [])) eqn:Es.
  - simpl in H. injection H as <-. split; [tauto|].
    intros [?|[c [_ [_ [s [Hs _]]]]]]; [assumption|].
    destruct (get_default (sessions (snd item)) []); [destruct Hs | discriminate].
  - destruct (py_not (get_default (conversions (snd item)) [])) eqn:Ec;
      simpl in H.
    + injection H as <-. split; [tauto|].
      intros [?|[c [Hc _]]]; [assumption|].
      destruct (get_default (conversions (snd item)) []);
        [destruct Hc | discriminate].
    + revert x.
      apply (for_each_accumulates (fun t x => credited t (fst x) (snd x))
               (conversion_credits (get_default (sessions (snd item)) []))
               (score_conversion (get_default (sessions (snd item)) [])));
        [|exact H].
      intros s a s' Hb. now apply score_conversion_credited.
Qed.

Lemma call_ihc_api_test_credited (payload : journey_payload)
  (table : attribution_table) :
  call_ihc_api_test payload = Ok table ->
  forall cid sid, credited table cid sid <-> creditable payload cid sid.
Proof.
  unfold call_ihc_api_test. intros H cid sid.
  pose proof (for_each_accumulates
                (fun t x => credited t (fst x) (snd x)) user_credits
                score_user (fun s a s' => score_user_credited s s' a)
                _ _ _ H (cid, sid)) as Hx.
  simpl in Hx. rewrite Hx. unfold creditable, user_credits, conversion_credits.
  simpl. split.
  - intros [[d [Hget _]]|[item [Hitem [c [Hc [-> [s [Hs [Hid Hel]]]]]]]]].
    + discriminate.
    + exists item, c, s. auto 7.
  - intros [item [c [s [Hitem [Hc [Hs [Hcid [Hsid Hel]]]]]]]].
    right. exists item. split; [assumption|]. exists c. split; [assumption|].
    split; [now symmetry|]. eauto.
Qed.

(** ** The flattener *)

Lemma fold_left_appending {A B : Type} (f : list B -> A -> list B)
  (g : A -> list B) :
  (forall acc a, f acc a = acc ++ g a) ->
  forall l acc, fold_left f l acc = acc ++ flat_map g l.
Proof.
  intros Hf. induction l as [|a l IH]; intros acc; simpl.
  - now rewrite app_nil_r.
  - now rewrite IH, Hf, <- app_assoc.
Qed.

Lemma flatten_sessions_eligible (cid : string) (ts : datetime)
  (sessions : list session) :
  forall acc,
    flatten_sessions cid ts sessions acc =
    acc ++ map (flattened_session cid) (eligible_sessions sessions ts).
Proof.
  induction sessions as [|s l IH]; intros acc; simpl.
  - now rewrite app_nil_r.
  - destruct (strptime (timestamp s) <? ts); rewrite IH; simpl.
    + now rewrite <- app_assoc.
    + reflexivity.
Qed.

Lemma flatten_conversion_records (sessions : list session)
  (acc : list flattened_journey) (c : conversion) :
  flatten_conversion sessions acc c = acc ++ conversion_records sessions c.
Proof.
  unfold flatten_conversion, conversion_records.
  now rewrite flatten_sessions_eligible, <- app_assoc.
Qed.

Lemma flatten_user_records (acc : list flattened_journey)
  (item : string * user_data) :
  flatten_user acc item = acc ++ user_records item.
Proof.
  unfold flatten_user, user_records.
  destruct (py_not _ || py_not _)%bool.
  - now rewrite app_nil_r.
  - apply fold_left_appending. intros. apply flatten_conversion_records.
Qed.

Lemma flatten_journeys_records (payload : journey_payload) :
  flatten_journeys payload =
  flat_map user_records (get_default (users payload) Dict.empty).
Proof.
  unfold flatten_journeys.
  now rewrite (fold_left_appending _ user_records flatten_user_records).
Qed.

Lemma py_not_true_iff {A : Type} (l : list A) : py_not l = true <-> l = [].
Proof. destruct l; simpl; split; congruence. Qed.

Lemma in_user_records (item : string * user_data) (r : flattened_journey) :
  In r (user_records item) <->
  exists c, In c (get_default (conversions (snd item)) []) /\
            In r (conversion_records (get_default (sessions (snd item)) []) c) /\
            get_default (sessions (snd item)) [] <> [].
Proof.
  unfold user_records.
  destruct (py_not (get_default (sessions (snd item)) [])) eqn:Es; simpl.
  - apply py_not_true_iff in Es.
    split; [tauto | intros [c [_ [_ H]]]; congruence].
  - apply py_not_false_iff in Es.
    destruct (py_not (get_default (conversions (snd item)) [])) eqn:Ec.
    + apply py_not_true_iff in Ec. rewrite Ec.
      split; [intros [] | intros [c [[] _]]].
    + rewrite in_flat_map. split.
      * intros [c [Hc Hr]]. exists c. auto.
      * intros [c [Hc [Hr _]]]. eauto.
Qed.

Lemma in_conversion_records (sessions : list session) (c : conversion)
  (r : flattened_journey) :
  In r (conversion_records sessions c) <->
  r = conversion_session c \/
  exists s, In s sessions /\
            spec_eligible (timestamp s) (conv_timestamp c) = true /\
            r = flattened_session (conv_id c) s.
Proof.
  unfold conversion_records. rewrite in_app_iff, in_map_iff. simpl. split.
  - intros [[s [<- Hs]]|[<-|[]]]; [right | now left].
    apply in_eligible_sessions in Hs as [Hs Hel]. eauto.
  - intros [->|[s [Hs [Hel ->]]]]; [right; now left | left].
    exists s. split; [reflexivity|]. apply in_eligible_sessions. auto.
Qed.

Lemma flatten_journeys_credited (payload : journey_payload)
  (cid sid : string) :
  flattened_for (flatten_journeys payload) cid sid <->
  creditable payload cid sid.
Proof.
  unfold flattened_for, creditable. rewrite flatten_journeys_records. split.
  - intros [r [Hr [Hcid [Hsid Hconv]]]].
    apply in_flat_map in Hr as [item [Hitem Hr]].
    apply in_user_records in Hr as [c [Hc [Hr _]]].
    apply in_conversion_records in Hr as [->|[s [Hs [Hel ->]]]].
    + discriminate.
    + exists item, c, s. simpl in *. auto 7.
  - intros [item [c [s [Hitem [Hc [Hs [Hcid [Hsid Hel]]]]]]]].
    exists (flattened_session (conv_id c) s). simpl.
    repeat split; auto.
    apply in_flat_map. exists item. split; [assumption|].
    apply in_user_records. exists c. split; [assumption|]. split.
    + apply in_conversion_records. right. eauto.
    + intros E. rewrite E in Hs. destruct Hs.
Qed.

(** C2.  Temporal eligibility is strict precedence, and the heuristic
    engine and the flattener of the batched path apply it identically.
    - In the heuristic engine a session is selected for a conversion
      exactly when it is one of the user's sessions and its timestamp is
      strictly below the conversion's.
    - The flattener's session loop appends the records of exactly those
      sessions, in the same order.
    - For a whole payload, the table returned by the heuristic engine
      holds a weight for a session under a conversion exactly when the
      flattened records hold a session record for that pair, and both
      exactly when some user has that conversion and that session with a
      strictly smaller timestamp.
    - A session whose timestamp equals the conversion's is selected by
      neither loop. *)
Theorem C2_eligibility_strict_and_identical :
  (forall sessions c s,
      In s (eligible_sessions sessions (strptime (conv_timestamp c))) <->
      In s sessions /\ timestamp s < conv_timestamp c) /\
  (forall sessions c acc,
      flatten_sessions (conv_id c) (strptime (conv_timestamp c)) sessions acc =
      acc ++ map (flattened_session (conv_id c))
               (eligible_sessions sessions (strptime (conv_timestamp c)))) /\
  (forall payload,
      exists table,
        call_ihc_api_test payload = Ok table /\
        forall cid sid,
          (credited table cid sid <-> creditable payload cid sid) /\
          (flattened_for (flatten_journeys payload) cid sid <->
           creditable payload cid sid) /\
          (credited table cid sid <->
           flattened_for (flatten_journeys payload) cid sid)) /\
  (forall sessions c s,
      timestamp s = conv_timestamp c ->
      ~ In s (eligible_sessions sessions (strptime (conv_timestamp c))) /\
      ~ In (flattened_session (conv_id c) s)
          (flatten_sessions (conv_id c) (strptime (conv_timestamp c))
             sessions [])).
Proof.
  split; [|split; [|split]].
  - intros sessions c s. rewrite in_eligible_sessions.
    unfold spec_eligible, strptime. now rewrite Z.ltb_lt.
  - intros. apply flatten_sessions_eligible.
  - intros payload.
    destruct (call_ihc_api_test_ok payload) as [table [Hcall _]].
    exists table. split; [assumption|]. intros cid sid.
    pose proof (call_ihc_api_test_credited payload table Hcall cid sid).
    pose proof (flatten_journeys_credited payload cid sid).
    tauto.
  - intros sessions c s Heq. split.
    + rewrite in_eligible_sessions. unfold spec_eligible, strptime.
      rewrite Z.ltb_lt. lia.
    + rewrite flatten_sessions_eligible. simpl. rewrite in_map_iff.
      intros [s' [Hrec Hs']].
      apply in_eligible_sessions in Hs' as [_ Hel].
      unfold spec_eligible, strptime in Hel. apply Z.ltb_lt in Hel.
      assert (timestamp s' = timestamp s)
        by (change (fj_timestamp (flattened_session (conv_id c) s') =
                    fj_timestamp (flattened_session (conv_id c) s));
            now rewrite Hrec).
      lia.
Qed.

(** ** Which conversions are keys of the table *)

Lemma mem_ensure {V : Type} (t : Dict.t V) (k x : string) (v : V) :
  Dict.mem (Dict.ensure t k v) x = true <-> Dict.mem t x = true \/ x = k.
Proof.
  unfold Dict.mem. rewrite get_ensure.
  destruct (Dict.get t x); [tauto|].
  destruct (String.eqb_spec k x); split; intros H; auto; try discriminate.
  destruct H; [discriminate | congruence].
Qed.

Lemma mem_set {V : Type} (t : Dict.t V) (k x : string) (v : V) :
  Dict.mem (Dict.set t k v) x = true <-> Dict.mem t x = true \/ x = k.
Proof.
  rewrite !DictFacts.mem_true_iff. apply in_keys_set.
Qed.

Lemma score_conversion_keys (sessions : list session)
  (t t' : attribution_table) (c : conversion) :
  score_conversion sessions t c = Ok t' ->
  forall x, Dict.mem t' x = true <-> Dict.mem t x = true \/ x = conv_id c.
Proof.
  unfold score_conversion. intros H x.
  destruct (py_not _).
  - injection H as <-. apply mem_ensure.
  - destruct (normalize _ _) as [d'|]; simpl in H; [|discriminate].
    injection H as <-. rewrite mem_set, mem_ensure. tauto.
Qed.

Lemma score_user_keys (t t' : attribution_table) (item : string * user_data) :
  score_user t item = Ok t' ->
  forall x, Dict.mem t' x = true <-> Dict.mem t x = true \/ user_keys item x.
Proof.
  unfold score_user, user_keys. intros H x.
  destruct (py_not (get_default (sessions (snd item)) [])) eqn:Es.
  - simpl in H. injection H as <-. apply py_not_true_iff in Es.
    split; [tauto | intros [?|[? _]]; [assumption | congruence]].
  - apply py_not_false_iff in Es.
    destruct (py_not (get_default (conversions (snd item)) [])) eqn:Ec;
      simpl in H.
    + injection H as <-. apply py_not_true_iff in Ec. rewrite Ec.
      split; [tauto | intros [?|[_ [c [[] _]]]]; assumption].
    + rewrite (for_each_accumulates (fun t x => Dict.mem t x = true)
                 (fun c x => x = conv_id c) _
                 (fun s a s' => score_conversion_keys _ s s' a) _ _ _ H x).
      tauto.
Qed.

Lemma call_ihc_api_test_keys (payload : journey_payload)
  (table : attribution_table) :
  call_ihc_api_test payload = Ok table ->
  forall x, Dict.mem table x = true <->
            exists item, In item (get_default (users payload) Dict.empty) /\
                         user_keys item x.
Proof.
  unfold call_ihc_api_test. intros H x.
  rewrite (for_each_accumulates (fun t x => Dict.mem t x = true) user_keys _
             (fun s a s' => score_user_keys s s' a) _ _ _ H x).
  split; [intros [?|?]; [discriminate | assumption] | auto].
Qed.


(** ** The raw weight of each eligible session *)

Lemma raw_loop_get_other (total_sessions : nat) (l : list session)
  (sid : string) :
  (forall s, In s l -> session_id s <> sid) ->
  forall i d, Dict.get (raw_loop total_sessions i l d) sid = Dict.get d sid.
Proof.
  induction l as [|s l IH]; intros Hl i d; simpl; [reflexivity|].
  rewrite IH by (intros s' Hs'; apply Hl; now right).
  apply DictFacts.get_set_other. apply Hl. now left.
Qed.

Lemma raw_loop_get_nth (total_sessions : nat) (l : list session) :
  forall j i d s,
    nth_error l j = Some s ->
    (forall j' s', (j < j')%nat -> nth_error l j' = Some s' ->
                   session_id s' <> session_id s) ->
    Dict.get (raw_loop total_sessions i l d) (session_id s) =
    Some (raw_weight (i + j) total_sessions s).
Proof.
  induction l as [|s0 l IH]; intros j i d s Hnth Hlater.
  - destruct j; discriminate.
  - destruct j as [|j]; simpl in *.
    + injection Hnth as ->.
      rewrite raw_loop_get_other.
      * rewrite DictFacts.get_set_same. now rewrite Nat.add_0_r.
      * intros s' Hs'. apply In_nth_error in Hs' as [n Hn].
        apply (Hlater (S n)); [lia | exact Hn].
    + rewrite (IH j (S i) _ s Hnth).
      * f_equal. f_equal. lia.
      * intros j' s' Hj' Hn. apply (Hlater (S j')); [lia | exact Hn].
Qed.

Lemma C2_witness :
  ~ In (sample_session "s1" 43200 "Email" false false)
      (eligible_sessions [sample_session "s1" 43200 "Email" false false]
         (strptime (conv_timestamp sample_c1))) /\
  exists table,
    call_ihc_api_test two_conversion_payload = Ok table /\
    credited table "c1" "s1" /\
    flattened_for (flatten_journeys two_conversion_payload) "c1" "s1".
Proof.
  destruct C2_eligibility_strict_and_identical as [_ [_ [Hwhole Hequal]]].
  split.
  - apply (Hequal [sample_session "s1" 43200 "Email" false false]
             sample_c1 (sample_session "s1" 43200 "Email" false false)).
    reflexivity.
  - destruct (Hwhole two_conversion_payload) as [table [Hcall Hiff]].
    destruct (Hiff "c1"%string "s1"%string) as [Htest [Hflat _]].
    assert (Hc : creditable two_conversion_payload "c1" "s1").
    { exists ("u1"%string, {| sessions := Some sample_sessions;
                              conversions := Some [sample_c1; sample_c2] |}),
             sample_c1, sample_s1.
      simpl. repeat split; auto. }
    exists table. split; [exact Hcall|]. split.
    + now apply Htest.
    + now apply Hflat.
Defined.

(** ** The heuristic engine: results *)

(** C1.  The heuristic engine returns a table, and for every conv_id in
    it whose mapping holds a positive weight the weights sum to one.
    Weights are exact rationals here, so the sum is exactly one. *)
Theorem C1_weights_sum_to_one (payload : journey_payload) :
  exists table,
    call_ihc_api_test payload = Ok table /\
    forall conv_id d,
      Dict.get table conv_id = Some d ->
      (exists session_id w, Dict.get d session_id = Some w /\ (0 < w)%Q) ->
      (py_sum (Dict.values d) == 1)%Q.
Proof.
  destruct (call_ihc_api_test_ok payload) as [table [Hcall Hok]].
  exists table. split; [assumption|].
  intros cid d Hget [sid [w [Hw _]]].
  destruct (table_ok_get _ _ _ Hok Hget) as [_ [->|Hsum]].
  - discriminate.
  - exact Hsum.
Qed.

Lemma C1_witness :
  exists table,
    call_ihc_api_test sample_payload = Ok table /\
    forall conv_id d,
      Dict.get table conv_id = Some d ->
      (exists session_id w, Dict.get d session_id = Some w /\ (0 < w)%Q) ->
      (py_sum (Dict.values d) == 1)%Q.
Proof. exact (C1_weights_sum_to_one sample_payload). Defined.




(** ** The journey builder *)

Lemma build_user_journey_of (sessions_df : list session_row)
  (conversions_df : list conversion_row) (d : Dict.t user_data)
  (u : string) :
  build_user sessions_df conversions_df d u =
  match journey_of sessions_df conversions_df u with
  | Some j => Dict.set d u j
  | None => d
  end.
Proof.
  unfold build_user, journey_of, retained_conversions.
  destruct (user_sessions_of sessions_df u) as [|r rs] eqn:Es;
    [reflexivity|].
  destruct (user_conversions_of conversions_df u) as [|c cs] eqn:Ec;
    [reflexivity|].
  cbn [List.length Nat.eqb orb].
  destruct (filter _ (c :: cs)); reflexivity.
Qed.

Lemma get_build_users (sessions_df : list session_row)
  (conversions_df : list conversion_row) (u : string) :
  forall all_users d,
    Dict.get (fold_left (build_user sessions_df conversions_df) all_users d) u =
    match journey_of sessions_df conversions_df u with
    | Some j => if in_dec string_dec u all_users then Some j else Dict.get d u
    | None => Dict.get d u
    end.
Proof.
  induction all_users as [|u0 l IH]; intros d; simpl.
  - now destruct (journey_of sessions_df conversions_df u).
  - rewrite IH, build_user_journey_of.
    destruct (string_dec u0 u) as [->|Hne].
    + destruct (journey_of sessions_df conversions_df u) as [j|];
        [|reflexivity].
      rewrite DictFacts.get_set_same. now destruct (in_dec string_dec u l).
    + destruct (journey_of sessions_df conversions_df u0) as [j0|].
      * rewrite DictFacts.get_set_other by assumption.
        destruct (journey_of sessions_df conversions_df u); [|reflexivity].
        destruct (in_dec string_dec u l); reflexivity.
      * destruct (journey_of sessions_df conversions_df u); [|reflexivity].
        destruct (in_dec string_dec u l); reflexivity.
Qed.

Lemma wf_build_users (sessions_df : list session_row)
  (conversions_df : list conversion_row) :
  forall all_users d,
    Dict.wf d ->
    Dict.wf (fold_left (build_user sessions_df conversions_df) all_users d).
Proof.
  induction all_users as [|u l IH]; intros d Hd; simpl; [assumption|].
  apply IH. rewrite build_user_journey_of.
  destruct (journey_of sessions_df conversions_df u); [|assumption].
  now apply DictFacts.wf_set.
Qed.

Lemma in_user_sessions_of (sessions_df : list session_row) (u : string)
  (r : session_row) :
  In r (user_sessions_of sessions_df u) <-> In r sessions_df /\ row_user_id r = u.
Proof.
  unfold user_sessions_of. rewrite filter_In, String.eqb_eq. reflexivity.
Qed.

Lemma in_user_conversions_of (conversions_df : list conversion_row)
  (u : string) (c : conversion_row) :
  In c (user_conversions_of conversions_df u) <->
  In c conversions_df /\ crow_user_id c = u.
Proof.
  unfold user_conversions_of. rewrite filter_In, String.eqb_eq. reflexivity.
Qed.

Lemma has_session_before_iff (user_sessions : list session_row)
  (conv_time : Timestamp) :
  has_session_before user_sessions conv_time = true <->
  exists r, In r user_sessions /\ row_timestamp r < conv_time.
Proof.
  unfold has_session_before. rewrite Nat.ltb_lt. split.
  - destruct (filter _ user_sessions) as [|r rs] eqn:E; simpl; [lia|].
    intros _. exists r.
    assert (Hin : In r (filter (fun r => row_timestamp r <? conv_time)
                          user_sessions)) by (rewrite E; now left).
    apply filter_In in Hin as [Hin Hlt]. apply Z.ltb_lt in Hlt. auto.
  - intros [r [Hin Hlt]].
    assert (Hf : In r (filter (fun r => row_timestamp r <? conv_time)
                         user_sessions))
      by (apply filter_In; split; [assumption | now apply Z.ltb_lt]).
    destruct (filter _ user_sessions); [destruct Hf | simpl; lia].
Qed.

Lemma in_retained_conversions (sessions_df : list session_row)
  (conversions_df : list conversion_row) (u : string) (c : conversion_row) :
  In c (retained_conversions sessions_df conversions_df u) <->
  In c conversions_df /\ crow_user_id c = u /\
  exists r, In r sessions_df /\ row_user_id r = u /\
            row_timestamp r < crow_timestamp c.
Proof.
  unfold retained_conversions.
  rewrite filter_In, in_user_conversions_of, has_session_before_iff. split.
  - intros [[Hc Hu] [r [Hr Hlt]]]. apply in_user_sessions_of in Hr as [Hr Hru].
    eauto 6.
  - intros [Hc [Hu [r [Hr [Hru Hlt]]]]]. split; [auto|].
    exists r. split; [|assumption]. apply in_user_sessions_of. auto.
Qed.

Lemma journey_of_some_iff (sessions_df : list session_row)
  (conversions_df : list conversion_row) (u : string) :
  (exists j, journey_of sessions_df conversions_df u = Some j) <->
  exists c r, In c conversions_df /\ crow_user_id c = u /\
              In r sessions_df /\ row_user_id r = u /\
              row_timestamp r < crow_timestamp c.
Proof.
  unfold journey_of. split.
  - destruct (user_sessions_of sessions_df u) as [|r0 rs];
      [intros [j H]; discriminate|].
    destruct (retained_conversions sessions_df conversions_df u)
      as [|c cs] eqn:Ec; [intros [j H]; discriminate|].
    intros _.
    assert (Hc : In c (retained_conversions sessions_df conversions_df u))
      by (rewrite Ec; now left).
    apply in_retained_conversions in Hc as [Hc [Hu [r [Hr [Hru Hlt]]]]].
    exists c, r. auto.
  - intros [c [r [Hc [Hu [Hr [Hru Hlt]]]]]].
    assert (Hs : In r (user_sessions_of sessions_df u))
      by (apply in_user_sessions_of; auto).
    assert (Hret : In c (retained_conversions sessions_df conversions_df u))
      by (apply in_retained_conversions; eauto 6).
    destruct (user_sessions_of sessions_df u); [destruct Hs|].
    destruct (retained_conversions sessions_df conversions_df u);
      [destruct Hret|].
    eauto.
Qed.

(** The sample rows give one journey, for u1, with both sessions and the
    later conversion. *)
Example build_customer_journeys_sample :
  build_customer_journeys ["u2"; "u1"]%string sample_sessions_df
    sample_conversions_df =
  {| users :=
       Some [("u1",
              {| sessions :=
                   Some [session_dict (sample_row "s1" "u1" 32400000000000);
                         session_dict (sample_row "s2" "u1" 46800000000000)];
                 conversions :=
                   Some [conversion_dict
                           (sample_crow "c1" "u1" 43200000000000)] |})] |}.
Proof. reflexivity. Qed.

(** ** Grouping by conversion *)

Lemma not_in_true_iff (ks : list string) (y : string) :
  not_in ks y = true <-> ~ In y ks.
Proof.
  unfold not_in. rewrite negb_true_iff, <- not_true_iff_false, existsb_exists.
  split; intros H Hin; apply H.
  - exists y. split; [assumption | apply String.eqb_refl].
  - destruct Hin as [x [Hx Heq]]. apply String.eqb_eq in Heq. now subst.
Qed.

Lemma not_in_snoc (ks : list string) (c y : string) :
  not_in (ks ++ [c]) y = (negb (String.eqb y c) && not_in ks y)%bool.
Proof.
  unfold not_in. rewrite existsb_app. simpl. rewrite orb_false_r.
  rewrite negb_orb. apply andb_comm.
Qed.

Lemma filter_twice {A : Type} (p q : A -> bool) (l : list A) :
  filter p (filter q l) = filter (fun x => (q x && p x)%bool) l.
Proof.
  induction l as [|x l IH]; simpl; [reflexivity|].
  destruct (q x); simpl; [destruct (p x)|]; now rewrite IH.
Qed.

Lemma in_first_occurrences (l : list string) (x : string) :
  In x (first_occurrences l) <-> In x l.
Proof.
  induction l as [|y l IH]; simpl; [tauto|].
  rewrite filter_In, IH, negb_true_iff.
  destruct (String.eqb_spec x y) as [->|Hne]; split; auto.
  - intros [?|[? ?]]; [now left | now right].
  - intros [?|?]; [now left | right; auto].
Qed.

Lemma NoDup_first_occurrences (l : list string) : NoDup (first_occurrences l).
Proof.
  induction l as [|y l IH]; simpl; constructor.
  - rewrite filter_In, String.eqb_refl. simpl. intros [_ H]. discriminate.
  - now apply NoDup_filter.
Qed.

Lemma keys_group_journey (d : Dict.t (list flattened_journey))
  (j : flattened_journey) :
  Dict.keys (group_journey d j) =
  if Dict.mem d (fj_conversion_id j) then Dict.keys d
  else Dict.keys d ++ [fj_conversion_id j].
Proof.
  unfold group_journey. rewrite DictFacts.keys_set.
  assert (Hm : Dict.mem (Dict.ensure d (fj_conversion_id j) [])
                 (fj_conversion_id j) = true)
    by (apply mem_ensure; now right).
  rewrite Hm. unfold Dict.ensure.
  destruct (Dict.mem d (fj_conversion_id j)) eqn:E; [reflexivity|].
  now rewrite DictFacts.keys_set, E.
Qed.

Lemma keys_fold_group (fl : list flattened_journey) :
  forall d,
    Dict.keys (fold_left group_journey fl d) =
    Dict.keys d ++
    filter (not_in (Dict.keys d))
      (first_occurrences (map fj_conversion_id fl)).
Proof.
  induction fl as [|j fl IH]; intros d; simpl.
  - now rewrite app_nil_r.
  - rewrite IH, keys_group_journey.
    set (cid := fj_conversion_id j).
    set (X := first_occurrences (map fj_conversion_id fl)).
    destruct (Dict.mem d cid) eqn:E.
    + apply DictFacts.mem_true_iff in E.
      assert (Hc : not_in (Dict.keys d) cid = false).
      { apply not_true_iff_false. rewrite not_in_true_iff. tauto. }
      rewrite Hc, filter_twice. f_equal.
      apply filter_ext_in. intros x _.
      destruct (not_in (Dict.keys d) x) eqn:Ex;
        [|now rewrite andb_false_r].
      apply not_in_true_iff in Ex.
      destruct (String.eqb_spec x cid) as [->|Hne]; [contradiction|reflexivity].
    + assert (Hc : not_in (Dict.keys d) cid = true).
      { apply not_in_true_iff. rewrite <- DictFacts.mem_true_iff. congruence. }
      rewrite Hc, <- app_assoc. simpl. do 2 f_equal.
      rewrite filter_twice. apply filter_ext. intros x. apply not_in_snoc.
Qed.

Lemma keys_group_by_conversion (fl : list flattened_journey) :
  Dict.keys (group_by_conversion fl) =
  first_occurrences (map fj_conversion_id fl).
Proof.
  unfold group_by_conversion. rewrite keys_fold_group. simpl.
  rewrite <- (filter_ext (fun _ => true)) by reflexivity.
  induction (first_occurrences (map fj_conversion_id fl)) as [|x l IH];
    simpl; [reflexivity | now rewrite IH].
Qed.

Lemma get_group_journey (d : Dict.t (list flattened_journey))
  (j : flattened_journey) (cid : string) :
  get_default (Dict.get (group_journey d j) cid) [] =
  get_default (Dict.get d cid) [] ++ records_of [j] cid.
Proof.
  unfold group_journey, records_of. simpl.
  rewrite DictFacts.get_set.
  destruct (String.eqb_spec (fj_conversion_id j) cid) as [->|Hne]; simpl.
  - rewrite get_ensure, String.eqb_refl. now destruct (Dict.get d cid).
  - rewrite get_ensure, app_nil_r.
    destruct (Dict.get d cid); [reflexivity|].
    now destruct (String.eqb (fj_conversion_id j) cid).
Qed.

Lemma get_fold_group (fl : list flattened_journey) (cid : string) :
  forall d,
    get_default (Dict.get (fold_left group_journey fl d) cid) [] =
    get_default (Dict.get d cid) [] ++ records_of fl cid.
Proof.
  induction fl as [|j fl IH]; intros d; simpl.
  - now rewrite app_nil_r.
  - rewrite IH, get_group_journey, <- app_assoc. f_equal.
    unfold records_of. simpl.
    now destruct (String.eqb (fj_conversion_id j) cid).
Qed.

Lemma get_group_by_conversion (fl : list flattened_journey) (cid : string) :
  get_default (Dict.get (group_by_conversion fl) cid) [] = records_of fl cid.
Proof.
  unfold group_by_conversion. now rewrite get_fold_group.
Qed.

Lemma batch_journeys_of_records (fl : list flattened_journey)
  (b : list string) :
  batch_journeys_of (group_by_conversion fl) b = flat_map (records_of fl) b.
Proof.
  unfold batch_journeys_of. apply flat_map_ext. intros cid.
  apply get_group_by_conversion.
Qed.

(** ** Batching *)

Lemma firstn_plus {A : Type} (a b : nat) (l : list A) :
  firstn (a + b) l = firstn a l ++ firstn b (skipn a l).
Proof.
  revert l. induction a as [|a IH]; intros l; simpl; [reflexivity|].
  destruct l as [|x l]; simpl.
  - now rewrite firstn_nil.
  - now rewrite IH.
Qed.

Lemma concat_chunks {A : Type} (b : nat) (l : list A) (m : nat) :
  List.concat (map (chunk b l) (seq 0 m)) = firstn (m * b) l.
Proof.
  induction m as [|m IH]; [reflexivity|].
  rewrite seq_S, map_app, concat_app, IH. simpl.
  rewrite app_nil_r. unfold chunk.
  rewrite (Nat.add_comm b (m * b)). symmetry. apply firstn_plus.
Qed.

Lemma length_chunk {A : Type} (b : nat) (l : list A) (k : nat) :
  List.length (chunk b l k) = Nat.min b (List.length l - k * b).
Proof.
  unfold chunk. now rewrite length_firstn, length_skipn.
Qed.

Lemma batch_count_bounds (n : nat) (max : Z) :
  0 < max ->
  let b := Z.to_nat max in
  let m := batch_count n max in
  (n <= m * b)%nat /\ (forall k, (k < m)%nat -> (k * b < n)%nat).
Proof.
  intros Hmax b m. subst b m. unfold batch_count.
  set (q := (Z.of_nat n + max - 1) / max).
  assert (Hq0 : 0 <= q) by (apply Z.div_pos; lia).
  pose proof (Z.mul_div_le (Z.of_nat n + max - 1) max Hmax) as Hle.
  pose proof (Z.mul_succ_div_gt (Z.of_nat n + max - 1) max Hmax) as Hgt.
  fold q in Hle, Hgt. split.
  - apply Nat2Z.inj_le. rewrite Nat2Z.inj_mul, !Z2Nat.id by lia. nia.
  - intros k Hk. apply Nat2Z.inj_lt. rewrite Nat2Z.inj_mul, Z2Nat.id by lia.
    assert (Z.of_nat k < q) by lia. nia.
Qed.

Lemma py_slice_chunk {A : Type} (l : list A) (max : Z) (k : nat) :
  0 < max ->
  (k * Z.to_nat max < List.length l)%nat ->
  py_slice l (0 + Z.of_nat k * max) (0 + Z.of_nat k * max + max) =
  chunk (Z.to_nat max) l k.
Proof.
  intros Hmax Hk. unfold py_slice, slice_bound, chunk.
  set (len := Z.of_nat (List.length l)).
  set (i := 0 + Z.of_nat k * max).
  assert (Hi : Z.to_nat i = (k * Z.to_nat max)%nat).
  { subst i. rewrite Z.add_0_l, Z2Nat.inj_mul, Nat2Z.id by lia. reflexivity. }
  assert (Hi0 : 0 <= i) by (subst i; nia).
  assert (Hilen : i < len).
  { subst len. rewrite <- (Z2Nat.id i) by assumption. rewrite Hi.
    now apply Nat2Z.inj_lt. }
  destruct (Z.ltb_spec i 0); [lia|].
  destruct (Z.ltb_spec (i + max) 0); [lia|].
  rewrite (Z.min_l i len) by lia. rewrite Hi.
  destruct (Z.le_ge_cases (i + max) len) as [Hj|Hj].
  - rewrite Z.min_l by assumption. f_equal. lia.
  - rewrite Z.min_r by assumption.
    rewrite !firstn_all2; [reflexivity | |]; rewrite length_skipn; subst len;
      lia.
Qed.

Lemma py_range_from_zero (total max : Z) :
  0 < max -> 0 <= total ->
  py_range 0 total max =
  Ok (map (fun k => 0 + Z.of_nat k * max)
        (seq 0 (Z.to_nat ((total + max - 1) / max)))).
Proof.
  intros Hmax Htotal. unfold py_range.
  destruct (Z.eqb_spec max 0); [lia|].
  destruct (Z.ltb_spec 0 max); [|lia].
  now rewrite Z.sub_0_r.
Qed.

Lemma batches_chunks (payload : journey_payload) (max_journeys : Z) :
  0 < max_journeys ->
  let conversion_ids :=
    Dict.keys (group_by_conversion (flatten_journeys payload)) in
  batches payload max_journeys =
  Ok (map (chunk (Z.to_nat max_journeys) conversion_ids)
        (seq 0 (batch_count (List.length conversion_ids) max_journeys))).
Proof.
  intros Hmax ids. unfold batches. fold ids.
  rewrite py_range_from_zero by lia. simpl. f_equal.
  rewrite map_map. apply map_ext_in. intros k Hk.
  apply in_seq in Hk. unfold batch_conversion_ids_at.
  apply py_slice_chunk; [assumption|].
  apply (batch_count_bounds (List.length ids) max_journeys Hmax). lia.
Qed.

Lemma NoDup_app_disjoint {A : Type} (l1 l2 : list A) (x : A) :
  NoDup (l1 ++ l2) -> In x l1 -> In x l2 -> False.
Proof.
  induction l1 as [|a l1 IH]; simpl; intros Hnd H1 H2; [assumption|].
  inversion Hnd as [|? ? Hnotin Hnd']; subst.
  destruct H1 as [->|H1]; [|auto].
  apply Hnotin. apply in_or_app. now right.
Qed.

Lemma NoDup_concat_unique {A : Type} (bs : list (list A)) (x : A) :
  NoDup (List.concat bs) ->
  forall k1 k2, In x (nth k1 bs []) -> In x (nth k2 bs []) -> k1 = k2.
Proof.
  induction bs as [|b bs IH]; intros Hnd k1 k2 H1 H2.
  - destruct k1; destruct H1.
  - simpl in Hnd.
    assert (Hsep : forall k, In x b -> In x (nth k bs []) -> False).
    { intros k Hb Hk. apply (NoDup_app_disjoint _ _ x Hnd Hb).
      apply in_concat. exists (nth k bs []).
      split; [|assumption].
      destruct (Nat.lt_ge_cases k (List.length bs)) as [Hlt|Hge].
      - now apply nth_In.
      - rewrite nth_overflow in Hk by assumption. destruct Hk. }
    destruct k1 as [|k1], k2 as [|k2]; simpl in *.
    + reflexivity.
    + exfalso. eauto.
    + exfalso. eauto.
    + f_equal. apply IH; [|assumption|assumption].
      now apply NoDup_app_remove_l in Hnd.
Qed.

(** ** One batch *)

Lemma process_batch_verdict (post : service) (api_token : string)
  (jbc : Dict.t (list flattened_journey)) (k : nat) (b : list string)
  (combined : attribution_table) (tr : list event) :
  let request := request_of api_token jbc b in
  let v := verdict (post k request) in
  process_batch post api_token jbc k b combined tr =
  (verdict_result v combined, tr ++ Posted k request :: verdict_events v).
Proof.
  unfold process_batch, try_except, try_batch, do_post, request_of, verdict.
  unfold mbind, emit, raise_for_status, response_json, batch_handler.
  destruct (post k _) as [[|]|r]; simpl.
  - unfold mbind, emit, raise. now rewrite <- app_assoc.
  - unfold mbind, emit, raise. now rewrite <- app_assoc.
  - unfold ret at 1.
    destruct ((400 <=? status_code r) && (status_code r <? 600))%bool; simpl.
    + unfold mbind, emit, raise. now rewrite <- app_assoc.
    + unfold ret at 1. destruct (json r) as [results|]; simpl.
      * unfold ret at 1.
        destruct (status_error results); simpl.
        -- unfold mbind, emit.
           destruct (partialFailureErrors results); simpl;
             unfold ret, emit; rewrite <- ?app_assoc; reflexivity.
        -- destruct (value results); simpl; unfold mbind, ret, emit;
             rewrite <- ?app_assoc; reflexivity.
      * unfold mbind, emit, raise. now rewrite <- app_assoc.
Qed.

(** ** The loop over batches *)

Lemma no_save_app (a b : list event) :
  no_save (a ++ b) <-> no_save a /\ no_save b.
Proof. unfold no_save. rewrite forallb_app. apply andb_true_iff. Qed.

Lemma persisted_app (before : list (string * string * Q))
  (a b : list event) :
  persisted before (a ++ b) = persisted (persisted before a) b.
Proof. unfold persisted. apply fold_left_app. Qed.

Lemma persisted_no_save (before : list (string * string * Q))
  (evs : list event) :
  no_save evs -> persisted before evs = before.
Proof.
  unfold no_save, persisted. revert before.
  induction evs as [|e evs IH]; intros before H; simpl in *; [reflexivity|].
  apply andb_true_iff in H as [He Hevs].
  destruct e; simpl in He; try discriminate; now apply IH.
Qed.

Lemma posts_app (a b : list event) : posts (a ++ b) = posts a ++ posts b.
Proof. unfold posts. apply flat_map_app. Qed.

Lemma verdict_events_quiet (v : batch_verdict) :
  no_save (verdict_events v) /\ posts (verdict_events v) = [].
Proof.
  destruct v as [e|results|results|vs]; simpl; try (split; reflexivity).
  destruct (partialFailureErrors results); split; reflexivity.
Qed.

Lemma none_fatal_before_tail (post : service) (api_token : string)
  (jbc : Dict.t (list flattened_journey)) (k j : nat) (b : list string)
  (bs : list (list string)) :
  none_fatal_before post api_token jbc k (S j) (b :: bs) ->
  none_fatal_before post api_token jbc (S k) j bs.
Proof.
  intros H j' b' Hj Hn e'.
  replace (S k + j')%nat with (k + S j')%nat by lia.
  apply (H (S j') b'); [lia | exact Hn].
Qed.

Lemma nonfatal_result (v : batch_verdict) (combined : attribution_table) :
  (forall e, v <> Fatal e) -> exists c', verdict_result v combined = Ok c'.
Proof.
  intros H. destruct v as [e| | |]; simpl; eauto. now contradiction (H e).
Qed.

Lemma batch_loop_fatal (post : service) (api_token : string)
  (jbc : Dict.t (list flattened_journey)) (bs : list (list string)) :
  forall j k combined tr b e,
    nth_error bs j = Some b ->
    verdict (post (k + j)%nat (request_of api_token jbc b)) = Fatal e ->
    none_fatal_before post api_token jbc k j bs ->
    exists evs,
      batch_loop post api_token jbc k bs combined tr =
      (Raise (RequestException e),
       tr ++ evs ++ [Posted (k + j)%nat (request_of api_token jbc b);
                     LogError (BatchCallError e)]) /\
      no_save evs /\
      map fst (posts evs) = seq k j.
Proof.
  induction bs as [|b0 bs IH]; intros j k combined tr b e Hnth Hv Hbefore.
  - destruct j; discriminate.
  - simpl. unfold mbind. rewrite process_batch_verdict.
    destruct j as [|j]; simpl in Hnth.
    + injection Hnth as ->. rewrite Nat.add_0_r in *.
      rewrite Hv. simpl.
      exists []. repeat split.
    + pose proof (Hbefore 0%nat b0 ltac:(lia) eq_refl) as Hb0.
      rewrite Nat.add_0_r in Hb0.
      set (v0 := verdict (post k (request_of api_token jbc b0))) in *.
      destruct (verdict_events_quiet v0) as [Hq Hp].
      destruct (nonfatal_result v0 combined Hb0) as [c' Hc'].
      rewrite Hc'.
      replace (k + S j)%nat with (S k + j)%nat in * by lia.
      destruct (IH j (S k) c'
                  (tr ++ Posted k (request_of api_token jbc b0)
                      :: verdict_events v0)
                  b e Hnth Hv
                  (none_fatal_before_tail _ _ _ _ _ _ _ Hbefore))
        as [evs [Hrun [Hns Hposts]]].
      rewrite Hrun.
      exists (([Posted k (request_of api_token jbc b0)]
                 ++ verdict_events v0) ++ evs).
      split; [|split].
      * f_equal. rewrite <- !app_assoc. reflexivity.
      * rewrite !no_save_app. repeat split; assumption.
      * rewrite !posts_app, Hp. simpl. now rewrite Hposts.
Qed.

Lemma batch_loop_trace (post : service) (api_token : string)
  (jbc : Dict.t (list flattened_journey)) (bs : list (list string)) :
  forall k combined tr,
    exists res evs,
      batch_loop post api_token jbc k bs combined tr = (res, tr ++ evs) /\
      no_save evs.
Proof.
  induction bs as [|b0 bs IH]; intros k combined tr; simpl.
  - exists (Ok combined), []. now rewrite app_nil_r.
  - unfold mbind. rewrite process_batch_verdict.
    set (v0 := verdict (post k (request_of api_token jbc b0))).
    destruct (verdict_events_quiet v0) as [Hq _].
    destruct (verdict_result v0 combined) as [c'|e].
    + destruct (IH (S k) c' (tr ++ Posted k (request_of api_token jbc b0)
                                :: verdict_events v0))
        as [res [evs [Hrun Hns]]].
      rewrite Hrun.
      exists res, (([Posted k (request_of api_token jbc b0)]
                      ++ verdict_events v0) ++ evs).
      split.
      * f_equal. rewrite <- !app_assoc. reflexivity.
      * rewrite !no_save_app. repeat split; assumption.
    + exists (Raise e), ([Posted k (request_of api_token jbc b0)]
                           ++ verdict_events v0).
      split; [reflexivity|].
      rewrite no_save_app. split; [reflexivity | assumption].
Qed.

Lemma batch_loop_none_fatal (post : service) (api_token : string)
  (jbc : Dict.t (list flattened_journey)) (bs : list (list string)) :
  forall k combined tr,
    none_fatal_before post api_token jbc k (List.length bs) bs ->
    exists table evs,
      batch_loop post api_token jbc k bs combined tr = (Ok table, tr ++ evs) /\
      posts evs = requests_from api_token jbc k bs.
Proof.
  induction bs as [|b0 bs IH]; intros k combined tr Hall; simpl.
  - exists combined, []. now rewrite app_nil_r.
  - unfold mbind. rewrite process_batch_verdict.
    pose proof (Hall 0%nat b0 ltac:(simpl; lia) eq_refl) as Hb0.
    rewrite Nat.add_0_r in Hb0.
    set (v0 := verdict (post k (request_of api_token jbc b0))) in *.
    destruct (verdict_events_quiet v0) as [_ Hp].
    destruct (nonfatal_result v0 combined Hb0) as [c' Hc']. rewrite Hc'.
    destruct (IH (S k) c'
                (tr ++ Posted k (request_of api_token jbc b0)
                    :: verdict_events v0)
                (none_fatal_before_tail _ _ _ _ _ _ _ Hall))
      as [table [evs [Hrun Hposts]]].
    rewrite Hrun.
    exists table, (([Posted k (request_of api_token jbc b0)]
                      ++ verdict_events v0) ++ evs).
    split.
    + f_equal. rewrite <- !app_assoc. reflexivity.
    + rewrite !posts_app, Hp. simpl. now rewrite Hposts.
Qed.

Lemma call_ihc_api_batched_loop (post : service) (payload : journey_payload)
  (api_token : string) (max_journeys : Z) (bs : list (list string))
  (tr : list event) :
  batches payload max_journeys = Ok bs ->
  call_ihc_api_batched post payload api_token max_journeys tr =
  batch_loop post api_token (group_by_conversion (flatten_journeys payload))
    0 bs Dict.empty tr.
Proof.
  intros Hb. unfold call_ihc_api_batched, mbind, lift. now rewrite Hb.
Qed.

Lemma call_ihc_api_batched_trace (post : service) (payload : journey_payload)
  (api_token : string) (max_journeys : Z) (tr : list event) :
  exists res evs,
    call_ihc_api_batched post payload api_token max_journeys tr =
    (res, tr ++ evs) /\ no_save evs.
Proof.
  destruct (batches payload max_journeys) as [bs|e] eqn:Hb.
  - rewrite (call_ihc_api_batched_loop _ _ _ _ bs tr Hb).
    apply batch_loop_trace.
  - unfold call_ihc_api_batched, mbind, lift. rewrite Hb.
    exists (Raise e), []. now rewrite app_nil_r.
Qed.

Lemma run_pipeline_batched_raises (env : environment) (api_token : string)
  (sessions_df : list session_row) (conversions_df : list conversion_row)
  (e : exn) (tr tr' : list event) :
  env_sessions env = Ok sessions_df ->
  env_conversions env = Ok conversions_df ->
  call_ihc_api_batched (env_post env)
    (build_customer_journeys (env_all_users env) sessions_df conversions_df)
    api_token 100 tr = (Raise e, tr') ->
  run_pipeline env api_token false tr =
  (Ok false, tr' ++ [LogError (PipelineError e)]).
Proof.
  intros Hs Hc Hcall.
  unfold run_pipeline, try_except, mbind, lift. rewrite Hs, Hc, Hcall.
  reflexivity.
Qed.

(** C9.  For a positive batch size, the batches are consecutive runs of
    the distinct conversion IDs taken in the order of their first
    occurrence among the flattened records: concatenated they give back
    that list, every batch is non-empty and has at most [max_journeys]
    IDs, every batch but the last has exactly [max_journeys], and there
    are ceil(n / max_journeys) of them.  Every conversion ID is in
    exactly one batch, and the records of a batch are exactly the
    flattened records whose conversion ID is in it, so the records of a
    conversion are never split.  With 250 conversions and batch size 100
    the batches have 100, 100 and 50 IDs.  When no batch is fatal, the
    orchestrator sends one request per batch, in this order, each with
    the records of its batch. *)
Theorem C9_batches_partition_conversions (payload : journey_payload)
  (max_journeys : Z) :
  0 < max_journeys ->
  let fl := flatten_journeys payload in
  let jbc := group_by_conversion fl in
  let conversion_ids := Dict.keys jbc in
  exists bs,
    batches payload max_journeys = Ok bs /\
    conversion_ids = first_occurrences (map fj_conversion_id fl) /\
    NoDup conversion_ids /\
    List.concat bs = conversion_ids /\
    List.length bs = batch_count (List.length conversion_ids) max_journeys /\
    (forall k, (k < List.length bs)%nat ->
               nth k bs [] = chunk (Z.to_nat max_journeys) conversion_ids k /\
               0 < Z.of_nat (List.length (nth k bs [])) <= max_journeys /\
               ((S k < List.length bs)%nat ->
                Z.of_nat (List.length (nth k bs [])) = max_journeys)) /\
    (forall cid, In cid conversion_ids ->
                 exists k, (k < List.length bs)%nat /\ In cid (nth k bs []) /\
                           forall k', In cid (nth k' bs []) -> k' = k) /\
    (forall b r, In b bs ->
                 (In r (batch_journeys_of jbc b) <->
                  In r fl /\ In (fj_conversion_id r) b)) /\
    (List.length conversion_ids = 250%nat -> max_journeys = 100 ->
     map (@List.length string) bs = [100; 100; 50]%nat) /\
    (forall (post : service) api_token tr,
        none_fatal_before post api_token jbc 0 (List.length bs) bs ->
        exists table evs,
          call_ihc_api_batched post payload api_token max_journeys tr =
          (Ok table, tr ++ evs) /\
          posts evs = requests_from api_token jbc 0 bs).
Proof.
  intros Hmax fl jbc ids.
  set (b := Z.to_nat max_journeys).
  set (m := batch_count (List.length ids) max_journeys).
  destruct (batch_count_bounds (List.length ids) max_journeys Hmax)
    as [Hcover Hstart]. fold b m in Hcover, Hstart.
  assert (Hids : ids = first_occurrences (map fj_conversion_id fl))
    by apply keys_group_by_conversion.
  assert (Hnd : NoDup ids) by (rewrite Hids; apply NoDup_first_occurrences).
  assert (Hcat : List.concat (map (chunk b ids) (seq 0 m)) = ids)
    by (rewrite concat_chunks; now apply firstn_all2).
  assert (Hlen : List.length (map (chunk b ids) (seq 0 m)) = m)
    by now rewrite length_map, length_seq.
  assert (Hnth : forall k, (k < m)%nat ->
                           nth k (map (chunk b ids) (seq 0 m)) [] =
                           chunk b ids k).
  { intros k Hk.
    rewrite (nth_indep _ [] (chunk b ids 0)) by (rewrite Hlen; exact Hk).
    rewrite map_nth, seq_nth by exact Hk. reflexivity. }
  exists (map (chunk b ids) (seq 0 m)).
  split; [apply (batches_chunks payload max_journeys Hmax)|].
  split; [exact Hids|]. split; [exact Hnd|]. split; [exact Hcat|].
  split; [exact Hlen|]. rewrite Hlen.
  split; [|split; [|split; [|split]]].
  - intros k Hk. rewrite (Hnth k Hk), length_chunk.
    pose proof (Hstart k Hk) as Hks.
    split; [reflexivity|]. split; [subst b; lia|].
    intros HSk. pose proof (Hstart (S k) HSk) as HSks.
    simpl in HSks. subst b. lia.
  - intros cid Hcid. rewrite <- Hcat in Hcid.
    apply in_concat in Hcid as [c [Hc Hin]].
    apply (In_nth _ _ []) in Hc as [k [Hk <-]]. rewrite Hlen in Hk.
    exists k. split; [exact Hk|]. split; [exact Hin|].
    intros k' Hk'.
    apply (NoDup_concat_unique (map (chunk b ids) (seq 0 m)) cid);
      [now rewrite Hcat | exact Hk' | exact Hin].
  - intros c r _. unfold jbc. rewrite batch_journeys_of_records, in_flat_map.
    unfold records_of. split.
    + intros [cid [Hcid Hr]]. apply filter_In in Hr as [Hr Heq].
      apply String.eqb_eq in Heq. subst cid. auto.
    + intros [Hr Hc]. exists (fj_conversion_id r). split; [exact Hc|].
      apply filter_In. split; [exact Hr | apply String.eqb_refl].
  - intros H250 H100. subst m b. rewrite H250, H100.
    change (batch_count 250 100) with 3%nat.
    change (Z.to_nat 100) with 100%nat.
    simpl map. rewrite !length_chunk, H250. reflexivity.
  - intros post api_token tr Hnone.
    rewrite (call_ihc_api_batched_loop _ _ _ _ _ tr
               (batches_chunks payload max_journeys Hmax)).
    fold ids b m. apply batch_loop_none_fatal. now rewrite Hlen.
Qed.

Lemma C9_witness :
  exists bs,
    batches payload_250 100 = Ok bs /\
    map (@List.length string) bs = [100; 100; 50]%nat /\
    List.concat bs =
    Dict.keys (group_by_conversion (flatten_journeys payload_250)).
Proof.
  destruct (C9_batches_partition_conversions payload_250 100 ltac:(lia))
    as [bs [Hb [_ [_ [Hcat [_ [_ [_ [_ [H250 _]]]]]]]]]].
  exists bs. split; [exact Hb|]. split; [|exact Hcat].
  apply H250; [vm_compute; reflexivity | reflexivity].
Defined.

(** ** The orchestrator: failures *)

(** C3, refuted as stated: with two batches, HTTP status 500 for the
    first makes the orchestrator raise; it returns no table and never
    sends the second batch. *)
Lemma C3_counterexample :
  batches two_conversion_payload 1 = Ok [["c1"]; ["c2"]]%string /\
  fst (call_ihc_api_batched http_500_first two_conversion_payload "token" 1 [])
  = Raise (RequestException (HTTPError 500)) /\
  map fst
    (posts (snd (call_ihc_api_batched http_500_first two_conversion_payload
                   "token" 1 []))) = [0%nat].
Proof. repeat split. Qed.

(** C3, amended.  When the response to a batch has an HTTP status from
    400 to 599 (and no earlier batch was fatal), the orchestrator logs
    the error and raises it again: the call ends with that exception
    instead of a table, and no later batch is sent. *)
Theorem C3_http_error_status_is_fatal (post : service)
  (payload : journey_payload) (api_token : string) (max_journeys : Z)
  (bs : list (list string)) (j : nat) (b : list string) (r : response)
  (tr : list event) :
  let jbc := group_by_conversion (flatten_journeys payload) in
  batches payload max_journeys = Ok bs ->
  nth_error bs j = Some b ->
  post j (request_of api_token jbc b) = PostReturns r ->
  400 <= status_code r < 600 ->
  none_fatal_before post api_token jbc 0 j bs ->
  exists evs,
    call_ihc_api_batched post payload api_token max_journeys tr =
    (Raise (RequestException (HTTPError (status_code r))),
     tr ++ evs ++ [Posted j (request_of api_token jbc b);
                   LogError (BatchCallError (HTTPError (status_code r)))]) /\
    map fst (posts evs) = seq 0 j /\
    no_save evs.
Proof.
  intros jbc Hb Hnth Hpost Hstatus Hbefore.
  rewrite (call_ihc_api_batched_loop _ _ _ _ bs tr Hb).
  assert (Hv : verdict (post (0 + j)%nat (request_of api_token jbc b)) =
               Fatal (HTTPError (status_code r))).
  { simpl. rewrite Hpost. unfold verdict.
    destruct (Z.leb_spec 400 (status_code r)); [|lia].
    destruct (Z.ltb_spec (status_code r) 600); [|lia]. reflexivity. }
  destruct (batch_loop_fatal post api_token jbc bs j 0 Dict.empty tr b _
              Hnth Hv Hbefore) as [evs [Hrun [Hns Hposts]]].
  exists evs. simpl in Hrun. auto.
Qed.

Lemma C3_witness :
  exists evs,
    call_ihc_api_batched http_500_first two_conversion_payload "token" 1 [] =
    (Raise (RequestException (HTTPError 500)),
     [] ++ evs ++
     [Posted 0 (request_of "token"
                  (group_by_conversion (flatten_journeys two_conversion_payload))
                  ["c1"%string]);
      LogError (BatchCallError (HTTPError 500))]) /\
    map fst (posts evs) = seq 0 0 /\
    no_save evs.
Proof.
  apply (C3_http_error_status_is_fatal http_500_first two_conversion_payload
           "token" 1 [["c1"]; ["c2"]]%string 0 ["c1"%string]
           {| status_code := 500; json := None |} []).
  - reflexivity.
  - reflexivity.
  - reflexivity.
  - simpl. lia.
  - intros j' b' Hj. lia.
Defined.

(** C4.  A transport failure of a batch request (no connection, timeout)
    is fatal.  If the request of batch [j] fails so and no earlier batch
    was fatal, the orchestrator logs the error and raises it again:
    exactly the batches 0 to [j] were sent and no later one.  And a
    pipeline run whose batched call raises returns [false] without
    reaching [save_attribution_results]: what it appends to the trace
    holds no save, so the stored attribution rows are as before. *)
Theorem C4_transport_failure_is_fatal :
  (forall (post : service) payload api_token max_journeys bs j b f tr,
      let jbc := group_by_conversion (flatten_journeys payload) in
      batches payload max_journeys = Ok bs ->
      nth_error bs j = Some b ->
      post j (request_of api_token jbc b) = PostFails f ->
      none_fatal_before post api_token jbc 0 j bs ->
      exists evs,
        call_ihc_api_batched post payload api_token max_journeys tr =
        (Raise (RequestException (transport_error f)),
         tr ++ evs ++ [Posted j (request_of api_token jbc b);
                       LogError (BatchCallError (transport_error f))]) /\
        map fst (posts evs) = seq 0 j /\
        no_save evs) /\
  (forall env api_token sessions_df conversions_df e tr tr',
      env_sessions env = Ok sessions_df ->
      env_conversions env = Ok conversions_df ->
      call_ihc_api_batched (env_post env)
        (build_customer_journeys (env_all_users env) sessions_df
           conversions_df) api_token 100 tr = (Raise e, tr') ->
      exists evs,
        run_pipeline env api_token false tr = (Ok false, tr ++ evs) /\
        no_save evs /\
        forall before, persisted before (tr ++ evs) = persisted before tr).
Proof.
  split.
  - intros post payload api_token max_journeys bs j b f tr jbc
      Hb Hnth Hpost Hbefore.
    rewrite (call_ihc_api_batched_loop _ _ _ _ bs tr Hb).
    assert (Hv : verdict (post (0 + j)%nat (request_of api_token jbc b)) =
                 Fatal (transport_error f))
      by (simpl; now rewrite Hpost).
    destruct (batch_loop_fatal post api_token jbc bs j 0 Dict.empty tr b _
                Hnth Hv Hbefore) as [evs [Hrun [Hns Hposts]]].
    exists evs. simpl in Hrun. auto.
  - intros env api_token sessions_df conversions_df e tr tr' Hs Hc Hcall.
    destruct (call_ihc_api_batched_trace (env_post env)
                (build_customer_journeys (env_all_users env) sessions_df
                   conversions_df) api_token 100 tr)
      as [res [evs [Hrun Hns]]].
    rewrite Hcall in Hrun. injection Hrun as _ ->.
    exists (evs ++ [LogError (PipelineError e)]).
    assert (Hns' : no_save (evs ++ [LogError (PipelineError e)]))
      by (apply no_save_app; split; [assumption | reflexivity]).
    split; [|split].
    + rewrite app_assoc.
      now apply (run_pipeline_batched_raises env api_token sessions_df
                   conversions_df).
    + exact Hns'.
    + intros before. rewrite persisted_app. now apply persisted_no_save.
Qed.

Lemma C4_witness :
  (exists evs,
      call_ihc_api_batched timeout_second two_conversion_payload "token" 1 [] =
      (Raise (RequestException Timeout),
       [] ++ evs ++
       [Posted 1 (request_of "token"
                    (group_by_conversion
                       (flatten_journeys two_conversion_payload))
                    ["c2"%string]);
        LogError (BatchCallError Timeout)]) /\
      map fst (posts evs) = seq 0 1 /\ no_save evs) /\
  (exists evs,
      run_pipeline timeout_environment "token" false [] = (Ok false, [] ++ evs) /\
      no_save evs /\
      forall before, persisted before ([] ++ evs) = persisted before []).
Proof.
  destruct C4_transport_failure_is_fatal as [Hcall Hrun]. split.
  - apply (Hcall timeout_second two_conversion_payload "token"%string 1
             [["c1"]; ["c2"]]%string 1%nat ["c2"%string] TimedOut []).
    + reflexivity.
    + reflexivity.
    + reflexivity.
    + intros j' b' Hj Hn e'.
      destruct j' as [|j']; [|lia].
      injection Hn as <-. vm_compute. discriminate.
  - apply (Hrun timeout_environment "token"%string sample_sessions_df
             sample_conversions_df (RequestException Timeout) []
             (snd (call_ihc_api_batched (env_post timeout_environment)
                     (build_customer_journeys
                        (env_all_users timeout_environment)
                        sample_sessions_df sample_conversions_df)
                     "token" 100 []))).
    + reflexivity.
    + reflexivity.
    + reflexivity.
Defined.

(** ** Reconciliation *)

Lemma reconcile_session_keys (cid : string) (t : attribution_table)
  (sd : session_entry) (x : string) :
  Dict.mem (reconcile_session cid t sd) x = true ->
  Dict.mem t x = true \/ x = cid.
Proof.
  unfold reconcile_session.
  destruct (se_session_id sd) as [sid|]; [|auto].
  destruct (truthy (Some sid) && negb (prefix "conversion_" sid))%bool;
    [|auto].
  intros H. now apply mem_set in H.
Qed.

Lemma reconcile_sessions_keys (cid : string) (l : list session_entry)
  (x : string) :
  forall t,
    Dict.mem (fold_left (reconcile_session cid) l t) x = true ->
    Dict.mem t x = true \/ x = cid.
Proof.
  induction l as [|sd l IH]; intros t H; simpl in H; [auto|].
  apply IH in H as [H|H]; [|auto].
  now apply reconcile_session_keys in H.
Qed.

Lemma reconcile_conversion_keys (t : attribution_table)
  (cd : conversion_entry) (x : string) :
  Dict.mem (reconcile_conversion t cd) x = true ->
  Dict.mem t x = true \/ ce_conversion_id cd = Some x.
Proof.
  unfold reconcile_conversion.
  destruct (ce_conversion_id cd) as [cid|]; [|auto].
  destruct (negb (truthy (Some cid))); [auto|].
  intros H. apply reconcile_sessions_keys in H as [H| ->]; [|auto].
  apply mem_ensure in H as [H| ->]; auto.
Qed.

Lemma reconcile_keys (v : list conversion_entry) (x : string) :
  forall t,
    Dict.mem (reconcile t v) x = true ->
    Dict.mem t x = true \/
    exists cd, In cd v /\ ce_conversion_id cd = Some x.
Proof.
  unfold reconcile.
  induction v as [|cd v IH]; intros t H; simpl in H; [auto|].
  apply IH in H as [H|[cd' [Hin Hcd']]].
  - apply reconcile_conversion_keys in H as [H|H]; [auto|].
    right. exists cd. split; [now left | assumption].
  - right. exists cd'. split; [now right | assumption].
Qed.

Lemma batches_no_duplicates (payload : journey_payload) (max_journeys : Z) :
  0 < max_journeys ->
  exists bs, batches payload max_journeys = Ok bs /\ NoDup (List.concat bs).
Proof.
  intros Hmax. eexists. split; [apply (batches_chunks _ _ Hmax)|].
  rewrite concat_chunks, firstn_all2
    by apply (batch_count_bounds _ max_journeys Hmax).
  rewrite keys_group_by_conversion. apply NoDup_first_occurrences.
Qed.

(** ** Worked examples *)

(** The three sample sessions before the conversion at 12:00 get the raw
    weights 1/3 * 1.3 * 1.0, 2/3 * 1.2 * 1.5 and 3/3 * 0.8 * 1.7, each
    divided by their sum. *)
Example call_ihc_api_test_sample :
  exists w1 w2 w3,
    call_ihc_api_test sample_payload =
      Ok [("c1", [("s1", w1); ("s2", w2); ("s3", w3)])] /\
    (w1 == (1 / 3 * 1.3 * 1.0) / (1 / 3 * 1.3 + 2 / 3 * 1.2 * 1.5 + 0.8 * 1.7))%Q /\
    (w2 == (2 / 3 * 1.2 * 1.5) / (1 / 3 * 1.3 + 2 / 3 * 1.2 * 1.5 + 0.8 * 1.7))%Q /\
    (w3 == (3 / 3 * 0.8 * 1.7) / (1 / 3 * 1.3 + 2 / 3 * 1.2 * 1.5 + 0.8 * 1.7))%Q /\
    (w1 + w2 + w3 == 1)%Q.
Proof.
  do 3 eexists. split; [vm_compute; reflexivity|].
  repeat split; vm_compute; reflexivity.
Qed.

(** Rows that differ only below the second: the builder retains the
    conversion, since a session precedes it by 800 milliseconds, but the
    formatted timestamps are equal, so the heuristic engine finds no
    eligible session and leaves an empty entry. *)
Example sub_second_rows_give_empty_entry :
  let payload :=
    build_customer_journeys ["u1"%string]
      [sample_row "s1" "u1" 43200100000000]
      [sample_crow "c1" "u1" 43200900000000] in
  Dict.mem (get_default (users payload) Dict.empty) "u1" = true /\
  call_ihc_api_test payload = Ok [("c1", [])].
Proof. split; reflexivity. Qed.

(** With a batch size of zero [range] raises before any request is sent;
    with a negative one there is no batch at all. *)
Example batches_without_positive_size :
  batches two_conversion_payload 0 = Raise ValueError /\
  batches two_conversion_payload (-1) = Ok [].
Proof. split; reflexivity. Qed.

(** * Further properties *)

(** ** The heuristic engine: keys and weights *)

Lemma in_scoring_pairs (payload : journey_payload) (ss : list session)
  (c : conversion) :
  In (ss, c) (scoring_pairs payload) <->
  exists item, In item (get_default (users payload) Dict.empty) /\
               ss = get_default (sessions (snd item)) [] /\
               ss <> [] /\
               In c (get_default (conversions (snd item)) []).
Proof.
  unfold scoring_pairs. rewrite in_flat_map. split.
  - intros [item [Hitem Hin]]. exists item. split; [exact Hitem|].
    destruct (py_not (get_default (sessions (snd item)) [])) eqn:Es;
      [destruct Hin|].
    destruct (py_not (get_default (conversions (snd item)) [])) eqn:Ec;
      [destruct Hin|].
    simpl in Hin. apply in_map_iff in Hin as [c' [[= <- <-] Hc]].
    apply py_not_false_iff in Es. auto.
  - intros [item [Hitem [-> [Hne Hc]]]]. exists item. split; [exact Hitem|].
    apply py_not_false_iff in Hne. rewrite Hne.
    destruct (py_not (get_default (conversions (snd item)) [])) eqn:Ec.
    + apply py_not_true_iff in Ec. rewrite Ec in Hc. destruct Hc.
    + simpl. apply in_map_iff. eauto.
Qed.

(** X1.  The heuristic engine returns a table whose keys are exactly the
    conv_ids of the scored conversions, those of the users that have at
    least one session and one conversion; users without sessions or
    without conversions, and a payload without users, add no key. *)
Theorem X1_heuristic_table_keys (payload : journey_payload) :
  exists table,
    call_ihc_api_test payload = Ok table /\
    forall cid,
      Dict.mem table cid = true <->
      exists ss c, In (ss, c) (scoring_pairs payload) /\ conv_id c = cid.
Proof.
  destruct (call_ihc_api_test_ok payload) as [table [Hcall _]].
  exists table. split; [exact Hcall|]. intros cid.
  rewrite (call_ihc_api_test_keys payload table Hcall cid). split.
  - intros [item [Hitem [Hss [c [Hc ->]]]]].
    exists (get_default (sessions (snd item)) []), c. split; [|reflexivity].
    apply in_scoring_pairs. exists item. auto.
  - intros [ss [c [Hin <-]]].
    apply in_scoring_pairs in Hin as [item [Hitem [-> [Hne Hc]]]].
    exists item. split; [exact Hitem|]. split; [exact Hne|]. eauto.
Qed.

Lemma set_absent {V : Type} (d : Dict.t V) (k : string) (v : V) :
  Dict.get d k = None -> Dict.set d k v = d ++ [(k, v)].
Proof.
  induction d as [|[k' v'] d IH]; simpl; [reflexivity|].
  destruct (String.eqb k' k); [discriminate|].
  intros H. now rewrite IH.
Qed.

Lemma set_last {V : Type} (d : Dict.t V) (k : string) (v v' : V) :
  Dict.get d k = None -> Dict.set (d ++ [(k, v)]) k v' = d ++ [(k, v')].
Proof.
  induction d as [|[k0 v0] d IH]; simpl.
  - now rewrite String.eqb_refl.
  - destruct (String.eqb k0 k); [discriminate|].
    intros H. now rewrite IH.
Qed.

Lemma get_app_absent {V : Type} (d : Dict.t V) (k k' : string) (v : V) :
  k <> k' -> Dict.get (d ++ [(k, v)]) k' = Dict.get d k'.
Proof.
  intros Hne. induction d as [|[k0 v0] d IH]; simpl.
  - destruct (String.eqb_spec k k'); congruence.
  - now rewrite IH.
Qed.

Lemma raw_loop_fresh (total_sessions : nat) (l : list session) :
  forall i d,
    NoDup (map session_id l) ->
    (forall s, In s l -> Dict.get d (session_id s) = None) ->
    raw_loop total_sessions i l d = d ++ raw_entries total_sessions i l.
Proof.
  unfold raw_entries.
  induction l as [|s l IH]; intros i d Hnd Hd; simpl.
  - now rewrite app_nil_r.
  - inversion Hnd as [|? ? Hnotin Hnd']; subst.
    rewrite (set_absent d) by (apply Hd; now left).
    rewrite IH; [now rewrite <- app_assoc | exact Hnd'|].
    intros s' Hs'. rewrite get_app_absent.
    + apply Hd. now right.
    + intros Heq. apply Hnotin. rewrite Heq. now apply in_map.
Qed.

Lemma raw_entries_all_pos (total_sessions : nat) (l : list session) (i : nat) :
  (0 < total_sessions)%nat -> all_pos (raw_entries total_sessions i l).
Proof.
  intros HN. unfold all_pos, raw_entries. rewrite Forall_map.
  apply Forall_forall. intros p _. simpl. now apply raw_weight_pos.
Qed.

Lemma score_conversion_fresh (sessions : list session)
  (table : attribution_table) (c : conversion) :
  let E := eligible_sessions sessions (strptime (conv_timestamp c)) in
  let raw := raw_entries (List.length E) 0 E in
  let total := py_sum (Dict.values raw) in
  Dict.mem table (conv_id c) = false ->
  E <> [] ->
  NoDup (map session_id E) ->
  (0 < total)%Q /\
  score_conversion sessions table c =
    Ok (table ++ [(conv_id c, scaled total raw)]).
Proof.
  intros E raw total Hmem Hne Hnd.
  assert (Hget : Dict.get table (conv_id c) = None).
  { unfold Dict.mem in Hmem. now destruct (Dict.get table (conv_id c)). }
  assert (HN : (0 < List.length E)%nat).
  { destruct E; [congruence | simpl; lia]. }
  assert (Hraw : raw <> []).
  { subst raw. unfold raw_entries. destruct E; [congruence | discriminate]. }
  assert (Htotal : (0 < total)%Q).
  { apply all_pos_sum_pos; [now apply raw_entries_all_pos | exact Hraw]. }
  split; [exact Htotal|].
  unfold score_conversion. fold E.
  apply py_not_false_iff in Hne. rewrite Hne.
  unfold Dict.ensure. rewrite Hmem, (set_absent table) by exact Hget.
  unfold raw_scores. fold E.
  replace (Dict.get (table ++ [(conv_id c, Dict.empty)]) (conv_id c))
    with (Some (@Dict.empty Q)).
  - simpl get_default. rewrite raw_loop_fresh; [| exact Hnd | reflexivity].
    simpl app. fold raw. fold total.
    rewrite normalize_nonzero by lra. simpl.
    now rewrite set_last.
  - symmetry. rewrite <- (set_absent table) by exact Hget.
    apply DictFacts.get_set_same.
Qed.

(** X2.  For a conversion whose conv_id is not yet in the table and
    whose eligible sessions have distinct session_ids, the engine appends
    one entry for the conversion; it lists the eligible sessions in
    their order, the i-th with its raw weight divided by the sum of all
    the raw weights, and that sum is positive. *)
Theorem X2_fresh_conversion_normalized_weights (sessions : list session)
  (table : attribution_table) (c : conversion) :
  let E := eligible_sessions sessions (strptime (conv_timestamp c)) in
  let raw := raw_entries (List.length E) 0 E in
  let total := py_sum (Dict.values raw) in
  Dict.mem table (conv_id c) = false ->
  E <> [] ->
  NoDup (map session_id E) ->
  (0 < total)%Q /\
  score_conversion sessions table c =
    Ok (table ++ [(conv_id c, scaled total raw)]) /\
  Dict.keys (scaled total raw) = map session_id E.
Proof.
  intros E raw total Hmem Hne Hnd.
  destruct (score_conversion_fresh sessions table c Hmem Hne Hnd)
    as [Htotal Hrun].
  split; [exact Htotal|]. split; [exact Hrun|].
  subst raw. unfold scaled, raw_entries, Dict.keys.
  rewrite !map_map. simpl.
  clear. generalize 0%nat. induction E as [|s l IH]; intros i; simpl.
  - reflexivity.
  - now rewrite IH.
Qed.

Lemma X2_witness :
  score_conversion sample_sessions Dict.empty sample_c1 =
  Ok ([] ++ [("c1",
              scaled (py_sum (Dict.values (raw_entries 3 0 sample_sessions)))
                (raw_entries 3 0 sample_sessions))]).
Proof.
  apply (X2_fresh_conversion_normalized_weights sample_sessions Dict.empty
           sample_c1).
  - reflexivity.
  - discriminate.
  - repeat constructor; simpl; intuition discriminate.
Defined.

(** X3.  A conversion with exactly one eligible session, scored into a
    table that does not hold its conv_id, gives that session the whole
    credit: its weight is 1 whatever its channel and engagement. *)
Theorem X3_single_eligible_session_full_credit (sessions : list session)
  (table : attribution_table) (c : conversion) (s : session) :
  eligible_sessions sessions (strptime (conv_timestamp c)) = [s] ->
  Dict.mem table (conv_id c) = false ->
  exists w,
    score_conversion sessions table c =
      Ok (table ++ [(conv_id c, [(session_id s, w)])]) /\
    (w == 1)%Q.
Proof.
  intros HE Hmem.
  pose proof (score_conversion_fresh sessions table c Hmem) as H.
  rewrite HE in H. cbv zeta in H.
  destruct H as [Htotal Hrun]; [discriminate | repeat constructor; auto|].
  eexists. split; [exact Hrun|]. simpl.
  unfold raw_entries in Htotal. simpl in Htotal.
  unfold py_sum in *. simpl in *. field. lra.
Qed.

Lemma X3_witness :
  exists w,
    score_conversion [sample_s1] Dict.empty sample_c1 =
      Ok ([] ++ [("c1", [("s1", w)])]) /\ (w == 1)%Q.
Proof.
  apply (X3_single_eligible_session_full_credit [sample_s1] Dict.empty
           sample_c1 sample_s1); reflexivity.
Defined.

Lemma recency_weight_lt (i j total_sessions : nat) :
  (i < j)%nat -> (0 < total_sessions)%nat ->
  (recency_weight i total_sessions < recency_weight j total_sessions)%Q.
Proof.
  intros Hij HN. unfold recency_weight, Qdiv.
  apply Qmult_lt_compat_r.
  - apply Qinv_lt_0_compat, inject_Z_of_nat_pos, HN.
  - rewrite <- Zlt_Qlt. lia.
Qed.

(** X4.  Among the eligible sessions of a conversion the recency factor
    grows strictly with the position and is 1 for the last one; so of
    two sessions with the same channel weight and the same engagement
    flags the later one gets the strictly larger raw weight. *)
Theorem X4_later_sessions_weigh_more (i j total_sessions : nat)
  (s s' : session) :
  (i < j)%nat -> (j < total_sessions)%nat ->
  channel_weight (channel s) = channel_weight (channel s') ->
  holder_engagement s = holder_engagement s' ->
  closer_engagement s = closer_engagement s' ->
  (recency_weight i total_sessions < recency_weight j total_sessions)%Q /\
  (recency_weight (total_sessions - 1) total_sessions == 1)%Q /\
  (raw_weight i total_sessions s < raw_weight j total_sessions s')%Q.
Proof.
  intros Hij HjN Hch Hh Hc.
  assert (HN : (0 < total_sessions)%nat) by lia.
  pose proof (recency_weight_lt i j total_sessions Hij HN) as Hrec.
  split; [exact Hrec|]. split.
  - unfold recency_weight.
    replace (Z.of_nat (total_sessions - 1) + 1) with (Z.of_nat total_sessions)
      by lia.
    field. pose proof (inject_Z_of_nat_pos _ HN). lra.
  - unfold raw_weight. rewrite Hch.
    assert (He : engagement_weight s = engagement_weight s')
      by (unfold engagement_weight; now rewrite Hh, Hc).
    rewrite He.
    pose proof (channel_weight_bounds (channel s')) as [Hcw _].
    pose proof (engagement_weight_bounds s') as [Hew _].
    apply Qmult_lt_compat_r; [lra|].
    apply Qmult_lt_compat_r; [lra | exact Hrec].
Qed.

Lemma X4_witness :
  (raw_weight 0 3 sample_s1 < raw_weight 2 3 sample_s1)%Q.
Proof.
  apply (X4_later_sessions_weigh_more 0 2 3 sample_s1 sample_s1);
    try reflexivity; lia.
Defined.

Lemma all_pos_entry_le_sum (d : Dict.t Q) (k : string) (w : Q) :
  all_pos d -> In (k, w) d -> (w <= py_sum (Dict.values d))%Q.
Proof.
  induction 1 as [|[k0 w0] d Hw0 Hd IH]; simpl; [tauto|].
  rewrite py_sum_cons. simpl in Hw0.
  pose proof (all_pos_sum_nonneg d Hd) as Hsum.
  intros [[= -> ->]|Hin].
  - lra.
  - specialize (IH Hin). lra.
Qed.

(** X5.  Every weight of the table returned by the heuristic engine is
    at most 1. *)
Theorem X5_weights_at_most_one (payload : journey_payload) :
  exists table,
    call_ihc_api_test payload = Ok table /\
    forall cid d sid w,
      Dict.get table cid = Some d -> Dict.get d sid = Some w ->
      (w <= 1)%Q.
Proof.
  destruct (call_ihc_api_test_ok payload) as [table [Hcall Hok]].
  exists table. split; [exact Hcall|].
  intros cid d sid w Hd Hw.
  destruct (table_ok_get _ _ _ Hok Hd) as [Hall [->|Hsum]]; [discriminate|].
  rewrite <- Hsum. apply (all_pos_entry_le_sum d sid w Hall).
  now apply DictFacts.get_some_in.
Qed.

(** ** The journey builder: order of the users, whole seconds *)

(** X6.  The journey stored for a user does not depend on the order in
    which the set of users is visited, nor on repetitions: two
    enumerations of the same users give the same lookup for every user. *)
Theorem X6_journeys_independent_of_visit_order (users1 users2 : list string)
  (sessions_df : list session_row) (conversions_df : list conversion_row) :
  (forall u, In u users1 <-> In u users2) ->
  forall u,
    Dict.get (get_default
                (users (build_customer_journeys users1 sessions_df
                          conversions_df)) Dict.empty) u =
    Dict.get (get_default
                (users (build_customer_journeys users2 sessions_df
                          conversions_df)) Dict.empty) u.
Proof.
  intros Hsame u. simpl. rewrite !get_build_users.
  destruct (journey_of sessions_df conversions_df u); [|reflexivity].
  destruct (in_dec string_dec u users1) as [H1|H1],
           (in_dec string_dec u users2) as [H2|H2];
    try reflexivity; exfalso; [apply H2 | apply H1]; now apply Hsame.
Qed.

Lemma X6_witness :
  Dict.get (get_default
              (users (build_customer_journeys ["u1"; "u2"]%string
                        sample_sessions_df sample_conversions_df))
              Dict.empty) "u1" =
  Dict.get (get_default
              (users (build_customer_journeys ["u2"; "u1"; "u2"]%string
                        sample_sessions_df sample_conversions_df))
              Dict.empty) "u1".
Proof.
  apply X6_journeys_independent_of_visit_order.
  intros u. simpl. tauto.
Defined.


Lemma strftime_lt_whole_seconds (a b : Timestamp) :
  a mod 1000000000 = 0 -> b mod 1000000000 = 0 -> a < b ->
  strftime a < strftime b.
Proof.
  unfold strftime. intros Ha Hb Hlt.
  pose proof (Z.div_mod a 1000000000 ltac:(lia)).
  pose proof (Z.div_mod b 1000000000 ltac:(lia)).
  lia.
Qed.

Lemma journey_of_fields (sessions_df : list session_row)
  (conversions_df : list conversion_row) (u : string) (j : user_data) :
  journey_of sessions_df conversions_df u = Some j ->
  sessions j = Some (map session_dict (user_sessions_of sessions_df u)) /\
  conversions j =
    Some (map conversion_dict
            (retained_conversions sessions_df conversions_df u)).
Proof.
  unfold journey_of.
  destruct (user_sessions_of sessions_df u); [discriminate|].
  destruct (retained_conversions sessions_df conversions_df u);
    [discriminate|].
  intros [= <-]. split; reflexivity.
Qed.



(** ** The flattener and the grouping: structure *)

Lemma flat_map_flat_map {A B C : Type} (f : B -> list C) (g : A -> list B)
  (l : list A) :
  flat_map f (flat_map g l) = flat_map (fun x => flat_map f (g x)) l.
Proof.
  induction l as [|x l IH]; simpl; [reflexivity|].
  now rewrite flat_map_app, IH.
Qed.

Lemma flat_map_map {A B C : Type} (f : B -> list C) (g : A -> B)
  (l : list A) :
  flat_map f (map g l) = flat_map (fun x => f (g x)) l.
Proof.
  induction l as [|x l IH]; simpl; [reflexivity | now rewrite IH].
Qed.

Lemma flatten_journeys_pairs (payload : journey_payload) :
  flatten_journeys payload =
  flat_map (fun p => conversion_records (fst p) (snd p))
    (scoring_pairs payload).
Proof.
  rewrite flatten_journeys_records. unfold scoring_pairs.
  rewrite flat_map_flat_map. apply flat_map_ext. intros item.
  unfold user_records.
  destruct (py_not _ || py_not _)%bool; [reflexivity|].
  now rewrite flat_map_map.
Qed.

Lemma synthetic_count_conversion_records (ss : list session) (c : conversion) :
  List.length (filter (fun r => fj_conversion r =? 1)
                 (conversion_records ss c)) = 1%nat.
Proof.
  unfold conversion_records. rewrite filter_app. simpl.
  rewrite length_app. simpl.
  induction (eligible_sessions ss (strptime (conv_timestamp c)))
    as [|s l IH]; simpl; [reflexivity | exact IH].
Qed.

(** X8.  The flattened records are, for each scored conversion in the
    order of the payload, the records of its eligible sessions in their
    order followed by one synthetic record of the conversion itself; so
    there is exactly one synthetic record per scored conversion, also
    for a conversion without eligible session, and the number of records
    is the number of scored conversions plus the number of their
    eligible sessions. *)
Theorem X8_flattened_records_structure (payload : journey_payload) :
  flatten_journeys payload =
    flat_map (fun p =>
                map (flattened_session (conv_id (snd p)))
                  (eligible_sessions (fst p)
                     (strptime (conv_timestamp (snd p))))
                ++ [conversion_session (snd p)])
      (scoring_pairs payload) /\
  List.length (filter (fun r => fj_conversion r =? 1)
                 (flatten_journeys payload)) =
    List.length (scoring_pairs payload) /\
  List.length (flatten_journeys payload) =
    (List.length (scoring_pairs payload) +
     List.length
       (flat_map (fun p => eligible_sessions (fst p)
                             (strptime (conv_timestamp (snd p))))
          (scoring_pairs payload)))%nat.
Proof.
  rewrite flatten_journeys_pairs. split; [reflexivity|].
  induction (scoring_pairs payload) as [|p l [IH1 IH2]]; simpl.
  - split; reflexivity.
  - rewrite filter_app, !length_app, IH1, IH2,
      synthetic_count_conversion_records.
    split; [reflexivity|].
    unfold conversion_records. rewrite length_app, length_map. simpl. lia.
Qed.

Lemma in_conversion_ids_iff (payload : journey_payload) (cid : string) :
  In cid (Dict.keys (group_by_conversion (flatten_journeys payload))) <->
  exists ss c, In (ss, c) (scoring_pairs payload) /\ conv_id c = cid.
Proof.
  rewrite keys_group_by_conversion, in_first_occurrences, in_map_iff,
    flatten_journeys_pairs.
  split.
  - intros [r [Hcid Hr]]. apply in_flat_map in Hr as [[ss c] [Hp Hr]].
    exists ss, c. split; [exact Hp|]. simpl in Hr.
    apply in_conversion_records in Hr as [->|[s [_ [_ ->]]]];
      rewrite <- Hcid; reflexivity.
  - intros [ss [c [Hp <-]]]. exists (conversion_session c).
    split; [reflexivity|]. apply in_flat_map. exists (ss, c).
    split; [exact Hp|]. apply in_conversion_records. now left.
Qed.

(** X9.  The two scoring paths cover the same conversions: a conv_id is
    a key of the table returned by the heuristic engine exactly when it
    is one of the conversion IDs the batch orchestrator groups the
    flattened records by, and so submits. *)
Theorem X9_both_paths_cover_same_conversions (payload : journey_payload) :
  exists table,
    call_ihc_api_test payload = Ok table /\
    forall cid,
      Dict.mem table cid = true <->
      In cid (Dict.keys (group_by_conversion (flatten_journeys payload))).
Proof.
  destruct (call_ihc_api_test_ok payload) as [table [Hcall _]].
  exists table. split; [exact Hcall|]. intros cid.
  rewrite in_conversion_ids_iff,
    (call_ihc_api_test_keys payload table Hcall cid).
  split.
  - intros [item [Hitem [Hss [c [Hc ->]]]]].
    exists (get_default (sessions (snd item)) []), c. split; [|reflexivity].
    apply in_scoring_pairs. exists item. auto.
  - intros [ss [c [Hin <-]]].
    apply in_scoring_pairs in Hin as [item [Hitem [-> [Hne Hc]]]].
    exists item. split; [exact Hitem|]. split; [exact Hne|]. eauto.
Qed.

Lemma filter_disjoint_perm {A : Type} (p q : A -> bool) (l : list A) :
  (forall x, p x = true -> q x = true -> False) ->
  Permutation (filter p l ++ filter q l) (filter (fun x => p x || q x)%bool l).
Proof.
  intros Hpq. induction l as [|x l IH]; simpl; [constructor|].
  destruct (p x) eqn:Ep, (q x) eqn:Eq; simpl.
  - exfalso. eauto.
  - now constructor.
  - apply Permutation_sym, Permutation_cons_app, Permutation_sym, IH.
  - exact IH.
Qed.

Lemma filter_all {A : Type} (p : A -> bool) (l : list A) :
  (forall x, In x l -> p x = true) -> filter p l = l.
Proof.
  induction l as [|x l IH]; intros H; simpl; [reflexivity|].
  rewrite (H x (or_introl eq_refl)), IH; [reflexivity|].
  intros y Hy. apply H. now right.
Qed.

Lemma records_grouped_perm (fl : list flattened_journey) (ks : list string) :
  NoDup ks ->
  Permutation (flat_map (records_of fl) ks)
    (filter (fun r => existsb (String.eqb (fj_conversion_id r)) ks) fl).
Proof.
  induction 1 as [|k ks Hnotin Hnd IH]; simpl.
  - induction fl; simpl; [constructor | assumption].
  - eapply Permutation_trans; [apply Permutation_app_head, IH|].
    apply (filter_disjoint_perm
             (fun r => String.eqb (fj_conversion_id r) k)
             (fun r => existsb (String.eqb (fj_conversion_id r)) ks)).
    intros r Hk Hks. apply String.eqb_eq in Hk.
    apply existsb_exists in Hks as [k' [Hin Heq]].
    apply String.eqb_eq in Heq. apply Hnotin. congruence.
Qed.

Lemma flat_map_of_concat {A B : Type} (f : A -> list B) (ls : list (list A)) :
  flat_map (flat_map f) ls = flat_map f (List.concat ls).
Proof.
  induction ls as [|l ls IH]; simpl; [reflexivity|].
  now rewrite flat_map_app, IH.
Qed.

(** X10.  Grouping and batching neither lose nor repeat a record: for a
    positive batch size the records of all the batches together are a
    rearrangement of the flattened records, and within a batch the
    records of one conversion keep their order. *)
Theorem X10_batches_rearrange_records (payload : journey_payload)
  (max_journeys : Z) :
  0 < max_journeys ->
  let fl := flatten_journeys payload in
  let jbc := group_by_conversion fl in
  exists bs,
    batches payload max_journeys = Ok bs /\
    Permutation (flat_map (batch_journeys_of jbc) bs) fl /\
    forall b, batch_journeys_of jbc b =
              flat_map (fun cid =>
                          filter (fun r => String.eqb (fj_conversion_id r) cid)
                            fl) b.
Proof.
  intros Hmax fl jbc.
  eexists. split; [apply (batches_chunks payload max_journeys Hmax)|].
  split; [|intros b; apply batch_journeys_of_records].
  rewrite (flat_map_ext (batch_journeys_of jbc) (flat_map (records_of fl)))
    by (intros b; apply batch_journeys_of_records).
  rewrite flat_map_of_concat, concat_chunks, firstn_all2
    by apply (batch_count_bounds _ max_journeys Hmax).
  fold fl. rewrite keys_group_by_conversion.
  eapply Permutation_trans;
    [apply records_grouped_perm, NoDup_first_occurrences|].
  rewrite filter_all; [reflexivity|].
  intros r Hr. apply existsb_exists. exists (fj_conversion_id r).
  split; [|apply String.eqb_refl].
  apply in_first_occurrences. now apply in_map.
Qed.

Lemma X10_witness :
  exists bs,
    batches two_conversion_payload 1 = Ok bs /\
    Permutation
      (flat_map (batch_journeys_of
                   (group_by_conversion
                      (flatten_journeys two_conversion_payload))) bs)
      (flatten_journeys two_conversion_payload).
Proof.
  destruct (X10_batches_rearrange_records two_conversion_payload 1
              ltac:(lia)) as [bs [Hb [Hperm _]]].
  exists bs. split; assumption.
Defined.

(** ** The orchestrator: what the returned table holds *)

Lemma in_set_inv {V : Type} (d : Dict.t V) (k : string) (v : V)
  (e : string * V) :
  In e (Dict.set d k v) -> In e d \/ e = (k, v).
Proof.
  induction d as [|[k' v'] d IH]; simpl.
  - intros [<-|[]]. now right.
  - destruct (String.eqb_spec k' k) as [->|Hne]; simpl.
    + intros [<-|Hin]; [now right | left; now right].
    + intros [<-|Hin]; [left; now left|].
      destruct (IH Hin); [left; now right | now right].
Qed.

Lemma no_pseudo_sessions_get (t : attribution_table) (cid : string) :
  no_pseudo_sessions t ->
  forall sid, In sid (Dict.keys (get_default (Dict.get t cid) Dict.empty)) ->
              sid <> ""%string /\ prefix "conversion_" sid = false.
Proof.
  intros Ht sid Hin. destruct (Dict.get t cid) as [d|] eqn:E; [|destruct Hin].
  apply DictFacts.get_some_in in E. exact (proj2 (Ht cid d E) sid Hin).
Qed.

Lemma reconcile_session_no_pseudo (cid : string) (t : attribution_table)
  (sd : session_entry) :
  cid <> ""%string -> no_pseudo_sessions t ->
  no_pseudo_sessions (reconcile_session cid t sd).
Proof.
  intros Hcid Ht. unfold reconcile_session.
  destruct (se_session_id sd) as [sid|]; [|exact Ht].
  destruct (truthy (Some sid)) eqn:Etr; [|exact Ht].
  destruct (prefix "conversion_" sid) eqn:Epre; [exact Ht|]. simpl.
  intros cid' d' Hin. apply in_set_inv in Hin as [Hin|[= -> ->]].
  - exact (Ht cid' d' Hin).
  - split; [exact Hcid|]. intros x Hx. apply in_keys_set in Hx as [Hx| ->].
    + exact (no_pseudo_sessions_get t cid Ht x Hx).
    + split; [|exact Epre]. simpl in Etr.
      destruct (String.eqb_spec sid ""); [discriminate | assumption].
Qed.

Lemma reconcile_no_pseudo (t : attribution_table)
  (v : list conversion_entry) :
  no_pseudo_sessions t -> no_pseudo_sessions (reconcile t v).
Proof.
  unfold reconcile. revert t.
  induction v as [|cd v IH]; intros t Ht; simpl; [exact Ht|].
  apply IH. unfold reconcile_conversion.
  destruct (ce_conversion_id cd) as [cid|]; [|exact Ht].
  destruct (truthy (Some cid)) eqn:Etr; [|exact Ht]. simpl.
  assert (Hcid : cid <> ""%string).
  { simpl in Etr. destruct (String.eqb_spec cid ""); [discriminate|assumption]. }
  assert (He : no_pseudo_sessions (Dict.ensure t cid Dict.empty)).
  { unfold Dict.ensure. destruct (Dict.mem t cid); [exact Ht|].
    intros cid' d' Hin. apply in_set_inv in Hin as [Hin|[= -> ->]].
    - exact (Ht cid' d' Hin).
    - split; [exact Hcid | intros x []]. }
  revert He. generalize (Dict.ensure t cid Dict.empty).
  induction (get_default (ce_sessions cd) []) as [|sd l IHl];
    intros t0 Ht0; simpl; [exact Ht0|].
  apply IHl. now apply reconcile_session_no_pseudo.
Qed.

Lemma batch_loop_invariant (P : attribution_table -> Prop) (post : service)
  (api_token : string) (jbc : Dict.t (list flattened_journey))
  (bs : list (list string)) :
  (forall t v, P t -> P (reconcile t v)) ->
  forall k combined tr table tr',
    P combined ->
    batch_loop post api_token jbc k bs combined tr = (Ok table, tr') ->
    P table.
Proof.
  intros Hrec. induction bs as [|b bs IH]; intros k combined tr table tr' HP;
    simpl.
  - unfold ret. now intros [= <- _].
  - unfold mbind. rewrite process_batch_verdict.
    destruct (verdict (post k (request_of api_token jbc b)))
      as [e|r|r|v]; simpl; try discriminate; apply IH; auto.
Qed.

(** X11.  Whatever the service answers, the table returned by the batch
    orchestrator has no empty conv_id as key and, under every conv_id,
    no session key that is empty or starts with "conversion_": the
    synthetic conversion records never get a weight. *)
Theorem X11_no_pseudo_session_in_combined_results (post : service)
  (payload : journey_payload) (api_token : string) (max_journeys : Z)
  (tr tr' : list event) (table : attribution_table) :
  call_ihc_api_batched post payload api_token max_journeys tr
  = (Ok table, tr') ->
  forall cid d,
    In (cid, d) table ->
    cid <> ""%string /\
    forall sid, In sid (Dict.keys d) ->
                sid <> ""%string /\ prefix "conversion_" sid = false.
Proof.
  unfold call_ihc_api_batched, mbind, lift.
  destruct (batches payload max_journeys) as [bs|e]; [|discriminate].
  intros Hrun.
  apply (batch_loop_invariant no_pseudo_sessions _ _ _ _ reconcile_no_pseudo
           _ _ _ _ _ (fun cid d (H : In (cid, d) Dict.empty) =>
                        match H with end) Hrun).
Qed.

Lemma X11_witness :
  "c1"%string <> ""%string /\
  forall sid, In sid (Dict.keys [("s1"%string, 1%Q)]) ->
              sid <> ""%string /\ prefix "conversion_" sid = false.
Proof.
  apply (X11_no_pseudo_session_in_combined_results status_error_second
           two_conversion_payload "token" 1 []
           (snd (call_ihc_api_batched status_error_second
                   two_conversion_payload "token" 1 []))
           [("c1"%string, [("s1"%string, 1%Q)])]).
  - reflexivity.
  - now left.
Defined.

Lemma reconcile_app (t : attribution_table) (v1 v2 : list conversion_entry) :
  reconcile t (v1 ++ v2) = reconcile (reconcile t v1) v2.
Proof. unfold reconcile. apply fold_left_app. Qed.

Lemma batch_loop_scored (post : service) (api_token : string)
  (jbc : Dict.t (list flattened_journey)) (bs : list (list string)) :
  forall k combined tr,
    none_fatal_before post api_token jbc k (List.length bs) bs ->
    exists evs,
      batch_loop post api_token jbc k bs combined tr =
      (Ok (reconcile combined (scored_values post api_token jbc k bs)),
       tr ++ evs).
Proof.
  induction bs as [|b bs IH]; intros k combined tr Hall; simpl.
  - exists []. now rewrite app_nil_r.
  - unfold mbind. rewrite process_batch_verdict.
    pose proof (Hall 0%nat b ltac:(simpl; lia) eq_refl) as Hb.
    rewrite Nat.add_0_r in Hb.
    pose proof (none_fatal_before_tail _ _ _ _ _ _ _ Hall) as Htail.
    destruct (verdict (post k (request_of api_token jbc b)))
      as [e|r|r|v] eqn:Ev; [now contradiction (Hb e)| | |]; simpl;
      match goal with
      | |- context [batch_loop _ _ _ _ _ ?c ?t] =>
          destruct (IH (S k) c t Htail) as [evs Hrun]; rewrite Hrun
      end;
      eexists; rewrite <- app_assoc;
      try rewrite reconcile_app; reflexivity.
Qed.

(** X12.  In a run without a fatal batch the orchestrator returns the
    reconciliation, in batch order, of the values of the batches that
    were scored: a batch answered with a statusCode other than 200, or
    with a body that has neither such a statusCode nor a 'value', adds
    nothing and takes nothing away. *)
Theorem X12_result_is_reconciliation_of_scored_batches (post : service)
  (payload : journey_payload) (api_token : string) (max_journeys : Z)
  (bs : list (list string)) (tr : list event) :
  let jbc := group_by_conversion (flatten_journeys payload) in
  batches payload max_journeys = Ok bs ->
  none_fatal_before post api_token jbc 0 (List.length bs) bs ->
  exists evs,
    call_ihc_api_batched post payload api_token max_journeys tr =
    (Ok (reconcile Dict.empty (scored_values post api_token jbc 0 bs)),
     tr ++ evs).
Proof.
  intros jbc Hb Hnone.
  rewrite (call_ihc_api_batched_loop _ _ _ _ bs tr Hb).
  now apply batch_loop_scored.
Qed.

Lemma X12_witness :
  exists evs,
    call_ihc_api_batched status_error_second two_conversion_payload
      "token" 1 [] =
    (Ok (reconcile Dict.empty (sample_value "c1" "s1" ++ [] ++ [])),
     [] ++ evs).
Proof.
  apply (X12_result_is_reconciliation_of_scored_batches status_error_second
           two_conversion_payload "token" 1 [["c1"]; ["c2"]]%string []).
  - reflexivity.
  - intros j' b' Hj Hn e'.
    destruct j' as [|[|j']]; simpl in Hj; try lia;
      injection Hn as <-; vm_compute; discriminate.
Defined.

(** X13.  Batch sizes that are not positive, and runs without
    conversions: with batch size 0 the orchestrator raises [ValueError]
    before any request, also when there is nothing to send; with a
    negative batch size, or with no scored conversion and a non-zero
    batch size, it returns the empty table without sending a request or
    logging an error. *)
Theorem X13_batch_size_edge_cases (post : service)
  (payload : journey_payload) (api_token : string) (tr : list event) :
  call_ihc_api_batched post payload api_token 0 tr = (Raise ValueError, tr) /\
  (forall max_journeys,
      max_journeys < 0 ->
      call_ihc_api_batched post payload api_token max_journeys tr =
      (Ok Dict.empty, tr)) /\
  (forall max_journeys,
      scoring_pairs payload = [] -> max_journeys <> 0 ->
      call_ihc_api_batched post payload api_token max_journeys tr =
      (Ok Dict.empty, tr)).
Proof.
  assert (Hneg : forall max_journeys,
             max_journeys < 0 -> batches payload max_journeys = Ok []).
  { intros m Hm. unfold batches, py_range.
    destruct (Z.eqb_spec m 0); [lia|].
    destruct (Z.ltb_spec 0 m); [lia|].
    match goal with
    | |- context [Z.to_nat ?q] =>
        assert (Hq : q < 1) by (apply Z.div_lt_upper_bound; lia);
        replace (Z.to_nat q) with 0%nat by lia
    end.
    reflexivity. }
  split; [reflexivity|]. split.
  - intros m Hm. unfold call_ihc_api_batched, mbind, lift.
    now rewrite (Hneg m Hm).
  - intros m Hnone Hm.
    destruct (Z.lt_ge_cases m 0) as [Hlt|Hge].
    + unfold call_ihc_api_batched, mbind, lift. now rewrite (Hneg m Hlt).
    + unfold call_ihc_api_batched, mbind, lift.
      rewrite (batches_chunks payload m ltac:(lia)).
      rewrite flatten_journeys_pairs, Hnone. simpl.
      unfold batch_count. simpl Z.of_nat.
      replace ((0 + m - 1) / m) with 0 by (symmetry; apply Z.div_small; lia).
      reflexivity.
Qed.

Lemma X13_witness :
  call_ihc_api_batched http_500_first two_conversion_payload "token" (-5) []
  = (Ok Dict.empty, []) /\
  call_ihc_api_batched http_500_first {| users := None |} "token" 100 []
  = (Ok Dict.empty, []).
Proof.
  destruct (X13_batch_size_edge_cases http_500_first two_conversion_payload
              "token" []) as [_ [Hneg _]].
  destruct (X13_batch_size_edge_cases http_500_first {| users := None |}
              "token" []) as [_ [_ Hnone]].
  split.
  - apply Hneg. lia.
  - apply Hnone; [reflexivity | lia].
Defined.

(** ** The pipeline *)

(** The run, step by step: the first step that raises ends it with
    [false] and one logged error. *)
Lemma run_pipeline_cases (env : environment) (api_token : string)
  (test_mode : bool) (tr : list event) :
  run_pipeline env api_token test_mode tr =
  match env_sessions env with
  | Raise e => (Ok false, tr ++ [LogError (PipelineError e)])
  | Ok sessions_df =>
  match env_conversions env with
  | Raise e => (Ok false, tr ++ [LogError (PipelineError e)])
  | Ok conversions_df =>
  match scoring_step env api_token test_mode
          (build_customer_journeys (env_all_users env) sessions_df
             conversions_df) tr with
  | (Raise e, tr') => (Ok false, tr' ++ [LogError (PipelineError e)])
  | (Ok table, tr') =>
  let rows := attribution_rows table in
  match env_commit env rows with
  | Raise e => (Ok false, tr' ++ [LogError (PipelineError e)])
  | Ok _ =>
  match env_generate env with
  | Raise e =>
      (Ok false, tr' ++ [SavedAttribution rows; LogError (PipelineError e)])
  | Ok _ =>
  match env_export env with
  | Raise e =>
      (Ok false, tr' ++ [SavedAttribution rows; GeneratedReport;
                         LogError (PipelineError e)])
  | Ok _ =>
      (Ok true, tr' ++ [SavedAttribution rows; GeneratedReport;
                        ExportedReport])
  end end end end end end.
Proof.
  unfold run_pipeline, try_except, mbind, lift, scoring_step,
    save_attribution_results.
  destruct (env_sessions env) as [sessions_df|e]; [|reflexivity].
  destruct (env_conversions env) as [conversions_df|e]; [|reflexivity].
  unfold mbind, lift, emit, ret.
  destruct test_mode.
  - destruct (call_ihc_api_test _) as [table|e]; [|reflexivity].
    destruct (env_commit env _) as [[]|e]; [|reflexivity].
    destruct (env_generate env) as [[]|e];
      [|now rewrite <- !app_assoc].
    destruct (env_export env) as [path|e]; now rewrite <- !app_assoc.
  - destruct (call_ihc_api_batched _ _ _ _ tr) as [[table|e] tr'];
      [|reflexivity].
    destruct (env_commit env _) as [[]|e]; [|reflexivity].
    destruct (env_generate env) as [[]|e];
      [|now rewrite <- !app_assoc].
    destruct (env_export env) as [path|e]; now rewrite <- !app_assoc.
Qed.

Lemma scoring_step_trace (env : environment) (api_token : string)
  (test_mode : bool) (payload : journey_payload) (tr : list event) :
  exists res evs,
    scoring_step env api_token test_mode payload tr = (res, tr ++ evs) /\
    no_save evs /\
    (test_mode = true -> evs = []).
Proof.
  unfold scoring_step. destruct test_mode.
  - exists (call_ihc_api_test payload), [].
    unfold lift. rewrite app_nil_r. repeat split.
  - destruct (call_ihc_api_batched_trace (env_post env) payload api_token
                100 tr) as [res [evs [Hrun Hns]]].
    exists res, evs. repeat split; [exact Hrun | exact Hns | discriminate].
Qed.

(** X14.  A run of the pipeline never raises: it returns [True] or
    [False].  When it returns [True] the attribution rows were saved
    exactly once, at the end of the run and followed by the two report
    steps; when it returns [False] the last thing it did was to log the
    error. *)
Theorem X14_run_pipeline_never_raises (env : environment)
  (api_token : string) (test_mode : bool) (tr : list event) :
  exists b evs,
    run_pipeline env api_token test_mode tr = (Ok b, tr ++ evs) /\
    (b = true ->
     exists evs0 table,
       evs = evs0 ++ [SavedAttribution (attribution_rows table);
                      GeneratedReport; ExportedReport] /\
       no_save evs0) /\
    (b = false -> exists evs0 e, evs = evs0 ++ [LogError (PipelineError e)]).
Proof.
  rewrite run_pipeline_cases.
  destruct (env_sessions env) as [sessions_df|e].
  2:{ exists false, [LogError (PipelineError e)].
      split; [reflexivity|]. split; [discriminate|].
      intros _. exists [], e. reflexivity. }
  destruct (env_conversions env) as [conversions_df|e].
  2:{ exists false, [LogError (PipelineError e)].
      split; [reflexivity|]. split; [discriminate|].
      intros _. exists [], e. reflexivity. }
  destruct (scoring_step_trace env api_token test_mode
              (build_customer_journeys (env_all_users env) sessions_df
                 conversions_df) tr) as [res [evs [Hrun [Hns _]]]].
  rewrite Hrun. destruct res as [table|e].
  2:{ exists false, (evs ++ [LogError (PipelineError e)]).
      rewrite app_assoc. split; [reflexivity|]. split; [discriminate|].
      intros _. exists evs, e. reflexivity. }
  cbv zeta.
  destruct (env_commit env _) as [[]|e].
  2:{ exists false, (evs ++ [LogError (PipelineError e)]).
      rewrite app_assoc. split; [reflexivity|]. split; [discriminate|].
      intros _. exists evs, e. reflexivity. }
  destruct (env_generate env) as [[]|e].
  2:{ exists false, (evs ++ [SavedAttribution (attribution_rows table);
                             LogError (PipelineError e)]).
      rewrite app_assoc. split; [reflexivity|]. split; [discriminate|].
      intros _. exists (evs ++ [SavedAttribution (attribution_rows table)]), e.
      now rewrite <- app_assoc. }
  destruct (env_export env) as [path|e].
  - exists true, (evs ++ [SavedAttribution (attribution_rows table);
                          GeneratedReport; ExportedReport]).
    rewrite app_assoc. split; [reflexivity|]. split; [|discriminate].
    intros _. exists evs, table. split; [reflexivity | exact Hns].
  - exists false, (evs ++ [SavedAttribution (attribution_rows table);
                           GeneratedReport; LogError (PipelineError e)]).
    rewrite app_assoc. split; [reflexivity|]. split; [discriminate|].
    intros _.
    exists (evs ++ [SavedAttribution (attribution_rows table);
                    GeneratedReport]), e.
    now rewrite <- app_assoc.
Qed.

(** X15.  When reading, scoring, saving and both report steps succeed,
    the run returns [True] and the stored attribution rows are exactly
    the rows of the scored table, whatever was stored before.  This
    holds for every table the scoring step returns, so a batched run in
    which batches were skipped is reported as a success like a complete
    one. *)
Theorem X15_successful_run_replaces_rows (env : environment)
  (api_token : string) (test_mode : bool)
  (sessions_df : list session_row) (conversions_df : list conversion_row)
  (table : attribution_table) (path : string) (tr tr' : list event) :
  env_sessions env = Ok sessions_df ->
  env_conversions env = Ok conversions_df ->
  scoring_step env api_token test_mode
    (build_customer_journeys (env_all_users env) sessions_df conversions_df)
    tr = (Ok table, tr') ->
  env_commit env (attribution_rows table) = Ok tt ->
  env_generate env = Ok tt ->
  env_export env = Ok path ->
  run_pipeline env api_token test_mode tr =
    (Ok true, tr' ++ [SavedAttribution (attribution_rows table);
                      GeneratedReport; ExportedReport]) /\
  forall before,
    persisted before (tr' ++ [SavedAttribution (attribution_rows table);
                              GeneratedReport; ExportedReport])
    = attribution_rows table.
Proof.
  intros Hs Hc Hscore Hcommit Hgen Hexp.
  rewrite run_pipeline_cases, Hs, Hc, Hscore. cbv zeta.
  rewrite Hcommit, Hgen, Hexp. split; [reflexivity|].
  intros before. now rewrite persisted_app.
Qed.

Lemma X15_witness :
  run_pipeline skipping_environment "token" false [] =
  (Ok true,
   snd (scoring_step skipping_environment "token" false
          (build_customer_journeys ["u2"; "u1"]%string sample_sessions_df
             sample_conversions_df) [])
   ++ [SavedAttribution (attribution_rows Dict.empty);
       GeneratedReport; ExportedReport]) /\
  forall before,
    persisted before
      (snd (scoring_step skipping_environment "token" false
              (build_customer_journeys ["u2"; "u1"]%string sample_sessions_df
                 sample_conversions_df) [])
       ++ [SavedAttribution (attribution_rows Dict.empty);
           GeneratedReport; ExportedReport])
    = attribution_rows Dict.empty.
Proof.
  apply (X15_successful_run_replaces_rows skipping_environment "token" false
           sample_sessions_df sample_conversions_df Dict.empty
           "channel_report.csv"); reflexivity.
Defined.

(** X16.  A failure of a report step comes after the save: when
    [generate_channel_reporting] or [export_channel_reporting] raises,
    the run returns [False] although the attribution rows have already
    been replaced by the rows of the scored table. *)
Theorem X16_report_failure_keeps_saved_rows (env : environment)
  (api_token : string) (test_mode : bool)
  (sessions_df : list session_row) (conversions_df : list conversion_row)
  (table : attribution_table) (e : exn) (tr tr' : list event) :
  env_sessions env = Ok sessions_df ->
  env_conversions env = Ok conversions_df ->
  scoring_step env api_token test_mode
    (build_customer_journeys (env_all_users env) sessions_df conversions_df)
    tr = (Ok table, tr') ->
  env_commit env (attribution_rows table) = Ok tt ->
  env_generate env = Raise e \/
  (env_generate env = Ok tt /\ env_export env = Raise e) ->
  exists evs,
    run_pipeline env api_token test_mode tr = (Ok false, tr' ++ evs) /\
    In (LogError (PipelineError e)) evs /\
    forall before, persisted before (tr' ++ evs) = attribution_rows table.
Proof.
  intros Hs Hc Hscore Hcommit Hfail.
  rewrite run_pipeline_cases, Hs, Hc, Hscore. cbv zeta. rewrite Hcommit.
  destruct Hfail as [Hgen|[Hgen Hexp]]; rewrite Hgen; [|rewrite Hexp];
    eexists; (split; [reflexivity|]);
    (split; [simpl; auto|]);
    intros before; now rewrite persisted_app.
Qed.

Lemma X16_witness :
  exists table evs,
    call_ihc_api_test
      (build_customer_journeys ["u2"; "u1"]%string sample_sessions_df
         sample_conversions_df) = Ok table /\
    run_pipeline failing_report_environment "token" true [] =
      (Ok false, [] ++ evs) /\
    forall before, persisted before ([] ++ evs) = attribution_rows table.
Proof.
  destruct (call_ihc_api_test_ok
              (build_customer_journeys ["u2"; "u1"]%string sample_sessions_df
                 sample_conversions_df)) as [table [Hcall _]].
  destruct (X16_report_failure_keeps_saved_rows failing_report_environment
              "token" true sample_sessions_df sample_conversions_df table
              DatabaseError [] [])
    as [evs [Hrun [_ Hrows]]]; try reflexivity.
  - unfold scoring_step, lift. simpl env_all_users. now rewrite Hcall.
  - now left.
  - exists table, evs. auto.
Defined.



(** X18.  In test mode the pipeline never contacts the scoring service:
    no request is in the trace of the run, whatever the environment. *)
Theorem X18_test_mode_sends_no_request (env : environment)
  (api_token : string) (tr : list event) :
  exists b evs,
    run_pipeline env api_token true tr = (Ok b, tr ++ evs) /\
    posts evs = [].
Proof.
  rewrite run_pipeline_cases.
  destruct (env_sessions env) as [sessions_df|e];
    [|exists false; eexists; split; reflexivity].
  destruct (env_conversions env) as [conversions_df|e];
    [|exists false; eexists; split; reflexivity].
  unfold scoring_step, lift.
  destruct (call_ihc_api_test _) as [table|e];
    [|exists false; eexists; split; reflexivity].
  cbv zeta.
  destruct (env_commit env _) as [[]|e];
    [|exists false; eexists; split; reflexivity].
  destruct (env_generate env) as [[]|e];
    [|exists false; eexists; split; reflexivity].
  destruct (env_export env) as [path|e];
    [exists true | exists false]; eexists; split; reflexivity.
Qed.

(** ** The saved rows *)

Lemma in_attribution_rows (t : attribution_table) (cid sid : string) (w : Q) :
  In (cid, sid, w) (attribution_rows t) <->
  exists d, In (cid, d) t /\ In (sid, w) d.
Proof.
  unfold attribution_rows. rewrite in_flat_map. split.
  - intros [[k d] [Hin Hrow]]. simpl in Hrow.
    apply in_map_iff in Hrow as [[s v] [[= -> -> ->] Hd]]. eauto.
  - intros [d [Hin Hd]]. exists (cid, d). split; [exact Hin|].
    simpl. apply in_map_iff. exists (sid, w). auto.
Qed.

Lemma NoDup_attribution_rows (t : attribution_table) :
  Dict.wf t -> (forall cid d, In (cid, d) t -> Dict.wf d) ->
  NoDup (map fst (attribution_rows t)).
Proof.
  unfold Dict.wf. induction t as [|[k d0] t IH]; intros Hwf Hinner; simpl.
  - constructor.
  - inversion Hwf as [|? ? Hnotin Hwf']; subst.
    rewrite map_app, map_map. simpl. apply NoDup_app.
    + assert (Hd0 : NoDup (Dict.keys d0)) by (apply (Hinner k); now left).
      clear - Hd0. unfold Dict.keys in Hd0.
      induction d0 as [|[s v] d0 IHd]; simpl; [constructor|].
      inversion Hd0 as [|? ? Hn Hd0']; subst. constructor; [|auto].
      rewrite in_map_iff. intros [[s' v'] [[= ->] Hin]].
      apply Hn. change s with (fst (s, v')). now apply in_map.
    + apply IH; [exact Hwf'|]. intros cid d Hin. apply (Hinner cid). now right.
    + intros [c s] H1 H2.
      apply in_map_iff in H1 as [[s' v'] [[= <- <-] _]].
      apply in_map_iff in H2 as [[[c' s''] w] [[= -> ->] Hrow]].
      apply in_attribution_rows in Hrow as [d [Hin _]].
      apply Hnotin. change k with (fst (k, d)). now apply in_map.
Qed.

(** X19.  For a table that is a dictionary of dictionaries, a triple
    (conv_id, session_id, weight) is among the rows to insert exactly
    when the table maps conv_id to a mapping that maps session_id to
    that weight; a conversion with an empty mapping yields no row; and
    no two rows have the same conv_id and session_id. *)
Theorem X19_rows_are_the_table_entries (table : attribution_table) :
  Dict.wf table ->
  (forall cid d, In (cid, d) table -> Dict.wf d) ->
  (forall cid sid w,
      In (cid, sid, w) (attribution_rows table) <->
      exists d, Dict.get table cid = Some d /\ Dict.get d sid = Some w) /\
  (forall cid, Dict.get table cid = Some [] ->
               forall sid w, ~ In (cid, sid, w) (attribution_rows table)) /\
  NoDup (map fst (attribution_rows table)).
Proof.
  intros Hwf Hinner.
  assert (Hiff : forall cid sid w,
             In (cid, sid, w) (attribution_rows table) <->
             exists d, Dict.get table cid = Some d /\ Dict.get d sid = Some w).
  { intros cid sid w. rewrite in_attribution_rows. split.
    - intros [d [Hin Hd]]. exists d. split.
      + now apply DictFacts.in_get_some.
      + apply DictFacts.in_get_some; [exact (Hinner cid d Hin) | exact Hd].
    - intros [d [Hget Hd]]. exists d.
      split; now apply DictFacts.get_some_in. }
  split; [exact Hiff|]. split.
  - intros cid Hget sid w Hin. apply Hiff in Hin as [d [Hget' Hd]].
    rewrite Hget in Hget'. injection Hget' as <-. discriminate.
  - now apply NoDup_attribution_rows.
Qed.

Lemma X19_witness :
  In ("c1"%string, "s1"%string, 1%Q)
    (attribution_rows [("c1", [("s1", 1%Q)]); ("c2", [])]%string) /\
  NoDup (map fst (attribution_rows [("c1", [("s1", 1%Q)]); ("c2", [])]%string)).
Proof.
  destruct (X19_rows_are_the_table_entries
              [("c1", [("s1", 1%Q)]); ("c2", [])]%string)
    as [Hiff [_ Hnd]].
  - repeat constructor; simpl; intuition discriminate.
  - intros cid d [[= <- <-]|[[= <- <-]|[]]]; repeat constructor; simpl; tauto.
  - split; [|exact Hnd]. apply Hiff. exists [("s1"%string, 1%Q)].
    split; reflexivity.
Defined.

Lemma row_weights_of_key (t : attribution_table) (cid : string) :
  Dict.wf t ->
  row_weights cid (attribution_rows t) =
  Dict.values (get_default (Dict.get t cid) Dict.empty).
Proof.
  unfold Dict.wf, row_weights.
  induction t as [|[k d0] t IH]; intros Hwf; simpl; [reflexivity|].
  inversion Hwf as [|? ? Hnotin Hwf']; subst.
  rewrite filter_app, map_app, (IH Hwf').
  destruct (String.eqb_spec k cid) as [->|Hne].
  - assert (Hnone : Dict.get t cid = None)
      by (apply DictFacts.get_none_iff; exact Hnotin).
    rewrite Hnone. simpl. rewrite app_nil_r.
    clear. induction d0 as [|[s v] d0 IHd]; simpl; [reflexivity|].
    rewrite String.eqb_refl. simpl. now rewrite IHd.
  - replace (filter _ (map _ d0)) with (@nil (string * string * Q));
      [reflexivity|].
    clear - Hne. induction d0 as [|[s v] d0 IHd]; simpl; [reflexivity|].
    destruct (String.eqb_spec k cid); [contradiction | exact IHd].
Qed.

Lemma score_conversion_wf (sessions : list session) (t : attribution_table)
  (c : conversion) :
  table_ok t /\ Dict.wf t ->
  exists t', score_conversion sessions t c = Ok t' /\ table_ok t' /\ Dict.wf t'.
Proof.
  intros [Hok Hwf].
  destruct (score_conversion_ok sessions t c Hok) as [t' [Hrun Hok']].
  exists t'. split; [exact Hrun|]. split; [exact Hok'|].
  unfold score_conversion in Hrun.
  assert (Hwf1 : Dict.wf (Dict.ensure t (conv_id c) Dict.empty)).
  { unfold Dict.ensure. destruct (Dict.mem t (conv_id c)); [exact Hwf|].
    now apply DictFacts.wf_set. }
  destruct (py_not _); [now injection Hrun as <-|].
  destruct (normalize _ _); simpl in Hrun; [|discriminate].
  injection Hrun as <-. now apply DictFacts.wf_set.
Qed.

Lemma call_ihc_api_test_wf (payload : journey_payload) :
  exists table,
    call_ihc_api_test payload = Ok table /\ table_ok table /\ Dict.wf table.
Proof.
  unfold call_ihc_api_test.
  apply (for_each_invariant (fun t => table_ok t /\ Dict.wf t)).
  - intros t item Ht. unfold score_user.
    destruct (py_not _ || py_not _)%bool; [eauto|].
    apply (for_each_invariant (fun t => table_ok t /\ Dict.wf t));
      [|exact Ht].
    intros s a Hs. now apply score_conversion_wf.
  - split; [constructor | apply DictFacts.wf_empty].
Qed.

(** X20.  The rows that a test-mode run hands to the store sum to 1 per
    conversion: for the table of the heuristic engine and every conv_id,
    the weights of the rows of that conv_id are the weights of its
    mapping, so either there is no such row or they sum to 1. *)
Theorem X20_saved_heuristic_rows_sum_to_one (payload : journey_payload) :
  exists table,
    call_ihc_api_test payload = Ok table /\
    forall cid,
      row_weights cid (attribution_rows table) =
        Dict.values (get_default (Dict.get table cid) Dict.empty) /\
      (row_weights cid (attribution_rows table) = [] \/
       (py_sum (row_weights cid (attribution_rows table)) == 1)%Q).
Proof.
  destruct (call_ihc_api_test_wf payload) as [table [Hcall [Hok Hwf]]].
  exists table. split; [exact Hcall|]. intros cid.
  rewrite (row_weights_of_key table cid Hwf). split; [reflexivity|].
  destruct (Dict.get table cid) as [d|] eqn:Hget; [|now left].
  destruct (table_ok_get _ _ _ Hok Hget) as [_ [->|Hsum]];
    [now left | now right].
Qed.

(** ** The single call and the derived report columns *)

(** X21.  [call_ihc_api] sends exactly one request.  It returns the
    parsed body unchanged, and only when the status is not an error
    status and the body is a JSON string, array or object.  A transport
    failure, an error status or an unparsable body raises the matching
    [RequestException], which is logged once before it is raised again.
    A body that is a JSON number, boolean or null raises [TypeError]
    when its length is taken for the log line; the [except] clause does
    not catch it, so it is not logged. *)
Theorem X21_call_ihc_api_outcomes
  (post : journey_request -> journey_outcome) (payload : journey_payload)
  (api_url api_token : string) (tr : list call_event) :
  let request :=
    {| jr_url := api_url; jr_data := payload; jr_bearer := api_token |} in
  exists res evs,
    call_ihc_api post payload api_url api_token tr =
      (res, tr ++ CallPosted request :: evs) /\
    match res with
    | Returned v =>
        evs = [] /\
        exists r, post request = JourneyPostReturns r /\
                  (jr_status_code r < 400 \/ 600 <= jr_status_code r) /\
                  jr_json r = Some v /\
                  exists n, py_len v = Some n
    | Raised (CallRequestException e) =>
        evs = [CallLogError e] /\
        ((exists f, post request = JourneyPostFails f /\
                    e = transport_error f) \/
         (exists r, post request = JourneyPostReturns r /\
                    400 <= jr_status_code r < 600 /\
                    e = HTTPError (jr_status_code r)) \/
         (exists r, post request = JourneyPostReturns r /\
                    (jr_status_code r < 400 \/ 600 <= jr_status_code r) /\
                    jr_json r = None /\ e = JSONDecodeError))
    | Raised CallTypeError =>
        evs = [] /\
        exists r v, post request = JourneyPostReturns r /\
                    (jr_status_code r < 400 \/ 600 <= jr_status_code r) /\
                    jr_json r = Some v /\
                    (v = JNull \/ (exists b, v = JBool b) \/
                     exists q, v = JNumber q)
    end.
Proof.
  intros request.
  cbv [call_ihc_api call_try call_bind journey_post call_emit
         journey_raise_for_status journey_json call_len call_handler
         call_raise call_ret].
  fold request.
  destruct (post request) as [f|r] eqn:Hpost; cbv beta iota.
  - exists (Raised (CallRequestException (transport_error f))),
           [CallLogError (transport_error f)].
    rewrite <- app_assoc. split; [reflexivity|].
    split; [reflexivity|]. left. eauto.
  - destruct ((400 <=? jr_status_code r) && (jr_status_code r <? 600))%bool
      eqn:Hs; cbv beta iota.
    + apply andb_true_iff in Hs as [Hlo Hhi].
      apply Z.leb_le in Hlo. apply Z.ltb_lt in Hhi.
      exists (Raised (CallRequestException (HTTPError (jr_status_code r)))),
             [CallLogError (HTTPError (jr_status_code r))].
      rewrite <- app_assoc. split; [reflexivity|].
      split; [reflexivity|]. right. left. exists r. auto.
    + assert (Hstatus : jr_status_code r < 400 \/ 600 <= jr_status_code r).
      { apply andb_false_iff in Hs as [Hs|Hs].
        - apply Z.leb_gt in Hs. now left.
        - apply Z.ltb_ge in Hs. now right. }
      destruct (jr_json r) as [v|] eqn:Hjson; cbv beta iota.
      * destruct (py_len v) as [n|] eqn:Hlen; cbv beta iota.
        -- exists (Returned v), [].
           split; [reflexivity|]. split; [reflexivity|]. exists r. eauto.
        -- exists (Raised CallTypeError), [].
           split; [reflexivity|]. split; [reflexivity|].
           exists r, v. split; [reflexivity|]. split; [exact Hstatus|].
           split; [exact Hjson|].
           destruct v; try discriminate; eauto.
      * exists (Raised (CallRequestException JSONDecodeError)),
               [CallLogError JSONDecodeError].
        rewrite <- app_assoc. split; [reflexivity|].
        split; [reflexivity|]. right. right. exists r. auto.
Qed.

Lemma Qpositive_iff (x : Q) : Qpositive x = true <-> (0 < x)%Q.
Proof.
  unfold Qpositive. rewrite negb_true_iff, <- not_true_iff_false,
    Qle_bool_iff. split; intros H.
  - now apply Qnot_le_lt.
  - now apply Qlt_not_le.
Qed.

(** X22.  The derived report columns never divide by zero.  CPO is
    cost / ihc when ihc is positive and 0 otherwise, also for a negative
    ihc; ROAS is ihc_revenue / cost when cost is positive and 0
    otherwise. *)
Theorem X22_cpo_roas_total (row : report_row) :
  exists cpo roas,
    CPO row = Ok cpo /\ ROAS row = Ok roas /\
    ((0 < rr_ihc row)%Q -> (cpo * rr_ihc row == rr_cost row)%Q) /\
    ((rr_ihc row <= 0)%Q -> (cpo == 0)%Q) /\
    ((0 < rr_cost row)%Q -> (roas * rr_cost row == rr_ihc_revenue row)%Q) /\
    ((rr_cost row <= 0)%Q -> (roas == 0)%Q).
Proof.
  assert (Hdiv : forall num den,
             exists q,
               (if Qpositive den then py_div num den else Ok 0%Q) = Ok q /\
               ((0 < den)%Q -> (q * den == num)%Q) /\
               ((den <= 0)%Q -> (q == 0)%Q)).
  { intros num den. destruct (Qpositive den) eqn:E.
    - apply Qpositive_iff in E. unfold py_div.
      destruct (Qeq_bool den 0) eqn:Ez.
      + apply Qeq_bool_iff in Ez. lra.
      + eexists. split; [reflexivity|]. split.
        * intros _. field. lra.
        * intros Hle. lra.
    - exists 0%Q. split; [reflexivity|]. split; [|reflexivity].
      intros Hpos. apply Qpositive_iff in Hpos. congruence. }
  unfold CPO, ROAS.
  destruct (Hdiv (rr_cost row) (rr_ihc row)) as [cpo [H1 [H2 H3]]].
  destruct (Hdiv (rr_ihc_revenue row) (rr_cost row)) as [roas [H4 [H5 H6]]].
  exists cpo, roas. auto 10.
Qed.

(** * Order of the sessions, precision of the timestamps, rounding,
      skipped batches *)

(** ** The recency index is a position in the journey *)

Lemma StronglySorted_filter {A : Type} (R : A -> A -> Prop) (f : A -> bool)
  (l : list A) :
  StronglySorted R l -> StronglySorted R (filter f l).
Proof.
  induction 1 as [|a l Hl IH Ha]; simpl; [constructor|].
  destruct (f a); [|exact IH].
  constructor; [exact IH|].
  rewrite Forall_forall in *. intros x Hx.
  apply filter_In in Hx as [Hx _]. auto.
Qed.

Lemma eligible_sessions_sorted (R : session -> session -> Prop)
  (sessions : list session) (ts : datetime) :
  StronglySorted R sessions -> StronglySorted R (eligible_sessions sessions ts).
Proof.
  rewrite eligible_sessions_filter. apply StronglySorted_filter.
Qed.

Lemma earlier_among_sorted (l : list session) :
  StronglySorted earlier l ->
  forall i s, nth_error l i = Some s -> earlier_among l s = i.
Proof.
  unfold earlier_among, earlier.
  induction 1 as [|a l Hl IH Ha]; intros i s Hnth.
  - destruct i; discriminate.
  - rewrite Forall_forall in Ha. destruct i as [|i]; simpl in *.
    + injection Hnth as ->. rewrite Z.ltb_irrefl.
      assert (E : filter (fun s' => timestamp s' <? timestamp s) l = []).
      { clear IH Hl. induction l as [|x l IHl]; simpl; [reflexivity|].
        assert (Hx : timestamp s < timestamp x) by (apply Ha; now left).
        destruct (Z.ltb_spec (timestamp x) (timestamp s)); [lia|].
        apply IHl. intros y Hy. apply Ha. now right. }
      now rewrite E.
    + assert (Hs : timestamp a < timestamp s)
        by (apply Ha; eapply nth_error_In; eassumption).
      destruct (Z.ltb_spec (timestamp a) (timestamp s)); [|lia].
      simpl. f_equal. now apply IH.
Qed.

Lemma get_app_last {V : Type} (d : Dict.t V) (k : string) (v : V) :
  Dict.get d k = None -> Dict.get (d ++ [(k, v)]) k = Some v.
Proof.
  induction d as [|[k' v'] d IH]; simpl.
  - now rewrite String.eqb_refl.
  - destruct (String.eqb k' k); [discriminate | exact IH].
Qed.

Lemma NoDup_map_nth_error_later {A B : Type} (f : A -> B) (l : list A) :
  NoDup (map f l) ->
  forall i j a b, (i < j)%nat -> nth_error l i = Some a ->
                  nth_error l j = Some b -> f b <> f a.
Proof.
  induction l as [|x l IH]; intros Hnd i j a b Hij Ha Hb.
  - destruct i; discriminate.
  - simpl in Hnd. inversion Hnd as [|? ? Hnotin Hnd']; subst.
    destruct j as [|j]; [lia|]. simpl in Hb.
    destruct i as [|i]; simpl in Ha.
    + injection Ha as ->. intros Heq. apply Hnotin. rewrite <- Heq.
      apply in_map. eapply nth_error_In; eassumption.
    + apply (IH Hnd' i j); [lia | assumption | assumption].
Qed.

(** C8, refuted as stated: the journey lists the 11:00 session before
    the 09:00 session, and both precede the conversion.  The 09:00
    session is chronologically the first of the two eligible sessions,
    yet it is the second the loop meets: its raw weight is 2/2 * 1.2 *
    1.0 and not 1/2 * 1.2 * 1.0, and in the returned table the earlier
    session outweighs the later one. *)
Lemma C8_counterexample :
  eligible_sessions [late_session; early_session]
    (strptime (conv_timestamp sample_c1)) = [late_session; early_session] /\
  timestamp early_session < timestamp late_session /\
  earlier_among [late_session; early_session] early_session = 0%nat /\
  (exists w,
      Dict.get (raw_scores [late_session; early_session] Dict.empty sample_c1)
        "early" = Some w /\
      (w == (2 / 2) * 1.2 * 1.0)%Q /\
      ~ (w == ((0 + 1) / 2) * 1.2 * 1.0)%Q) /\
  (exists w_late w_early,
      call_ihc_api_test unsorted_payload =
        Ok [("c1", [("late", w_late); ("early", w_early)])] /\
      (w_late < w_early)%Q).
Proof.
  split; [reflexivity|]. split; [reflexivity|]. split; [reflexivity|]. split.
  - eexists. split; [reflexivity|]. split; [reflexivity|]. discriminate.
  - do 2 eexists. split; [reflexivity|]. reflexivity.
Qed.

(** C8, amended.  The index [i] of the recency factor is the position of
    the session among the eligible sessions in the order in which the
    journey lists them; the engine never sorts.  For a conversion with N
    eligible sessions the loop stores for the one at position i (0-based)
    the raw weight ((i+1)/N) * channel_weight * engagement_weight under
    its session_id, provided no later eligible session has the same
    session_id (a later one overwrites it).  When the journey lists its
    sessions in strictly increasing order of time, the eligible sessions
    are in that order too and the position of a session is the number of
    eligible sessions strictly earlier than it, so only then is [i] the
    chronological index.  These raw weights are what is normalized: for
    a conv_id not yet in the table and eligible sessions with distinct
    ids, the weight returned for the session at position i is its raw
    weight divided by the sum of the raw weights.  The channel weight is
    decided by the first matching substring among Email (1.2), Social
    (1.1), Search (1.3), Direct (0.8), and is 1.0 when none occurs, so
    "EmailSearch" weighs 1.2.  The engagement weight is 1.0 plus 0.5 for
    holder engagement plus 0.7 for closer engagement, at most 2.2. *)
Theorem C8_raw_weight_formula :
  (forall sessions table c i s,
      let eligible :=
        eligible_sessions sessions (strptime (conv_timestamp c)) in
      let N := List.length eligible in
      nth_error eligible i = Some s ->
      (forall j s', (i < j)%nat -> nth_error eligible j = Some s' ->
                    session_id s' <> session_id s) ->
      Dict.get (raw_scores sessions table c) (session_id s) =
        Some (raw_weight i N s) /\
      (raw_weight i N s ==
       (inject_Z (Z.of_nat i + 1) / inject_Z (Z.of_nat N))
       * channel_weight (channel s) * engagement_weight s)%Q) /\
  (forall sessions c i s,
      let eligible :=
        eligible_sessions sessions (strptime (conv_timestamp c)) in
      StronglySorted earlier sessions ->
      nth_error eligible i = Some s ->
      StronglySorted earlier eligible /\
      earlier_among eligible s = i) /\
  (forall sessions table c i s,
      let eligible :=
        eligible_sessions sessions (strptime (conv_timestamp c)) in
      let N := List.length eligible in
      let total :=
        py_sum (map (fun p => raw_weight (fst p) N (snd p))
                  (combine (seq 0 N) eligible)) in
      Dict.mem table (conv_id c) = false ->
      NoDup (map session_id eligible) ->
      nth_error eligible i = Some s ->
      (0 < total)%Q /\
      weight_of (score_conversion sessions table c) (conv_id c) (session_id s)
      = Some (raw_weight i N s / total)%Q) /\
  (forall ch,
      (substring_of "Email" ch -> channel_weight ch = 1.2%Q) /\
      (~ substring_of "Email" ch -> substring_of "Social" ch ->
       channel_weight ch = 1.1%Q) /\
      (~ substring_of "Email" ch -> ~ substring_of "Social" ch ->
       substring_of "Search" ch -> channel_weight ch = 1.3%Q) /\
      (~ substring_of "Email" ch -> ~ substring_of "Social" ch ->
       ~ substring_of "Search" ch -> substring_of "Direct" ch ->
       channel_weight ch = 0.8%Q) /\
      (~ substring_of "Email" ch -> ~ substring_of "Social" ch ->
       ~ substring_of "Search" ch -> ~ substring_of "Direct" ch ->
       channel_weight ch = 1.0%Q)) /\
  channel_weight "EmailSearch" = 1.2%Q /\
  (forall s,
      (engagement_weight s ==
       1 + (if holder_engagement s then 0.5 else 0)
         + (if closer_engagement s then 0.7 else 0))%Q /\
      (engagement_weight s <= 2.2)%Q).
Proof.
  split; [|split; [|split; [|split; [|split]]]].
  - intros sessions table c i s eligible N Hnth Hlater. split.
    + unfold raw_scores. fold eligible. fold N.
      now rewrite (raw_loop_get_nth N eligible i 0 _ s Hnth Hlater).
    + reflexivity.
  - intros sessions c i s eligible Hsorted Hnth.
    assert (Hs : StronglySorted earlier eligible)
      by now apply eligible_sessions_sorted.
    split; [exact Hs|]. now apply earlier_among_sorted.
  - intros sessions table c i s eligible N total Hmem Hnd Hnth.
    assert (Hne : eligible <> []) by (intros E; rewrite E in Hnth; destruct i; discriminate).
    destruct (score_conversion_fresh sessions table c Hmem Hne Hnd)
      as [Htot Hrun].
    fold eligible in Htot, Hrun. fold N in Htot, Hrun.
    assert (Htotal : py_sum (Dict.values (raw_entries N 0 eligible)) = total).
    { unfold total, raw_entries, Dict.values. rewrite map_map.
      reflexivity. }
    rewrite Htotal in Htot, Hrun.
    split; [exact Htot|].
    rewrite Hrun. unfold weight_of.
    assert (Hnone : Dict.get table (conv_id c) = None).
    { unfold Dict.mem in Hmem. now destruct (Dict.get table (conv_id c)). }
    rewrite (get_app_last table _ _ Hnone), scaled_get.
    assert (Hraw : raw_loop N 0 eligible [] = [] ++ raw_entries N 0 eligible).
    { apply raw_loop_fresh; [exact Hnd | reflexivity]. }
    simpl in Hraw. rewrite <- Hraw.
    rewrite (raw_loop_get_nth N eligible i 0 [] s Hnth).
    + reflexivity.
    + intros j s' Hj Hs'.
      exact (NoDup_map_nth_error_later session_id eligible Hnd i j s s' Hj Hnth Hs').
  - intros ch. unfold channel_weight.
    destruct (str_contains "Email" ch) eqn:E1;
      [apply str_contains_iff in E1 |
       assert (~ substring_of "Email" ch)
         by (rewrite <- str_contains_iff; congruence)];
    (destruct (str_contains "Social" ch) eqn:E2;
      [apply str_contains_iff in E2 |
       assert (~ substring_of "Social" ch)
         by (rewrite <- str_contains_iff; congruence)]);
    (destruct (str_contains "Search" ch) eqn:E3;
      [apply str_contains_iff in E3 |
       assert (~ substring_of "Search" ch)
         by (rewrite <- str_contains_iff; congruence)]);
    (destruct (str_contains "Direct" ch) eqn:E4;
      [apply str_contains_iff in E4 |
       assert (~ substring_of "Direct" ch)
         by (rewrite <- str_contains_iff; congruence)]);
    repeat split; intros; try reflexivity; contradiction.
  - reflexivity.
  - intros s. split.
    + apply engagement_weight_eq.
    + apply engagement_weight_bounds.
Qed.


Lemma C8_witness :
  Dict.get (raw_scores sample_sessions Dict.empty sample_c1) "s2" =
    Some (raw_weight 1 3 sample_s2) /\
  (raw_weight 1 3 sample_s2 == (2 / 3) * 1.2 * 1.5)%Q /\
  earlier_among sample_sessions sample_s2 = 1%nat /\
  weight_of (score_conversion sample_sessions Dict.empty sample_c1) "c1" "s2"
  <> None /\
  channel_weight "Email" = 1.2%Q /\
  channel_weight "Paid Social" = 1.1%Q.
Proof.
  destruct C8_raw_weight_formula as [Hraw [Hsorted [Hnorm [Hch _]]]].
  split; [|split; [|split; [|split; [|split]]]].
  - apply (Hraw sample_sessions Dict.empty sample_c1 1%nat sample_s2).
    + reflexivity.
    + intros j s' Hj Hn.
      destruct j as [|[|[|j]]]; try lia; simpl in Hn.
      * injection Hn as <-. discriminate.
      * destruct j; discriminate.
  - vm_compute. reflexivity.
  - apply (Hsorted sample_sessions sample_c1 1%nat sample_s2).
    + repeat constructor; unfold earlier; simpl; lia.
    + reflexivity.
  - destruct (Hnorm sample_sessions Dict.empty sample_c1 1%nat sample_s2)
      as [_ Hw].
    + reflexivity.
    + repeat constructor; simpl; intuition discriminate.
    + reflexivity.
    + change (conv_id sample_c1) with "c1"%string in Hw.
      change (session_id sample_s2) with "s2"%string in Hw.
      rewrite Hw. discriminate.
  - apply (Hch "Email"). exists ""%string, ""%string. reflexivity.
  - apply (Hch "Paid Social").
    + rewrite <- str_contains_iff. vm_compute. discriminate.
    + exists "Paid "%string, ""%string. reflexivity.
Defined.

(** ** Weights in double precision *)

Lemma nonneg_sum (d : Dict.t Q) :
  nonneg d -> (0 <= py_sum (Dict.values d))%Q.
Proof.
  induction 1 as [|[k w] d Hw Hd IH]; simpl.
  - unfold py_sum. simpl. lra.
  - rewrite py_sum_cons. simpl in Hw. lra.
Qed.

Lemma nonneg_sum_pos (d : Dict.t Q) (k : string) (w : Q) :
  nonneg d -> In (k, w) d -> (0 < w)%Q -> (0 < py_sum (Dict.values d))%Q.
Proof.
  induction 1 as [|[k0 w0] d Hw0 Hd IH]; simpl; [tauto|].
  rewrite py_sum_cons. simpl in Hw0.
  pose proof (nonneg_sum d Hd) as Hsum.
  intros [[= -> ->]|Hin] Hw.
  - lra.
  - specialize (IH Hin Hw). lra.
Qed.

Lemma raw_loop_nonneg (total_sessions : nat) (l : list session) :
  (0 < total_sessions)%nat ->
  forall i d, nonneg d -> nonneg (raw_loop total_sessions i l d).
Proof.
  intros HN. induction l as [|s l IH]; intros i d Hd; simpl; [assumption|].
  apply IH. apply DictFacts.Forall_set; [assumption|].
  intros k'. simpl. apply Qlt_le_weak. now apply raw_weight_pos.
Qed.

(** The sessions the loop has gone through hold a positive weight, and
    so do the keys that held one before. *)
Lemma raw_loop_scored_pos (total_sessions : nat) (l : list session) :
  (0 < total_sessions)%nat ->
  forall i d (P : string -> Prop),
    (forall sid, P sid -> exists w, Dict.get d sid = Some w /\ (0 < w)%Q) ->
    forall sid, P sid \/ In sid (map session_id l) ->
                exists w, Dict.get (raw_loop total_sessions i l d) sid = Some w /\
                          (0 < w)%Q.
Proof.
  intros HN. induction l as [|s l IH]; intros i d P HP sid Hsid; simpl.
  - destruct Hsid as [H|[]]. now apply HP.
  - apply (IH (S i) _ (fun x => P x \/ x = session_id s)).
    + intros x Hx. rewrite DictFacts.get_set.
      destruct (String.eqb_spec (session_id s) x) as [E|E].
      * eexists. split; [reflexivity|]. now apply raw_weight_pos.
      * destruct Hx as [Hx|Hx]; [now apply HP | congruence].
    + simpl in Hsid. destruct Hsid as [H|[H|H]]; auto.
Qed.

Lemma nonneg_scaled (total : Q) (d : Dict.t Q) :
  (0 < total)%Q -> nonneg d -> nonneg (scaled total d).
Proof.
  intros Ht Hd. unfold nonneg, scaled. rewrite Forall_map.
  eapply Forall_impl; [|exact Hd]. intros [k w] Hw. simpl in *.
  unfold Qdiv. apply Qmult_le_0_compat; [assumption|].
  apply Qlt_le_weak. now apply Qinv_lt_0_compat.
Qed.

Lemma get_default_ensure (t : attribution_table) (k : string) :
  get_default (Dict.get (Dict.ensure t k Dict.empty) k) Dict.empty =
  get_default (Dict.get t k) Dict.empty.
Proof.
  rewrite get_ensure, String.eqb_refl. now destruct (Dict.get t k).
Qed.

(** One conversion with an eligible session, scored over a table whose
    weights under its conv_id are non-negative. *)
Lemma score_conversion_nonneg (sessions : list session)
  (table : attribution_table) (c : conversion) :
  let eligible := eligible_sessions sessions (strptime (conv_timestamp c)) in
  let old := get_default (Dict.get table (conv_id c)) Dict.empty in
  let total :=
    py_sum (Dict.values (raw_loop (List.length eligible) 0 eligible old)) in
  eligible <> [] ->
  nonneg old ->
  (0 < total)%Q /\
  score_conversion sessions table c =
    Ok (Dict.set (Dict.ensure table (conv_id c) Dict.empty) (conv_id c)
          (scaled total (raw_loop (List.length eligible) 0 eligible old))) /\
  nonneg (scaled total (raw_loop (List.length eligible) 0 eligible old)) /\
  forall s, In s eligible ->
            exists w,
              Dict.get (scaled total
                          (raw_loop (List.length eligible) 0 eligible old))
                (session_id s) = Some w /\ (0 < w)%Q.
Proof.
  intros eligible old total Hne Hold.
  assert (HN : (0 < List.length eligible)%nat)
    by (destruct eligible; [congruence | simpl; lia]).
  set (d := raw_loop (List.length eligible) 0 eligible old) in *.
  assert (Hd : nonneg d) by now apply raw_loop_nonneg.
  assert (Hpos : forall s, In s eligible ->
                           exists w, Dict.get d (session_id s) = Some w /\
                                     (0 < w)%Q).
  { intros s Hs.
    apply (raw_loop_scored_pos _ eligible HN 0%nat old (fun _ => False)).
    - intros sid [].
    - right. now apply in_map. }
  assert (Htot : (0 < total)%Q).
  { destruct eligible as [|s0 rest] eqn:E; [congruence|].
    destruct (Hpos s0 ltac:(now left)) as [w [Hw Hw0]].
    apply DictFacts.get_some_in in Hw.
    exact (nonneg_sum_pos d _ w Hd Hw Hw0). }
  split; [exact Htot|]. split; [|split].
  - unfold score_conversion. fold eligible.
    rewrite (proj2 (py_not_false_iff eligible) Hne).
    unfold raw_scores. fold eligible. rewrite get_default_ensure.
    fold old. fold d. fold total.
    rewrite normalize_nonzero by lra. reflexivity.
  - now apply nonneg_scaled.
  - intros s Hs. destruct (Hpos s Hs) as [w [Hw Hw0]].
    exists (w / total)%Q. rewrite scaled_get, Hw. split; [reflexivity|].
    unfold Qdiv. apply Qmult_lt_0_compat; [assumption|].
    now apply Qinv_lt_0_compat.
Qed.

Lemma all_distinct_NoDup (l : list string) : all_distinct l = true -> NoDup l.
Proof.
  induction l as [|x l IH]; simpl; intros H; constructor;
    apply andb_true_iff in H as [Hx Hl].
  - intros Hin. apply negb_true_iff in Hx.
    assert (E : existsb (String.eqb x) l = true)
      by (apply existsb_exists; exists x; split;
          [assumption | apply String.eqb_refl]).
    congruence.
  - now apply IH.
Qed.

(** One user: its session gets the weight 1.0.  A second user whose
    conversion carries the same conv_id: the engine stores the raw
    weight 1.3 * 2.2 of the new session beside the 1.0 and divides both
    by their sum, so the weight stored first becomes 1 / 3.86. *)
#[warnings="-inexact-float"]
Example shared_conv_id_renormalizes :
  weight_of (Binary64.call_ihc_api_test (shared_conv_id_payload 1))
    "c1" (visitor_id 0) = Some 1%float /\
  (exists w,
      weight_of (Binary64.call_ihc_api_test (shared_conv_id_payload 2))
        "c1" (visitor_id 0) = Some w /\
      PrimFloat.ltb 0.259 w = true /\ PrimFloat.ltb w 0.2591 = true) /\
  (exists q,
      weight_of (call_ihc_api_test (shared_conv_id_payload 2))
        "c1" (visitor_id 0) = Some q /\
      (q == 1 / 3.86)%Q).
Proof.
  split; [vm_compute; reflexivity|]. split.
  - eexists. repeat split; vm_compute; reflexivity.
  - eexists. split; vm_compute; reflexivity.
Qed.

(** C10, refuted as stated: 600 users, each with one session of its own
    that precedes its conversion, and all the conversions carrying the
    conv_id "c1".  Every raw weight is positive and no division raises,
    but each conversion scored divides the weights already stored under
    "c1" once more, by about 3.86; in double precision the weight of the
    first session has become exactly 0.0 in the returned table, while
    the weight of the last one is positive. *)
Lemma C10_counterexample :
  Dict.wf (get_default (users (shared_conv_id_payload 600)) Dict.empty) /\
  eligible_sessions [visitor_session 0] (strptime (conv_timestamp sample_c1))
  = [visitor_session 0] /\
  PrimFloat.ltb 0 (Binary64.raw_weight 0 1 (visitor_session 0)) = true /\
  weight_of (Binary64.call_ihc_api_test (shared_conv_id_payload 600))
    "c1" (visitor_id 0) = Some 0%float /\
  (exists w,
      weight_of (Binary64.call_ihc_api_test (shared_conv_id_payload 600))
        "c1" (visitor_id 599) = Some w /\
      PrimFloat.ltb 0 w = true).
Proof.
  split; [|split; [|split; [|split]]].
  - apply all_distinct_NoDup. vm_compute. reflexivity.
  - reflexivity.
  - vm_compute. reflexivity.
  - vm_compute. reflexivity.
  - eexists. split; vm_compute; reflexivity.
Qed.

(** C10, amended.  Every raw weight is strictly positive: the recency
    factor is at least 1/N, the channel weight at least 0.8 and the
    engagement weight at least 1.  So when a conversion with an eligible
    session is scored over a table whose weights under its conv_id are
    non-negative, the divisor of the normalization is strictly positive,
    the division does not raise, every session just scored gets a
    strictly positive weight and all weights under that conv_id stay
    non-negative.  For every payload the engine returns a table, never
    [ZeroDivisionError], and no weight in it is negative.  That every
    weight of the table is strictly positive is not claimed: a weight is
    divided again each time a later conversion carries the same
    conv_id. *)
Theorem C10_weights_positive_no_zero_division :
  (forall i total_sessions s,
      (0 < total_sessions)%nat ->
      (1 / inject_Z (Z.of_nat total_sessions)
       <= recency_weight i total_sessions)%Q /\
      (0.8 <= channel_weight (channel s))%Q /\
      (1 <= engagement_weight s)%Q /\
      (0 < raw_weight i total_sessions s)%Q) /\
  (forall sessions table c,
      eligible_sessions sessions (strptime (conv_timestamp c)) <> [] ->
      nonneg (get_default (Dict.get table (conv_id c)) Dict.empty) ->
      (0 < py_sum (Dict.values (raw_scores sessions table c)))%Q /\
      exists table' d',
        score_conversion sessions table c = Ok table' /\
        Dict.get table' (conv_id c) = Some d' /\
        nonneg d' /\
        forall s,
          In s (eligible_sessions sessions (strptime (conv_timestamp c))) ->
          exists w, Dict.get d' (session_id s) = Some w /\ (0 < w)%Q) /\
  (forall payload,
      exists table,
        call_ihc_api_test payload = Ok table /\
        forall cid d sid w,
          Dict.get table cid = Some d -> Dict.get d sid = Some w ->
          (0 <= w)%Q).
Proof.
  split; [|split].
  - intros i N s HN. repeat split.
    + now apply recency_weight_bounds.
    + apply channel_weight_bounds.
    + apply engagement_weight_bounds.
    + now apply raw_weight_pos.
  - intros sessions table c Hne Hold.
    destruct (score_conversion_nonneg sessions table c Hne Hold)
      as [Htot [Hrun [Hnn Hpos]]].
    split; [exact Htot|].
    do 2 eexists. split; [exact Hrun|].
    split; [apply DictFacts.get_set_same|]. split; [exact Hnn | exact Hpos].
  - intros payload.
    destruct (call_ihc_api_test_ok payload) as [table [Hcall Hok]].
    exists table. split; [assumption|].
    intros cid d sid w Hd Hw.
    destruct (table_ok_get _ _ _ Hok Hd) as [Hall _].
    apply Qlt_le_weak. exact (all_pos_get _ _ _ Hall Hw).
Qed.


Lemma C10_witness :
  (0 < raw_weight 0 3 sample_s1)%Q /\
  (0 < py_sum (Dict.values
                 (raw_scores sample_sessions Dict.empty sample_c1)))%Q /\
  (exists table' d',
      score_conversion sample_sessions Dict.empty sample_c1 = Ok table' /\
      Dict.get table' "c1" = Some d' /\
      exists w, Dict.get d' "s1" = Some w /\ (0 < w)%Q) /\
  exists table, call_ihc_api_test sample_payload = Ok table.
Proof.
  destruct C10_weights_positive_no_zero_division as [Hraw [Hstep Hcall]].
  destruct (Hstep sample_sessions Dict.empty sample_c1)
    as [Htotal [table' [d' [Hrun [Hget [_ Hpos]]]]]].
  { discriminate. }
  { constructor. }
  split; [|split; [|split]].
  - apply Hraw. lia.
  - exact Htotal.
  - exists table', d'. split; [exact Hrun|]. split; [exact Hget|].
    apply (Hpos sample_s1). now left.
  - destruct (Hcall sample_payload) as [table [Ht _]]. eauto.
Defined.

(** ** What the journey keeps of the rows *)

Lemma Forall2_map_right {A B : Type} (R : A -> B -> Prop) (f : A -> B)
  (l : list A) :
  (forall a, R a (f a)) -> Forall2 R l (map f l).
Proof. intros H. induction l; simpl; constructor; auto. Qed.

Lemma copies_session_dict (r : session_row) : copies_session r (session_dict r).
Proof. repeat split. Qed.

Lemma copies_conversion_dict (c : conversion_row) :
  copies_conversion c (conversion_dict c).
Proof. repeat split. Qed.

Lemma strftime_le (a b : Timestamp) : a <= b -> strftime a <= strftime b.
Proof. unfold strftime. intros H. apply Z.div_le_mono; lia. Qed.

(** C7, refuted as stated: the only session of the user precedes the
    conversion by 800 milliseconds, so the conversion is retained.  In
    the journey both carry the same timestamp, 12:00:00: the retained
    conversion has no strictly earlier session there, and the session is
    not as it was in the input, its timestamp has lost the fraction of
    the second. *)
Lemma C7_counterexample :
  enumerates_all_users ["u1"%string] sub_second_sessions_df
    sub_second_conversions_df /\
  exists s cv,
    Dict.get
      (get_default
         (users (build_customer_journeys ["u1"%string] sub_second_sessions_df
                   sub_second_conversions_df)) Dict.empty) "u1" =
    Some {| sessions := Some [s]; conversions := Some [cv] |} /\
    ~ timestamp s < conv_timestamp cv /\
    timestamp s * 1000000000 <> 43200100000000.
Proof.
  split.
  - split.
    + repeat constructor. simpl. tauto.
    + intros u. simpl. tauto.
  - do 2 eexists. split; [reflexivity|]. split; simpl.
    + vm_compute. discriminate.
    + vm_compute. discriminate.
Qed.

(** C7, amended.  Let [all_users] enumerate the user IDs that occur in
    both inputs.  A user is a key of the output exactly when it is in
    that intersection and has a conversion with a strictly earlier
    session row of its own.  The journey stored for such a user holds
    one session for each of the user's session rows, in order and none
    left out, with session_id, channel, the three flags and the cost as
    in the row (a missing cost as 0) and the timestamp cut to whole
    seconds; and one conversion, with conv_id and revenue as in the row
    and the timestamp cut to whole seconds, for exactly those of the
    user's conversion rows that have a strictly earlier session row of
    the user.  Both lists are non-empty.  In the journey every retained
    conversion has a session whose timestamp is not later than its own;
    it has a strictly earlier one when all row timestamps are whole
    seconds.  Users for which either list would be empty have no key. *)
Theorem C7_journey_builder (all_users : list string)
  (sessions_df : list session_row) (conversions_df : list conversion_row) :
  enumerates_all_users all_users sessions_df conversions_df ->
  let out :=
    get_default
      (users (build_customer_journeys all_users sessions_df conversions_df))
      Dict.empty in
  (forall u,
      Dict.mem out u = true <->
      In u (map row_user_id sessions_df) /\
      In u (map crow_user_id conversions_df) /\
      exists c r, In c conversions_df /\ crow_user_id c = u /\
                  In r sessions_df /\ row_user_id r = u /\
                  row_timestamp r < crow_timestamp c) /\
  (forall u j,
      Dict.get out u = Some j ->
      let user_sessions := user_sessions_of sessions_df u in
      let retained := retained_conversions sessions_df conversions_df u in
      exists ss cs,
        sessions j = Some ss /\
        conversions j = Some cs /\
        Forall2 copies_session user_sessions ss /\
        Forall2 copies_conversion retained cs /\
        (forall r, In r user_sessions <->
                   In r sessions_df /\ row_user_id r = u) /\
        (forall c, In c retained <->
                   In c conversions_df /\ crow_user_id c = u /\
                   exists r, In r sessions_df /\ row_user_id r = u /\
                             row_timestamp r < crow_timestamp c) /\
        ss <> [] /\ cs <> [] /\
        (forall cv, In cv cs ->
                    exists s, In s ss /\ timestamp s <= conv_timestamp cv) /\
        (whole_seconds sessions_df conversions_df ->
         forall cv, In cv cs ->
                    exists s, In s ss /\ timestamp s < conv_timestamp cv)) /\
  (forall u,
      (user_sessions_of sessions_df u = [] \/
       retained_conversions sessions_df conversions_df u = []) ->
      Dict.mem out u = false) /\
  Dict.wf out.
Proof.
  intros [_ Henum] out. subst out. simpl.
  split; [|split; [|split]].
  - intros u. unfold Dict.mem. rewrite get_build_users. simpl.
    pose proof (journey_of_some_iff sessions_df conversions_df u) as Hj.
    destruct (journey_of sessions_df conversions_df u) as [j|].
    + assert (He : exists c r, In c conversions_df /\ crow_user_id c = u /\
                               In r sessions_df /\ row_user_id r = u /\
                               row_timestamp r < crow_timestamp c)
        by (apply Hj; eauto).
      destruct He as [c [r [Hc [Hcu [Hr [Hru Hlt]]]]]].
      assert (Hs : In u (map row_user_id sessions_df))
        by (rewrite <- Hru; now apply in_map).
      assert (Hcv : In u (map crow_user_id conversions_df))
        by (rewrite <- Hcu; now apply in_map).
      destruct (in_dec string_dec u all_users) as [Hin|Hnin].
      * split; [|reflexivity]. intros _. eauto 10.
      * exfalso. apply Hnin. apply Henum. auto.
    + split; [discriminate|]. intros [_ [_ He]].
      apply Hj in He as [j He]. discriminate.
  - intros u j. rewrite get_build_users. simpl. intros Hget.
    assert (Hjo : journey_of sessions_df conversions_df u = Some j).
    { destruct (journey_of sessions_df conversions_df u) as [j'|];
        [|discriminate].
      destruct (in_dec string_dec u all_users); [assumption | discriminate]. }
    clear Hget. cbv zeta.
    destruct (journey_of_fields _ _ _ _ Hjo) as [Hss Hcs].
    assert (Hne : user_sessions_of sessions_df u <> [] /\
                  retained_conversions sessions_df conversions_df u <> []).
    { unfold journey_of in Hjo.
      destruct (user_sessions_of sessions_df u); [discriminate|].
      destruct (retained_conversions sessions_df conversions_df u);
        [discriminate|].
      split; discriminate. }
    assert (Hbefore : forall cv,
               In cv (map conversion_dict
                        (retained_conversions sessions_df conversions_df u)) ->
               exists crow r,
                 cv = conversion_dict crow /\ In crow conversions_df /\
                 In r sessions_df /\
                 In (session_dict r)
                    (map session_dict (user_sessions_of sessions_df u)) /\
                 row_timestamp r < crow_timestamp crow).
    { intros cv Hcv. apply in_map_iff in Hcv as [crow [<- Hcrow]].
      apply in_retained_conversions in Hcrow
        as [Hcin [Hcu [r [Hr [Hru Hlt]]]]].
      exists crow, r. split; [reflexivity|]. split; [exact Hcin|].
      split; [exact Hr|]. split; [|exact Hlt].
      apply in_map, in_user_sessions_of. auto. }
    exists (map session_dict (user_sessions_of sessions_df u)),
           (map conversion_dict
              (retained_conversions sessions_df conversions_df u)).
    split; [exact Hss|]. split; [exact Hcs|].
    split; [apply Forall2_map_right, copies_session_dict|].
    split; [apply Forall2_map_right, copies_conversion_dict|].
    split; [intros r; apply in_user_sessions_of|].
    split; [intros c; apply in_retained_conversions|].
    split; [intros E; apply map_eq_nil in E; now apply (proj1 Hne)|].
    split; [intros E; apply map_eq_nil in E; now apply (proj2 Hne)|].
    split.
    + intros cv Hcv.
      destruct (Hbefore cv Hcv) as [crow [r [-> [_ [_ [Hin Hlt]]]]]].
      exists (session_dict r). split; [exact Hin|]. simpl.
      apply strftime_le. lia.
    + intros [Hsec Hcsec] cv Hcv.
      destruct (Hbefore cv Hcv) as [crow [r [-> [Hcin [Hr [Hin Hlt]]]]]].
      exists (session_dict r). split; [exact Hin|]. simpl.
      apply strftime_lt_whole_seconds; auto.
  - intros u Hempty. unfold Dict.mem. rewrite get_build_users. simpl.
    unfold journey_of.
    destruct Hempty as [-> | ->]; [reflexivity|].
    now destruct (user_sessions_of sessions_df u).
  - apply wf_build_users. apply DictFacts.wf_empty.
Qed.


Lemma C7_witness :
  let out :=
    get_default
      (users (build_customer_journeys ["u2"; "u1"]%string sample_sessions_df
                sample_conversions_df)) Dict.empty in
  Dict.mem out "u1" = true /\ Dict.mem out "u2" = false /\ Dict.wf out /\
  exists j ss cs,
    Dict.get out "u1" = Some j /\
    sessions j = Some ss /\ conversions j = Some cs /\
    Forall2 copies_session (user_sessions_of sample_sessions_df "u1") ss /\
    forall cv, In cv cs ->
               exists s, In s ss /\ timestamp s < conv_timestamp cv.
Proof.
  assert (Henum : enumerates_all_users ["u2"; "u1"]%string sample_sessions_df
                    sample_conversions_df).
  { split.
    - repeat constructor; simpl; intuition discriminate.
    - intros u. simpl. intuition (subst; auto; try discriminate). }
  destruct (C7_journey_builder _ _ _ Henum) as [Hkeys [Hjourney [Hdrop Hwf]]].
  split; [|split; [|split]].
  - apply Hkeys. simpl. split; [auto|]. split; [auto|].
    exists (sample_crow "c1" "u1" 43200000000000),
           (sample_row "s1" "u1" 32400000000000).
    simpl. repeat split; auto.
  - apply Hdrop. right. reflexivity.
  - exact Hwf.
  - destruct (Hjourney "u1"%string
                {| sessions :=
                     Some [session_dict (sample_row "s1" "u1" 32400000000000);
                           session_dict (sample_row "s2" "u1" 46800000000000)];
                   conversions :=
                     Some [conversion_dict
                             (sample_crow "c1" "u1" 43200000000000)] |}
                eq_refl)
      as [ss [cs [Hss [Hcs [Hcopy [_ [_ [_ [_ [_ [_ Hstrict]]]]]]]]]]].
    eexists. exists ss, cs. split; [reflexivity|].
    split; [exact Hss|]. split; [exact Hcs|]. split; [exact Hcopy|].
    apply Hstrict.
    split; intros x Hx; simpl in Hx;
      repeat (destruct Hx as [<-|Hx]; [reflexivity|]); destruct Hx.
Defined.

(** ** A batch answered with a statusCode error *)

Lemma batch_loop_run (post : service) (api_token : string)
  (jbc : Dict.t (list flattened_journey)) (bs : list (list string)) :
  forall k combined tr,
    none_fatal_before post api_token jbc k (List.length bs) bs ->
    batch_loop post api_token jbc k bs combined tr =
    (Ok (reconcile combined (scored_values post api_token jbc k bs)),
     tr ++ batch_events post api_token jbc k bs).
Proof.
  induction bs as [|b bs IH]; intros k combined tr Hall; simpl.
  - unfold ret. now rewrite app_nil_r.
  - unfold mbind. rewrite process_batch_verdict.
    pose proof (Hall 0%nat b ltac:(simpl; lia) eq_refl) as Hb.
    rewrite Nat.add_0_r in Hb.
    pose proof (none_fatal_before_tail _ _ _ _ _ _ _ Hall) as Htail.
    destruct (verdict (post k (request_of api_token jbc b)))
      as [e|r|r|v] eqn:Ev; [now contradiction (Hb e)| | |]; simpl;
      rewrite (IH (S k) _ _ Htail); rewrite <- ?app_assoc; simpl;
      rewrite <- ?app_assoc; try rewrite reconcile_app; reflexivity.
Qed.

Lemma posts_batch_events (post : service) (api_token : string)
  (jbc : Dict.t (list flattened_journey)) (bs : list (list string)) :
  forall k, posts (batch_events post api_token jbc k bs) =
            requests_from api_token jbc k bs.
Proof.
  induction bs as [|b bs IH]; intros k; simpl; [reflexivity|].
  change (Posted k (request_of api_token jbc b)
          :: verdict_events (verdict (post k (request_of api_token jbc b)))
          ++ batch_events post api_token jbc (S k) bs)
    with ([Posted k (request_of api_token jbc b)]
          ++ verdict_events (verdict (post k (request_of api_token jbc b)))
          ++ batch_events post api_token jbc (S k) bs).
  rewrite !posts_app, (proj2 (verdict_events_quiet _)), IH. reflexivity.
Qed.

Lemma batch_events_split (post : service) (api_token : string)
  (jbc : Dict.t (list flattened_journey)) (bs : list (list string)) :
  forall j k b,
    nth_error bs j = Some b ->
    batch_events post api_token jbc k bs =
    batch_events post api_token jbc k (firstn j bs)
    ++ Posted (k + j)%nat (request_of api_token jbc b)
       :: verdict_events
            (verdict (post (k + j)%nat (request_of api_token jbc b)))
       ++ batch_events post api_token jbc (S (k + j)) (skipn (S j) bs).
Proof.
  induction bs as [|b0 bs IH]; intros j k b Hnth.
  - destruct j; discriminate.
  - destruct j as [|j]; simpl in Hnth.
    + injection Hnth as ->. rewrite Nat.add_0_r. reflexivity.
    + simpl. rewrite (IH j (S k) b Hnth).
      replace (S k + j)%nat with (k + S j)%nat by lia.
      rewrite <- app_assoc. reflexivity.
Qed.

Lemma scored_values_split (post : service) (api_token : string)
  (jbc : Dict.t (list flattened_journey)) (bs : list (list string)) :
  forall j k b,
    nth_error bs j = Some b ->
    scored_values post api_token jbc k bs =
    scored_values post api_token jbc k (firstn j bs)
    ++ match verdict (post (k + j)%nat (request_of api_token jbc b)) with
       | Scored attribution_values => attribution_values
       | _ => []
       end
    ++ scored_values post api_token jbc (S (k + j)) (skipn (S j) bs).
Proof.
  induction bs as [|b0 bs IH]; intros j k b Hnth.
  - destruct j; discriminate.
  - destruct j as [|j]; simpl in Hnth.
    + injection Hnth as ->. rewrite Nat.add_0_r. reflexivity.
    + simpl. rewrite (IH j (S k) b Hnth).
      replace (S k + j)%nat with (k + S j)%nat by lia.
      rewrite <- app_assoc. reflexivity.
Qed.

Lemma in_scored_values (post : service) (api_token : string)
  (jbc : Dict.t (list flattened_journey)) (cd : conversion_entry)
  (bs : list (list string)) :
  forall k,
    In cd (scored_values post api_token jbc k bs) <->
    exists j b vs,
      nth_error bs j = Some b /\
      verdict (post (k + j)%nat (request_of api_token jbc b)) = Scored vs /\
      In cd vs.
Proof.
  induction bs as [|b0 bs IH]; intros k; simpl.
  - split; [tauto|]. intros [j [b [vs [H _]]]]. destruct j; discriminate.
  - rewrite in_app_iff, IH. split.
    + intros [H|[j [b [vs [Hn [Hv Hin]]]]]].
      * exists 0%nat, b0. rewrite Nat.add_0_r.
        destruct (verdict (post k (request_of api_token jbc b0)));
          try destruct H. eauto.
      * exists (S j), b, vs.
        replace (k + S j)%nat with (S k + j)%nat by lia. auto.
    + intros [[|j] [b [vs [Hn [Hv Hin]]]]]; simpl in Hn.
      * injection Hn as ->. rewrite Nat.add_0_r in Hv. rewrite Hv. now left.
      * right. exists j, b, vs.
        replace (S k + j)%nat with (k + S j)%nat by lia. auto.
Qed.

Lemma reconcile_session_mem (cid : string) (t : attribution_table)
  (sd : session_entry) (x : string) :
  Dict.mem t cid = true ->
  (Dict.mem (reconcile_session cid t sd) x = true <-> Dict.mem t x = true).
Proof.
  intros Hcid. unfold reconcile_session.
  destruct (se_session_id sd) as [sid|]; [|tauto].
  destruct (truthy (Some sid) && negb (prefix "conversion_" sid))%bool;
    [|tauto].
  rewrite mem_set. split; [|auto]. intros [H| ->]; assumption.
Qed.

Lemma reconcile_sessions_mem (cid : string) (l : list session_entry)
  (x : string) :
  forall t,
    Dict.mem t cid = true ->
    (Dict.mem (fold_left (reconcile_session cid) l t) x = true <->
     Dict.mem t x = true).
Proof.
  induction l as [|sd l IH]; intros t Hcid; simpl; [tauto|].
  rewrite IH by (now apply reconcile_session_mem).
  now apply reconcile_session_mem.
Qed.

Lemma reconcile_conversion_mem (t : attribution_table)
  (cd : conversion_entry) (x : string) :
  Dict.mem (reconcile_conversion t cd) x = true <->
  Dict.mem t x = true \/ (x <> ""%string /\ ce_conversion_id cd = Some x).
Proof.
  unfold reconcile_conversion.
  destruct (ce_conversion_id cd) as [cid|];
    [|split; [auto | intros [H|[_ H]]; [assumption | discriminate]]].
  simpl. destruct (String.eqb_spec cid "") as [->|Hne]; simpl.
  - split; [auto|]. intros [H|[Hx [= <-]]]; [assumption | congruence].
  - rewrite reconcile_sessions_mem, mem_ensure
      by (apply mem_ensure; now right).
    split.
    + intros [H| ->]; [now left | right; split; [assumption | reflexivity]].
    + intros [H|[_ [= ->]]]; auto.
Qed.

Lemma reconcile_mem (v : list conversion_entry) (x : string) :
  forall t,
    Dict.mem (reconcile t v) x = true <->
    Dict.mem t x = true \/
    (x <> ""%string /\ exists cd, In cd v /\ ce_conversion_id cd = Some x).
Proof.
  unfold reconcile.
  induction v as [|cd v IH]; intros t; simpl.
  - split; [auto|]. intros [H|[_ [cd [[] _]]]]. exact H.
  - rewrite IH, reconcile_conversion_mem. split.
    + intros [[H|[Hx Hcd]]|[Hx [cd' [Hin Hcd']]]]; eauto 7.
    + intros [H|[Hx [cd' [[<-|Hin] Hcd']]]]; eauto 7.
Qed.

Lemma batches_nonempty_positive (payload : journey_payload)
  (max_journeys : Z) (bs : list (list string)) :
  batches payload max_journeys = Ok bs -> bs <> [] -> 0 < max_journeys.
Proof.
  unfold batches, py_range. intros Hb Hne.
  destruct (Z.eqb_spec max_journeys 0); [discriminate|].
  destruct (Z.ltb_spec 0 max_journeys) as [Hpos|Hneg]; [exact Hpos|].
  exfalso. apply Hne. simpl in Hb. injection Hb as <-.
  match goal with
  | |- context [Z.to_nat ?q] =>
      assert (Hq : q < 1) by (apply Z.div_lt_upper_bound; lia);
      replace (Z.to_nat q) with 0%nat by lia
  end.
  reflexivity.
Qed.

Lemma nth_error_nth_default {A : Type} (l : list A) (n : nat) (a d : A) :
  nth_error l n = Some a -> nth n l d = a.
Proof.
  revert n. induction l as [|x l IH]; intros [|n]; simpl; try discriminate.
  - now intros [= ->].
  - apply IH.
Qed.

(** C5, refuted as stated: a run of two batches, ["c1"] and ["c2"], in
    which only the second is answered with a statusCode error.  The run
    does not raise, but the answer to the first batch names "c2": the
    returned table then has an entry for "c2", a conversion of the
    skipped batch, and none for "c1".  The orchestrator writes what a
    scored answer names and does not compare it with the batch it
    sent. *)
Lemma C5_counterexample :
  let jbc := group_by_conversion (flatten_journeys two_conversion_payload) in
  batches two_conversion_payload 1 = Ok [["c1"]; ["c2"]]%string /\
  verdict (misnaming_service 0%nat (request_of "token" jbc ["c1"%string])) =
    Scored (sample_value "c2" "s1") /\
  verdict (misnaming_service 1%nat (request_of "token" jbc ["c2"%string])) =
    Skipped status_error_body /\
  fst (call_ihc_api_batched misnaming_service two_conversion_payload
         "token" 1 []) = Ok [("c2"%string, [("s1"%string, 1%Q)])] /\
  Dict.mem [("c2"%string, [("s1"%string, 1%Q)])] "c2" = true /\
  Dict.mem [("c2"%string, [("s1"%string, 1%Q)])] "c1" = false.
Proof. repeat split. Qed.

(** C5, amended.  Take a run in which batch [j], in any position among
    any number of batches, is answered with a non-error HTTP status and
    a JSON body whose statusCode is not 200, and no batch is fatal.  The
    run does not raise.  The error, and the partial failures if the body
    lists them, are logged right after the request of batch [j]; then
    the loop goes on with batch [j+1], so every batch is sent.  The
    skipped batch contributes nothing: the returned table is the
    reconciliation of the values of the scored batches before and after
    it.  A conv_id is a key of the table exactly when it is non-empty
    and named by the scored answer to some batch other than [j].  So
    when every scored answer names only conversions of its own batch, no
    conversion of batch [j] is a key and every key is a conversion of
    another batch; without that condition on the answers this does not
    hold. *)
Theorem C5_status_code_error_skips_batch (post : service)
  (payload : journey_payload) (api_token : string) (max_journeys : Z)
  (bs : list (list string)) (j : nat) (b : list string) (r : response)
  (results : api_results) (code : Z) (tr : list event) :
  let jbc := group_by_conversion (flatten_journeys payload) in
  let request := request_of api_token jbc b in
  let error_log :=
    LogError (ApiError results)
    :: match partialFailureErrors results with
       | Some errors => [LogError (PartialFailures errors)]
       | None => []
       end in
  batches payload max_journeys = Ok bs ->
  nth_error bs j = Some b ->
  post j request = PostReturns r ->
  (status_code r < 400 \/ 600 <= status_code r) ->
  json r = Some results ->
  statusCode results = Some code ->
  code <> 200 ->
  none_fatal_before post api_token jbc 0 (List.length bs) bs ->
  let table := reconcile Dict.empty (scored_values post api_token jbc 0 bs) in
  call_ihc_api_batched post payload api_token max_journeys tr =
    (Ok table, tr ++ batch_events post api_token jbc 0 bs) /\
  batch_events post api_token jbc 0 bs =
    batch_events post api_token jbc 0 (firstn j bs)
    ++ Posted j request :: error_log
    ++ batch_events post api_token jbc (S j) (skipn (S j) bs) /\
  posts (batch_events post api_token jbc 0 bs) =
    requests_from api_token jbc 0 bs /\
  scored_values post api_token jbc 0 bs =
    scored_values post api_token jbc 0 (firstn j bs)
    ++ scored_values post api_token jbc (S j) (skipn (S j) bs) /\
  (forall cid,
      Dict.mem table cid = true <->
      cid <> ""%string /\
      exists j' b' vs cd,
        j' <> j /\ nth_error bs j' = Some b' /\
        verdict (post j' (request_of api_token jbc b')) = Scored vs /\
        In cd vs /\ ce_conversion_id cd = Some cid) /\
  ((forall j' b' vs cd cid,
       nth_error bs j' = Some b' ->
       verdict (post j' (request_of api_token jbc b')) = Scored vs ->
       In cd vs -> ce_conversion_id cd = Some cid -> In cid b') ->
   forall cid,
     Dict.mem table cid = true ->
     ~ In cid b /\
     exists j' b', j' <> j /\ nth_error bs j' = Some b' /\ In cid b').
Proof.
  intros jbc request error_log Hb Hnth Hpost Hstatus Hjson Hcode Hne Hnone
    table.
  assert (Hv : verdict (post j request) = Skipped results).
  { rewrite Hpost. unfold verdict.
    assert (Hs : ((400 <=? status_code r) && (status_code r <? 600))%bool
                 = false).
    { destruct Hstatus as [H|H].
      - destruct (Z.leb_spec 400 (status_code r)); [lia | reflexivity].
      - destruct (Z.ltb_spec (status_code r) 600); [lia|].
        apply andb_false_r. }
    rewrite Hs, Hjson. unfold status_error. rewrite Hcode.
    destruct (Z.eqb_spec code 200); [contradiction | reflexivity]. }
  assert (Hkeys : forall cid,
             Dict.mem table cid = true <->
             cid <> ""%string /\
             exists j' b' vs cd,
               j' <> j /\ nth_error bs j' = Some b' /\
               verdict (post j' (request_of api_token jbc b')) = Scored vs /\
               In cd vs /\ ce_conversion_id cd = Some cid).
  { intros cid. unfold table. rewrite reconcile_mem. split.
    - intros [H|[Hx [cd [Hin Hcd]]]]; [discriminate|].
      split; [exact Hx|].
      apply in_scored_values in Hin as [j' [b' [vs [Hn [Hvs Hin]]]]].
      simpl in Hvs. exists j', b', vs, cd.
      split; [|auto].
      intros ->. rewrite Hnth in Hn. injection Hn as <-.
      fold request in Hvs. congruence.
    - intros [Hx [j' [b' [vs [cd [_ [Hn [Hvs [Hin Hcd]]]]]]]]].
      right. split; [exact Hx|]. exists cd. split; [|exact Hcd].
      apply in_scored_values. exists j', b', vs. auto. }
  split; [|split; [|split; [|split; [|split]]]].
  - rewrite (call_ihc_api_batched_loop _ _ _ _ bs tr Hb).
    now apply batch_loop_run.
  - rewrite (batch_events_split post api_token jbc bs j 0 b Hnth).
    simpl. fold request. rewrite Hv. reflexivity.
  - apply posts_batch_events.
  - rewrite (scored_values_split post api_token jbc bs j 0 b Hnth).
    simpl. fold request. rewrite Hv. reflexivity.
  - exact Hkeys.
  - intros Hnamed cid Hmem.
    apply Hkeys in Hmem as [_ [j' [b' [vs [cd [Hj [Hn [Hvs [Hin Hcd]]]]]]]]].
    pose proof (Hnamed j' b' vs cd cid Hn Hvs Hin Hcd) as Hcid.
    split; [|eauto].
    intros Hinb.
    assert (Hmax : 0 < max_journeys).
    { apply (batches_nonempty_positive payload max_journeys bs Hb).
      intros ->. destruct j; discriminate. }
    destruct (batches_no_duplicates payload max_journeys Hmax)
      as [bs' [Hbs' Hnd]].
    rewrite Hb in Hbs'. injection Hbs' as <-.
    apply Hj.
    apply (NoDup_concat_unique bs cid Hnd j' j).
    + now rewrite (nth_error_nth_default bs j' b' [] Hn).
    + now rewrite (nth_error_nth_default bs j b [] Hnth).
Qed.

Lemma C5_witness :
  fst (call_ihc_api_batched status_error_first two_conversion_payload
         "token" 1 []) = Ok [("c2"%string, [("s1"%string, 1%Q)])] /\
  map fst
    (posts (snd (call_ihc_api_batched status_error_first
                   two_conversion_payload "token" 1 []))) = [0; 1]%nat /\
  fst (call_ihc_api_batched status_error_second two_conversion_payload
         "token" 1 []) = Ok [("c1"%string, [("s1"%string, 1%Q)])] /\
  forall cid,
    Dict.mem (reconcile Dict.empty
                (scored_values status_error_second "token"
                   (group_by_conversion
                      (flatten_journeys two_conversion_payload))
                   0 [["c1"]; ["c2"]]%string)) cid = true ->
    ~ In cid ["c2"%string].
Proof.
  pose proof (C5_status_code_error_skips_batch status_error_first
                two_conversion_payload "token"%string 1
                [["c1"]; ["c2"]]%string 0%nat ["c1"%string]
                {| status_code := 200; json := Some status_error_body |}
                status_error_body 400 []) as H1.
  pose proof (C5_status_code_error_skips_batch status_error_second
                two_conversion_payload "token"%string 1
                [["c1"]; ["c2"]]%string 1%nat ["c2"%string]
                {| status_code := 200; json := Some status_error_body |}
                status_error_body 400 []) as H2.
  cbv zeta in H1, H2.
  assert (Hnone : forall post : service,
             (forall k request, exists r, post k request = PostReturns r /\
                                          status_code r = 200 /\
                                          json r <> None) ->
             none_fatal_before post "token"
               (group_by_conversion (flatten_journeys two_conversion_payload))
               0 2 [["c1"]; ["c2"]]%string).
  { intros post Hpost j' b' _ _ e'.
    destruct (Hpost (0 + j')%nat
                (request_of "token"
                   (group_by_conversion
                      (flatten_journeys two_conversion_payload)) b'))
      as [r [-> [Hs Hj]]].
    unfold verdict. rewrite Hs. simpl.
    destruct (json r) as [results|]; [|congruence].
    destruct (status_error results); [discriminate|].
    destruct (value results); discriminate. }
  specialize (H1 eq_refl eq_refl eq_refl (or_introl eq_refl) eq_refl eq_refl
                ltac:(lia)).
  specialize (H2 eq_refl eq_refl eq_refl (or_introl eq_refl) eq_refl eq_refl
                ltac:(lia)).
  destruct H1 as [Hrun1 [_ [Hposts1 _]]].
  { apply Hnone. intros [|k] request; eexists;
      (split; [reflexivity|]); split; (reflexivity || discriminate). }
  destruct H2 as [Hrun2 [_ [_ [_ [_ Hnamed]]]]].
  { apply Hnone. intros [|k] request; eexists;
      (split; [reflexivity|]); split; (reflexivity || discriminate). }
  split; [|split; [|split]].
  - rewrite Hrun1. reflexivity.
  - rewrite Hrun1. cbn [snd app]. rewrite Hposts1. reflexivity.
  - rewrite Hrun2. reflexivity.
  - intros cid Hmem. apply (Hnamed) in Hmem; [exact (proj1 Hmem)|].
    intros j' b' vs cd cid' Hn Hv Hin Hcd.
    destruct j' as [|[|j']]; simpl in Hn; try discriminate;
      injection Hn as <-; vm_compute in Hv; try discriminate.
    injection Hv as <-. destruct Hin as [<-|[]].
    injection Hcd as <-. now left.
Defined.
